(** * EndlessTrails: the theme-agnostic trail game engine

    A shallow embedding of [TrailGameEngine] (the core game logic class) and
    the properties its specification states about it.

    Conventions of the embedding.
    - The engine object is a record holding [state] and [eventHistory]; the
      theme is injected once by the constructor and never reassigned, so it
      is a section variable.
    - Every method is a computation in the monad [Eng]: it reads and mutates
      the engine, may throw (a JavaScript exception leaves earlier mutations
      in place), and draws from [Math.random], modelled as a stream
      [rnd : nat -> Q] read through a cursor.
    - Party members are JavaScript objects mutated through aliases
      ([nonDoubting[i]], [victim]); an alias is an index into [party].
    - Ledger quantities are integers or [NaN]: every delta the engine
      applies is an integer literal, a theme integer or a [Math.floor], and
      [NaN] is what [Math.min(undefined, x)] produces when a resource has no
      configured [max].  Chances, weights and random draws are rationals.
    - Strings are byte strings, a JavaScript string being held in UTF-8. *)

From Stdlib Require Import ZArith QArith Qround Qminmax Lia Lqa List Ascii String.
From stdpp Require Import gmap strings list fin_maps.

Local Open Scope Z_scope.

(** ** JavaScript numbers of the resource ledger *)

Module JsNum.

Inductive num := Int (z : Z) | NaN.

(** [ToNumber] of a possibly missing numeric field ([undefined] is [NaN]). *)
Definition of_undef (o : option Z) : num :=
  match o with Some z => Int z | None => NaN end.

Definition add (a b : num) : num :=
  match a, b with Int x, Int y => Int (x + y) | _, _ => NaN end.

Definition sub (a b : num) : num :=
  match a, b with Int x, Int y => Int (x - y) | _, _ => NaN end.

(** [Math.min] and [Math.max]: [NaN] as soon as one argument is. *)
Definition min (a b : num) : num :=
  match a, b with Int x, Int y => Int (Z.min x y) | _, _ => NaN end.

Definition max (a b : num) : num :=
  match a, b with Int x, Int y => Int (Z.max x y) | _, _ => NaN end.

(** Comparisons: every comparison with [NaN] is false. *)
Definition ltb (a b : num) : bool :=
  match a, b with Int x, Int y => x <? y | _, _ => false end.

Definition leb (a b : num) : bool :=
  match a, b with Int x, Int y => x <=? y | _, _ => false end.

Definition gtb (a b : num) : bool := ltb b a.
Definition geb (a b : num) : bool := leb b a.

(** [x || d] on numbers: [0], [NaN] and [undefined] are falsy. *)
Definition or_default (o : option Z) (d : Z) : Z :=
  match o with
  | Some z => if z =? 0 then d else z
  | None => d
  end.

(** Truthiness of an optional number, as in [if (config.max)]. *)
Definition truthy (o : option Z) : bool :=
  match o with Some z => negb (z =? 0) | None => false end.

End JsNum.

Import JsNum.

(** Rational comparisons and the weight default [w || 1]. *)
Definition Qltb (a b : Q) : bool := negb (Qle_bool b a).
Definition Qgtb (a b : Q) : bool := Qltb b a.

Definition Qor_default (o : option Q) (d : Q) : Q :=
  match o with
  | Some q => if Qeq_bool q 0 then d else q
  | None => d
  end.

(** [s || d] on strings: the empty string and [undefined] are falsy. *)
Definition str_or (o : option string) (d : string) : string :=
  match o with
  | Some s => if bool_decide (s = "") then d else s
  | None => d
  end.

(** ** Data model *)

(** The three settings the travel screen offers, and the four weathers
    [updateWeather] draws. *)
Inductive Pace := mellow | steady | rush.
Inductive Rations := bare | normal | feast.
Inductive Weather := clear | rain | bad | hot.

(** The five keys of [state.resources]. *)
Inductive ResKey := fuel | food | morale | currency | specialItem.

#[global] Instance ResKey_eq_dec : EqDecision ResKey.
Proof. solve_decision. Defined.

Definition res_of_key (k : string) : option ResKey :=
  if bool_decide (k = "fuel") then Some fuel
  else if bool_decide (k = "food") then Some food
  else if bool_decide (k = "morale") then Some morale
  else if bool_decide (k = "currency") then Some currency
  else if bool_decide (k = "specialItem") then Some specialItem
  else None.

Record Resources := {
  r_fuel : num;
  r_food : num;
  r_morale : num;
  r_currency : num;
  r_specialItem : num
}.

Definition res_get (k : ResKey) (r : Resources) : num :=
  match k with
  | fuel => r_fuel r
  | food => r_food r
  | morale => r_morale r
  | currency => r_currency r
  | specialItem => r_specialItem r
  end.

Definition res_set (k : ResKey) (v : num) (r : Resources) : Resources :=
  match k with
  | fuel => {| r_fuel := v; r_food := r_food r; r_morale := r_morale r;
               r_currency := r_currency r; r_specialItem := r_specialItem r |}
  | food => {| r_fuel := r_fuel r; r_food := v; r_morale := r_morale r;
               r_currency := r_currency r; r_specialItem := r_specialItem r |}
  | morale => {| r_fuel := r_fuel r; r_food := r_food r; r_morale := v;
                 r_currency := r_currency r; r_specialItem := r_specialItem r |}
  | currency => {| r_fuel := r_fuel r; r_food := r_food r; r_morale := r_morale r;
                   r_currency := v; r_specialItem := r_specialItem r |}
  | specialItem => {| r_fuel := r_fuel r; r_food := r_food r; r_morale := r_morale r;
                      r_currency := r_currency r; r_specialItem := v |}
  end.

(** Profession modifiers, every field optional ([?.] chains in the code). *)
Record Modifiers := {
  vibeDrainByPhase : option (gmap string Z);
  antagonistTargetChance : option Q;
  forageBonus : option Q;
  forageMoraleChange : option Z
}.

Record Member := {
  m_name : string;
  doubting : bool;
  doubt : option string;
  abandoned : bool;
  abandonReason : option string;
  (* [victim.reason], written only by the paranoia branch of
     [checkFailConditions] *)
  m_reason : option string
}.

(** Values stored in [state.items]: a count ([parts]) or a flag ([guitar]). *)
Inductive ItemVal := ItemCount (n : Z) | ItemFlag (b : bool).

Definition item_truthy (o : option ItemVal) : bool :=
  match o with
  | Some (ItemCount n) => negb (n =? 0)
  | Some (ItemFlag b) => b
  | None => false
  end.

(** The members that [state.items], a plain object, inherits from
    [Object.prototype]: functions and, for [__proto__], an object, all of
    them truthy. *)
Definition objectPrototype : list string :=
  [ "constructor"; "hasOwnProperty"; "isPrototypeOf"; "propertyIsEnumerable";
    "toLocaleString"; "toString"; "valueOf"; "__proto__";
    "__defineGetter__"; "__defineSetter__"; "__lookupGetter__";
    "__lookupSetter__" ]%string.

(** [!!state.items[name]]: the entry of that name when the object has one
    of its own, else the inherited member of that name, if any. *)
Definition item_present (items : gmap string ItemVal) (name : string) : bool :=
  match items !! name with
  | Some v => item_truthy (Some v)
  | None => bool_decide (name ∈ objectPrototype)
  end.

(** An entry of [state.abandonedThisTurn]. *)
Record Abandonment := { ab_name : string; ab_reason : string }.

Record State := {
  resources : Resources;
  distance : Z;
  totalDistance : Z;
  currentLocationIndex : nat;
  month : nat;
  day : Z;
  pace : Pace;
  rations : Rations;
  weather : Weather;
  profession : option string;
  professionModifiers : option Modifiers;
  alive : bool;
  party : list Member;
  usedEvents : list string;
  forageCount : nat;
  items : gmap string ItemVal;
  abandonedThisTurn : list Abandonment
}.

(** Event conditions: a predicate on the state, a string, or any other
    value (which [checkEventCondition] accepts). *)
Inductive Condition :=
  | CondFn (f : State -> bool)
  | CondStr (s : string)
  | CondOther.

Record Event := {
  ev_id : option string;
  ev_text : string;
  ev_condition : option Condition;
  copEvent : bool;
  ev_weight : option Q;
  ev_effects : list (string * Z)
}.

Record HistoryEntry := {
  h_event : Event;
  h_month : nat;
  h_day : Z
}.

(** *** Theme descriptor (read-only) *)

Record ResourceConfig := {
  rc_name : string;
  startValue : Z;
  rc_max : option Z
}.

Record ThemeResources := {
  t_fuel : ResourceConfig;
  t_food : ResourceConfig;
  t_morale : ResourceConfig;
  t_currency : ResourceConfig;
  t_specialItem : ResourceConfig
}.

Definition res_config (k : ResKey) (r : ThemeResources) : ResourceConfig :=
  match k with
  | fuel => t_fuel r
  | food => t_food r
  | morale => t_morale r
  | currency => t_currency r
  | specialItem => t_specialItem r
  end.

Record ProfessionSpec := {
  p_id : string;
  p_modifiers : option Modifiers;
  startingCurrency : Z
}.

Record Phase := {
  ph_name : string;
  startMile : Z;
  endMile : Z
}.

Record Journey := {
  j_totalDistance : Z;
  phases : list Phase;
  endLocation : string
}.

Record Landmark := { moraleBoost : option Z }.

Record Location := {
  loc_name : string;
  loc_distance : Z;
  hasLandmark : bool;
  landmarkData : option Landmark
}.

Record Doubt := {
  d_name : string;
  d_trigger : string;
  moraleDrain : Z;
  d_abandonReason : option string
}.

Record ShopItem := {
  i_id : string;
  i_name : string;
  i_cost : Z;
  i_type : string;
  i_amount : Z
}.

Record Mystery := {
  my_enabled : bool;
  timeLimit : option Z
}.

Record Theme := {
  th_name : string;
  th_version : string;
  th_resources : ThemeResources;
  professions : list ProfessionSpec;
  journey : Journey;
  locations : list Location;
  (* [theme.events[phase]]: the event pools, keyed by phase name *)
  th_events : gmap string (list Event);
  (* [theme.events.doubts] *)
  doubts : list Doubt;
  (* [theme.shop.items]; a theme may come without a shop *)
  shop : option (list ShopItem);
  mystery : option Mystery
}.

(** The items on sale, none in a theme without a shop. *)
Definition shopItems (theme : Theme) : list ShopItem :=
  default [] (shop theme).

(** Field updates of [state] ([this.state.f = v]). *)

Definition set_resources (v : Resources) (s : State) : State :=
  {| resources := v; distance := distance s;
     totalDistance := totalDistance s;
     currentLocationIndex := currentLocationIndex s; month := month s;
     day := day s; pace := pace s; rations := rations s;
     weather := weather s; profession := profession s;
     professionModifiers := professionModifiers s; alive := alive s;
     party := party s; usedEvents := usedEvents s;
     forageCount := forageCount s; items := items s;
     abandonedThisTurn := abandonedThisTurn s |}.

Definition set_distance (v : Z) (s : State) : State :=
  {| resources := resources s; distance := v;
     totalDistance := totalDistance s;
     currentLocationIndex := currentLocationIndex s; month := month s;
     day := day s; pace := pace s; rations := rations s;
     weather := weather s; profession := profession s;
     professionModifiers := professionModifiers s; alive := alive s;
     party := party s; usedEvents := usedEvents s;
     forageCount := forageCount s; items := items s;
     abandonedThisTurn := abandonedThisTurn s |}.

Definition set_currentLocationIndex (v : nat) (s : State) : State :=
  {| resources := resources s; distance := distance s;
     totalDistance := totalDistance s; currentLocationIndex := v;
     month := month s; day := day s; pace := pace s; rations := rations s;
     weather := weather s; profession := profession s;
     professionModifiers := professionModifiers s; alive := alive s;
     party := party s; usedEvents := usedEvents s;
     forageCount := forageCount s; items := items s;
     abandonedThisTurn := abandonedThisTurn s |}.

Definition set_month (v : nat) (s : State) : State :=
  {| resources := resources s; distance := distance s;
     totalDistance := totalDistance s;
     currentLocationIndex := currentLocationIndex s; month := v;
     day := day s; pace := pace s; rations := rations s;
     weather := weather s; profession := profession s;
     professionModifiers := professionModifiers s; alive := alive s;
     party := party s; usedEvents := usedEvents s;
     forageCount := forageCount s; items := items s;
     abandonedThisTurn := abandonedThisTurn s |}.

Definition set_day (v : Z) (s : State) : State :=
  {| resources := resources s; distance := distance s;
     totalDistance := totalDistance s;
     currentLocationIndex := currentLocationIndex s; month := month s;
     day := v; pace := pace s; rations := rations s; weather := weather s;
     profession := profession s;
     professionModifiers := professionModifiers s; alive := alive s;
     party := party s; usedEvents := usedEvents s;
     forageCount := forageCount s; items := items s;
     abandonedThisTurn := abandonedThisTurn s |}.

Definition set_pace (v : Pace) (s : State) : State :=
  {| resources := resources s; distance := distance s;
     totalDistance := totalDistance s;
     currentLocationIndex := currentLocationIndex s; month := month s;
     day := day s; pace := v; rations := rations s; weather := weather s;
     profession := profession s;
     professionModifiers := professionModifiers s; alive := alive s;
     party := party s; usedEvents := usedEvents s;
     forageCount := forageCount s; items := items s;
     abandonedThisTurn := abandonedThisTurn s |}.

Definition set_rations (v : Rations) (s : State) : State :=
  {| resources := resources s; distance := distance s;
     totalDistance := totalDistance s;
     currentLocationIndex := currentLocationIndex s; month := month s;
     day := day s; pace := pace s; rations := v; weather := weather s;
     profession := profession s;
     professionModifiers := professionModifiers s; alive := alive s;
     party := party s; usedEvents := usedEvents s;
     forageCount := forageCount s; items := items s;
     abandonedThisTurn := abandonedThisTurn s |}.

Definition set_weather (v : Weather) (s : State) : State :=
  {| resources := resources s; distance := distance s;
     totalDistance := totalDistance s;
     currentLocationIndex := currentLocationIndex s; month := month s;
     day := day s; pace := pace s; rations := rations s; weather := v;
     profession := profession s;
     professionModifiers := professionModifiers s; alive := alive s;
     party := party s; usedEvents := usedEvents s;
     forageCount := forageCount s; items := items s;
     abandonedThisTurn := abandonedThisTurn s |}.

Definition set_profession (v : option string) (s : State) : State :=
  {| resources := resources s; distance := distance s;
     totalDistance := totalDistance s;
     currentLocationIndex := currentLocationIndex s; month := month s;
     day := day s; pace := pace s; rations := rations s;
     weather := weather s; profession := v;
     professionModifiers := professionModifiers s; alive := alive s;
     party := party s; usedEvents := usedEvents s;
     forageCount := forageCount s; items := items s;
     abandonedThisTurn := abandonedThisTurn s |}.

Definition set_professionModifiers (v : option Modifiers) (s : State) : State :=
  {| resources := resources s; distance := distance s;
     totalDistance := totalDistance s;
     currentLocationIndex := currentLocationIndex s; month := month s;
     day := day s; pace := pace s; rations := rations s;
     weather := weather s; profession := profession s;
     professionModifiers := v; alive := alive s; party := party s;
     usedEvents := usedEvents s; forageCount := forageCount s;
     items := items s; abandonedThisTurn := abandonedThisTurn s |}.

Definition set_alive (v : bool) (s : State) : State :=
  {| resources := resources s; distance := distance s;
     totalDistance := totalDistance s;
     currentLocationIndex := currentLocationIndex s; month := month s;
     day := day s; pace := pace s; rations := rations s;
     weather := weather s; profession := profession s;
     professionModifiers := professionModifiers s; alive := v;
     party := party s; usedEvents := usedEvents s;
     forageCount := forageCount s; items := items s;
     abandonedThisTurn := abandonedThisTurn s |}.

Definition set_party (v : list Member) (s : State) : State :=
  {| resources := resources s; distance := distance s;
     totalDistance := totalDistance s;
     currentLocationIndex := currentLocationIndex s; month := month s;
     day := day s; pace := pace s; rations := rations s;
     weather := weather s; profession := profession s;
     professionModifiers := professionModifiers s; alive := alive s;
     party := v; usedEvents := usedEvents s; forageCount := forageCount s;
     items := items s; abandonedThisTurn := abandonedThisTurn s |}.

Definition set_usedEvents (v : list string) (s : State) : State :=
  {| resources := resources s; distance := distance s;
     totalDistance := totalDistance s;
     currentLocationIndex := currentLocationIndex s; month := month s;
     day := day s; pace := pace s; rations := rations s;
     weather := weather s; profession := profession s;
     professionModifiers := professionModifiers s; alive := alive s;
     party := party s; usedEvents := v; forageCount := forageCount s;
     items := items s; abandonedThisTurn := abandonedThisTurn s |}.

Definition set_forageCount (v : nat) (s : State) : State :=
  {| resources := resources s; distance := distance s;
     totalDistance := totalDistance s;
     currentLocationIndex := currentLocationIndex s; month := month s;
     day := day s; pace := pace s; rations := rations s;
     weather := weather s; profession := profession s;
     professionModifiers := professionModifiers s; alive := alive s;
     party := party s; usedEvents := usedEvents s; forageCount := v;
     items := items s; abandonedThisTurn := abandonedThisTurn s |}.

Definition set_items (v : gmap string ItemVal) (s : State) : State :=
  {| resources := resources s; distance := distance s;
     totalDistance := totalDistance s;
     currentLocationIndex := currentLocationIndex s; month := month s;
     day := day s; pace := pace s; rations := rations s;
     weather := weather s; profession := profession s;
     professionModifiers := professionModifiers s; alive := alive s;
     party := party s; usedEvents := usedEvents s;
     forageCount := forageCount s; items := v;
     abandonedThisTurn := abandonedThisTurn s |}.

Definition set_abandonedThisTurn (v : list Abandonment) (s : State) : State :=
  {| resources := resources s; distance := distance s;
     totalDistance := totalDistance s;
     currentLocationIndex := currentLocationIndex s; month := month s;
     day := day s; pace := pace s; rations := rations s;
     weather := weather s; profession := profession s;
     professionModifiers := professionModifiers s; alive := alive s;
     party := party s; usedEvents := usedEvents s;
     forageCount := forageCount s; items := items s;
     abandonedThisTurn := v |}.

(** [this.state.resources[k] = f(this.state.resources[k])]. *)
Definition upd_res (k : ResKey) (f : num -> num) (s : State) : State :=
  set_resources (res_set k (f (res_get k (resources s))) (resources s)) s.

(** ** The engine monad *)

(** Exceptions: the two [throw new Error] of the engine, and the
    [TypeError] of a property read on [undefined]. *)
Inductive Err := TypeError | Error (msg : string).

Inductive Res (A : Type) := Ok (a : A) | Throw (e : Err).
Arguments Ok {A} a.
Arguments Throw {A} e.

(** The engine object: [this.state], [this.eventHistory], and the number
    of [Math.random] draws consumed so far. *)
Record Engine := {
  state : State;
  eventHistory : list HistoryEntry;
  drawn : nat
}.

Definition Eng (A : Type) : Type := Engine -> Res A * Engine.

#[global] Instance Res_ret : MRet Res := fun A a => Ok a.
#[global] Instance Res_bind : MBind Res := fun A B f r =>
  match r with Ok a => f a | Throw x => Throw x end.

#[global] Instance Eng_ret : MRet Eng := fun A a e => (Ok a, e).
#[global] Instance Eng_bind : MBind Eng := fun A B f m e =>
  match m e with
  | (Ok a, e') => f a e'
  | (Throw x, e') => (Throw x, e')
  end.

Definition get : Eng State := fun e => (Ok (state e), e).

Definition modify (f : State -> State) : Eng unit := fun e =>
  (Ok tt, {| state := f (state e); eventHistory := eventHistory e;
             drawn := drawn e |}).

Definition throw {A} (x : Err) : Eng A := fun e => (Throw x, e).

Definition lift {A} (r : Res A) : Eng A := fun e => (r, e).

Definition push_history (h : HistoryEntry) : Eng unit := fun e =>
  (Ok tt, {| state := state e; eventHistory := eventHistory e ++ [h];
             drawn := drawn e |}).

(** [for (const x of l) body(x)] and [l.forEach(body)]. *)
Fixpoint forEach {A} (l : list A) (body : A -> Eng unit) : Eng unit :=
  match l with
  | [] => mret tt
  | x :: l' => body x;; forEach l' body
  end.

(** The state after a computation, and its result. *)
Definition exec {A} (m : Eng A) (e : Engine) : Engine := snd (m e).
Definition result {A} (m : Eng A) (e : Engine) : Res A := fst (m e).

(** ** Array helpers *)

(** [l[i]] for a computed index: [undefined] outside the array. *)
Definition js_index {A} (l : list A) (i : Z) : option A :=
  if i <? 0 then None else l !! Z.to_nat i.

(** [Math.floor(r * n)], the index drawn from a random [r]. *)
Definition random_index (r : Q) (n : nat) : Z :=
  Qfloor (r * inject_Z (Z.of_nat n)).

(** The members of [party] satisfying [p], as references (indices): the
    result of [party.filter(p)], whose elements alias the party members. *)
Definition filter_idx (p : Member -> bool) (l : list Member) : list nat :=
  List.filter (fun i => match l !! i with Some m => p m | None => false end)
    (seq 0 (length l)).

(** [member.f = v] through a reference. *)
Definition modify_member (i : nat) (f : Member -> Member) : Eng unit :=
  modify (fun s => set_party (alter f i (party s)) s).

Definition set_doubting (b : bool) (m : Member) : Member :=
  {| m_name := m_name m; doubting := b; doubt := doubt m;
     abandoned := abandoned m; abandonReason := abandonReason m;
     m_reason := m_reason m |}.

Definition set_doubt (d : option string) (m : Member) : Member :=
  {| m_name := m_name m; doubting := doubting m; doubt := d;
     abandoned := abandoned m; abandonReason := abandonReason m;
     m_reason := m_reason m |}.

Definition set_abandoned (b : bool) (m : Member) : Member :=
  {| m_name := m_name m; doubting := doubting m; doubt := doubt m;
     abandoned := b; abandonReason := abandonReason m;
     m_reason := m_reason m |}.

Definition set_abandonReason (r : option string) (m : Member) : Member :=
  {| m_name := m_name m; doubting := doubting m; doubt := doubt m;
     abandoned := abandoned m; abandonReason := r;
     m_reason := m_reason m |}.

Definition set_m_reason (r : option string) (m : Member) : Member :=
  {| m_name := m_name m; doubting := doubting m; doubt := doubt m;
     abandoned := abandoned m; abandonReason := abandonReason m;
     m_reason := r |}.

(** ** The engine *)

(** Results of [checkLocationArrival]/[travel] ([null] is [None]). *)
Inductive ArrivalResult :=
  | Win (location : Location)
  | Arrival (location : Location).

(** Results of [checkFailConditions]; [member] is a reference to the victim. *)
Inductive FailResult :=
  | Fail (reason : string)
  | MoraleAbandonment (member : nat)
  | ParanoiaAbandonment (member : nat).

Record Consumption := {
  c_fuel : Z;
  c_food : Z;
  moraleBase : Z
}.

Record ForageResult := {
  foodFound : Z;
  moralePenalty : Z;
  fr_forageMoraleChange : Z
}.

Inductive BuyResult := ItemNotFound | NotEnoughCash | Bought.

Inductive RestResult := NotEnoughFood | Rested.

Record SaveData := {
  sd_themeName : string;
  sd_themeVersion : string;
  sd_state : State;
  (* [saveData.eventHistory || []] *)
  sd_eventHistory : option (list HistoryEntry)
}.

Definition monthDays : list Z := [31; 30; 31; 30; 31; 31; 30].

(** The [while] loop of [advanceTime]; [fuel] bounds the iterations.  The
    loop stops when [monthDays[month]] is [undefined] (the comparison with
    [undefined] is false). *)
Fixpoint advance_loop (fuel : nat) (m : nat) (d : Z) : nat * Z :=
  match fuel with
  | O => (m, d)
  | S fuel' =>
      match monthDays !! m with
      | Some len =>
          if d >? len then
            let m1 := S m in
            let m2 := if (length monthDays <=? m1)%nat then O else m1 in
            advance_loop fuel' m2 (d - len)
          else (m, d)
      | None => (m, d)
      end
  end.

(** Each iteration removes at least 30 days, so [Z.to_nat d] iterations are
    more than the loop can make (see [advance_loop_exit]). *)
Definition advance_date (m : nat) (d : Z) : nat * Z :=
  advance_loop (Z.to_nat d) m d.

Definition paranoiaReasons : list string :=
  [ "fled into the desert muttering about surveillance";
    "destroyed their phone and hitchhiked to Canada";
    "joined a commune to 'go off the grid'";
    "locked themselves in a motel room covered in tinfoil";
    "bought a one-way ticket to remote Alaska";
    "disappeared without a trace (probably witness protection)" ]%string.

(** Line terminators, which [.] does not match: line feed and carriage
    return, and the line and paragraph separators U+2028 and U+2029, which
    a string, held here in UTF-8, spells with the three bytes [E2 80 A8]
    and [E2 80 A9]. *)
Definition is_line_terminator (c : ascii) : bool :=
  bool_decide (c = "010"%char) || bool_decide (c = "013"%char).

Definition starts_with_separator (s : string) : bool :=
  match s with
  | String a (String b (String c _)) =>
      bool_decide (a = "226"%char) && bool_decide (b = "128"%char)
      && (bool_decide (c = "168"%char) || bool_decide (c = "169"%char))
  | _ => false
  end.

Fixpoint has_line_terminator (s : string) : bool :=
  match s with
  | EmptyString => false
  | String c s' =>
      is_line_terminator c || starts_with_separator s
      || has_line_terminator s'
  end.

(** [c.toLowerCase()] on an ASCII character; the bytes of a character
    outside ASCII are left as they are, so that the case of such a first
    character is not folded. *)
Definition lower_ascii (c : ascii) : ascii :=
  let n := nat_of_ascii c in
  if ((65 <=? n) && (n <=? 90))%nat then ascii_of_nat (n + 32) else c.

(** [condition.match(/^has(.+)$/)], then the captured name with its first
    character in lower case. *)
Definition has_item_name (s : string) : option string :=
  match s with
  | String "h" (String "a" (String "s" (String c rest))) =>
      if has_line_terminator (String c rest) then None
      else Some (String (lower_ascii c) rest)
  | _ => None
  end.

Section Engine.

Variable theme : Theme.

(** The stream [Math.random] draws from. *)
Variable rnd : nat -> Q.

Definition random : Eng Q := fun e =>
  (Ok (rnd (drawn e)),
   {| state := state e; eventHistory := eventHistory e;
      drawn := S (drawn e) |}).

Definition initializeGameState : State :=
  let r := th_resources theme in
  {| resources :=
       {| r_fuel := Int (startValue (t_fuel r));
          r_food := Int (startValue (t_food r));
          r_morale := Int (startValue (t_morale r));
          r_currency := Int (startValue (t_currency r));
          r_specialItem := Int (startValue (t_specialItem r)) |};
     distance := 0;
     totalDistance := j_totalDistance (journey theme);
     currentLocationIndex := 0;
     month := 5;
     day := 1;
     pace := steady;
     rations := normal;
     weather := clear;
     profession := None;
     professionModifiers := None;
     alive := true;
     party := [];
     usedEvents := [];
     forageCount := 0;
     items := ∅;
     abandonedThisTurn := [] |}.

(** [new TrailGameEngine(theme)]. *)
Definition constructor : Engine :=
  {| state := initializeGameState; eventHistory := []; drawn := 0 |}.

Definition setProfession (professionId : string) : Eng unit :=
  match List.find (fun p => bool_decide (p_id p = professionId))
          (professions theme) with
  | None => throw (Error ("Profession " +:+ professionId +:+ " not found"))
  | Some p =>
      modify (set_profession (Some professionId));;
      modify (set_professionModifiers (p_modifiers p));;
      modify (upd_res currency (fun _ => Int (startingCurrency p)))
  end.

Definition initializeParty (memberNames : list string) : Eng unit :=
  modify (set_party
    (map (fun name =>
            {| m_name := name; doubting := false; doubt := None;
               abandoned := false; abandonReason := None;
               m_reason := None |}) memberNames)).

(** [getCurrentPhase]: the first phase containing the distance, else the
    last one; [phases[phases.length - 1].name] throws on an empty table. *)
Definition getCurrentPhase (s : State) : Res string :=
  match List.find (fun ph => (startMile ph <=? distance s)
                             && (distance s <? endMile ph))
          (phases (journey theme)) with
  | Some ph => Ok (ph_name ph)
  | None =>
      match last (phases (journey theme)) with
      | Some ph => Ok (ph_name ph)
      | None => Throw TypeError
      end
  end.

Definition advanceTime (days : Z) : Eng unit :=
  modify (fun s => set_day (day s + days) s);;
  modify (fun s =>
    let md := advance_date (month s) (day s) in
    set_day (snd md) (set_month (fst md) s)).

Definition getMilesPerDay (s : State) : Z :=
  match pace s with
  | mellow => 30
  | steady => 50
  | rush => 70
  end.

(** [professionModifiers?.vibeDrainByPhase?.[getCurrentPhase()] || 5]: the
    phase is only computed when both optional links are present. *)
Definition professionMoraleDrain (s : State) : Res Z :=
  match professionModifiers s with
  | Some mods =>
      match vibeDrainByPhase mods with
      | Some tbl =>
          phase ← getCurrentPhase s;
          mret (or_default (tbl !! phase) 5)
      | None => mret 5
      end
  | None => mret 5
  end.

Definition getConsumptionRates (s : State) : Res Consumption :=
  let paceGas := match pace s with mellow => 8 | steady => 12 | rush => 18 end in
  let rationFood :=
    match rations s with bare => 4 | normal => 8 | feast => 15 end in
  drain ← professionMoraleDrain s;
  let paceModifier :=
    match pace s with rush => 3 | mellow => -2 | steady => 0 end in
  let rationModifier :=
    match rations s with bare => 2 | feast => -2 | normal => 0 end in
  let weatherModifier :=
    match weather s with bad => 8 | rain => 3 | _ => 0 end in
  let weatherFoodModifier :=
    match weather s with hot => 3 | _ => 0 end in
  mret {| c_fuel := paceGas;
          c_food := rationFood + weatherFoodModifier;
          moraleBase := drain + paceModifier + rationModifier
                        + weatherModifier |}.

(** [getProfessionBaseDrain]: [state.profession] holds the profession id (a
    string), so [profession.vibeDrainByPhase] is [undefined] and the result
    is [0] whenever the method returns. *)
Definition getProfessionBaseDrain (s : State) : Res Z :=
  match profession s with
  | None => mret 0
  | Some id =>
      if bool_decide (id = "") then mret 0
      else (_ ← getCurrentPhase s; mret 0)
  end.

Definition updateWeather : Eng unit :=
  r ← random;
  modify (set_weather
    (if Qltb r (7 # 10) then clear
     else if Qltb r (85 # 100) then rain
     else if Qltb r (95 # 100) then hot
     else bad)).

(** *** Party morale *)

Definition find_doubt (name : option string) : option Doubt :=
  match name with
  | Some n => List.find (fun d => bool_decide (d_name d = n)) (doubts theme)
  | None => None
  end.

Definition doubts_by_trigger (trigger : string) : list Doubt :=
  List.filter (fun d => bool_decide (d_trigger d = trigger)) (doubts theme).

(** The rational value of a ledger quantity, read only under a comparison
    that [NaN] fails. *)
Definition toQ (n : num) : Q :=
  match n with Int z => inject_Z z | NaN => 0 end.

(** The first assignment of [abandonChance], from [vibes]. *)
Definition vibesAbandonChance (vibes : num) : Q :=
  if leb vibes (Int 0) then 1
  else if ltb vibes (Int 30) then
    (1 # 10) + ((9 # 10) * (30 - toQ vibes) / 30)
  else if ltb vibes (Int 50) then
    (5 # 100) + ((5 # 100) * (50 - toQ vibes) / 20)
  else if ltb vibes (Int 75) then
    (5 # 100) * (75 - toQ vibes) / 25
  else 0.

Definition paranoiaAbandonChance (paranoia : num) : Q :=
  if geb paranoia (Int 100) then 1
  else if geb paranoia (Int 85) then
    (2 # 10) + ((8 # 10) * (toQ paranoia - 85) / 15)
  else if geb paranoia (Int 70) then
    (5 # 100) + ((15 # 100) * (toQ paranoia - 70) / 15)
  else 0.

(** The body of the "add doubters" loop, for [member = nonDoubting[i]]. *)
Definition promote (member : nat) : Eng unit :=
  modify_member member (set_doubting true);;
  s ← get;
  let paranoia := r_specialItem (resources s) in
  let belief := r_morale (resources s) in
  let highParanoia := geb paranoia (Int 50) in
  let lowBelief := ltb belief (Int 50) in
  availableDoubts ←
    (if highParanoia && negb lowBelief then
       mret (doubts_by_trigger "highParanoia")
     else if lowBelief && negb highParanoia then
       mret (doubts_by_trigger "lowBelief")
     else if highParanoia && lowBelief then
       r ← random;
       let useParanoiaDoubt := Qltb r (1 # 2) in
       mret (doubts_by_trigger
               (if useParanoiaDoubt then "highParanoia" else "lowBelief"))
     else mret (doubts_by_trigger "lowBelief"));
  let availableDoubts :=
    if (length availableDoubts =? 0)%nat then doubts theme
    else availableDoubts in
  r ← random;
  match js_index availableDoubts (random_index r (length availableDoubts)) with
  | Some randomDoubt =>
      modify_member member (set_doubt (Some (d_name randomDoubt)))
  | None => throw TypeError
  end.

(** The body of the "drain vibes" loop. *)
Definition drain (member : nat) : Eng unit :=
  s ← get;
  match party s !! member with
  | Some m =>
      if abandoned m || negb (doubting m) then mret tt
      else
        match find_doubt (doubt m) with
        | Some d => modify (upd_res morale (fun v => sub v (Int (moraleDrain d))))
        | None => mret tt
        end
  | None => mret tt
  end.

(** The body of the abandonment loop; [vibes] is the morale read when
    [updatePartyMorale] started.  [abandonChance] is reassigned to the
    maximum before the reason is chosen, as in the source. *)
Definition check_abandon (vibes : num) (member : nat)
    (abandonedThisTurn : list Abandonment) : Eng (list Abandonment) :=
  s ← get;
  match party s !! member with
  | Some m =>
      if abandoned m || negb (doubting m) then mret abandonedThisTurn
      else
        let abandonChance := vibesAbandonChance vibes in
        let paranoia := r_specialItem (resources s) in
        let paranoiaAbandonChance := paranoiaAbandonChance paranoia in
        let abandonChance := Qmax abandonChance paranoiaAbandonChance in
        r ← random;
        if Qltb r abandonChance then
          let d := find_doubt (doubt m) in
          modify_member member (set_abandoned true);;
          let reason :=
            if Qgtb paranoiaAbandonChance abandonChance
               && Qgtb paranoiaAbandonChance (1 # 10)
            then "became too paranoid and fled"
            else str_or (d ≫= d_abandonReason) "gave up on the trip" in
          modify_member member (set_abandonReason (Some reason));;
          mret (abandonedThisTurn
                ++ [{| ab_name := m_name m; ab_reason := reason |}])
        else mret abandonedThisTurn
  | None => mret abandonedThisTurn
  end.

(** A loop that threads a local accumulator ([abandonedThisTurn.push]). *)
Fixpoint foldEach {A B} (l : list A) (acc : B) (body : A -> B -> Eng B)
    : Eng B :=
  match l with
  | [] => mret acc
  | x :: l' => acc' ← body x acc; foldEach l' acc' body
  end.

Definition targetDoubters (vibes : num) : nat :=
  let target := 0%nat in
  let target := if ltb vibes (Int 75) then 1%nat else target in
  let target := if ltb vibes (Int 50) then 2%nat else target in
  let target := if ltb vibes (Int 30) then 3%nat else target in
  target.

Definition updatePartyMorale : Eng (list Abandonment) :=
  s ← get;
  let vibes := r_morale (resources s) in
  let targetDoubters := targetDoubters vibes in
  let currentDoubters :=
    length (filter_idx (fun m => negb (abandoned m) && doubting m) (party s)) in
  let nonAbandonedParty := filter_idx (fun m => negb (abandoned m)) (party s) in
  (if (currentDoubters <? targetDoubters)%nat then
     let nonDoubting :=
       List.filter (fun i => match party s !! i with
                             | Some m => negb (doubting m)
                             | None => false
                             end) nonAbandonedParty in
     let toDoubt := (targetDoubters - currentDoubters)%nat in
     forEach (take toDoubt nonDoubting) promote
   else mret tt);;
  (if gtb vibes (Int 75) && (0 <? currentDoubters)%nat then
     forEach nonAbandonedParty (fun member =>
       s ← get;
       match party s !! member with
       | Some m =>
           if doubting m then
             modify_member member (set_doubting false);;
             modify_member member (set_doubt None)
           else mret tt
       | None => mret tt
       end)
   else mret tt);;
  s ← get;
  forEach (seq 0 (length (party s))) drain;;
  foldEach (seq 0 (length (party s))) [] (check_abandon vibes).

(** *** Journey progression *)

Definition landmark_boost (loc : Location) : option Z :=
  if hasLandmark loc then
    match landmarkData loc with
    | Some lm => if truthy (moraleBoost lm) then moraleBoost lm else None
    | None => None
    end
  else None.

Definition checkLocationArrival : Eng (option ArrivalResult) :=
  s ← get;
  match locations theme !! (currentLocationIndex s + 1)%nat with
  | Some nextLoc =>
      if distance s >=? loc_distance nextLoc then
        modify (fun s => set_currentLocationIndex (S (currentLocationIndex s)) s);;
        modify (set_forageCount 0);;
        match landmark_boost nextLoc with
        | Some boost =>
            modify (upd_res morale (fun v =>
              min (of_undef (rc_max (t_morale (th_resources theme))))
                  (add v (Int boost))))
        | None => mret tt
        end;;
        if bool_decide (loc_name nextLoc = endLocation (journey theme)) then
          modify (set_alive false);;
          mret (Some (Win nextLoc))
        else mret (Some (Arrival nextLoc))
      else mret None
  | None => mret None
  end.

(** *** Travel for one day *)

Definition travel : Eng (option ArrivalResult) :=
  s ← get;
  let miles := getMilesPerDay s in
  consumption ← lift (getConsumptionRates s);
  modify (fun s => set_distance (distance s + miles) s);;
  advanceTime 1;;
  modify (upd_res fuel (fun v => sub v (Int (c_fuel consumption))));;
  (if bool_decide (rc_name (t_food (th_resources theme)) ≠ "Evidence") then
     modify (upd_res food (fun v => sub v (Int (c_food consumption))))
   else mret tt);;
  s ← get;
  (if gtb (r_specialItem (resources s)) (Int 0) then
     modify (upd_res specialItem (fun v => sub v (Int 2)));;
     s ← get;
     (if ltb (r_specialItem (resources s)) (Int 0) then
        modify (upd_res specialItem (fun _ => Int 0))
      else mret tt);;
     s ← get;
     base ← lift (getProfessionBaseDrain s);
     let minimalDrain := moraleBase consumption - base in
     modify (upd_res morale (fun v => sub v (Int (Z.max 0 minimalDrain))))
   else
     modify (upd_res morale (fun v => sub v (Int (moraleBase consumption)))));;
  updateWeather;;
  abandonedMembers ← updatePartyMorale;
  modify (set_abandonedThisTurn abandonedMembers);;
  checkLocationArrival.

(** *** Random events *)

(** [checkEventCondition]: a function is called on the state; a string
    [has<Item>] is looked up in [state.items], own entries first and then
    what the object inherits; anything else passes. *)
Definition checkEventCondition (s : State) (condition : Condition) : bool :=
  match condition with
  | CondFn f => f s
  | CondStr str =>
      match has_item_name str with
      | Some itemName => item_present (items s) itemName
      | None => true
      end
  | CondOther => true
  end.

(** [!event.condition]: a missing condition and the empty string are
    falsy. *)
Definition condition_falsy (c : option Condition) : bool :=
  match c with
  | None => true
  | Some (CondStr str) => bool_decide (str = "")
  | Some _ => false
  end.

(** The filter of [getRandomEvent] on conditions. *)
Definition condition_passes (s : State) (event : Event) : bool :=
  if condition_falsy (ev_condition event) then true
  else
    match ev_condition event with
    | Some c => checkEventCondition s c
    | None => true
    end.

Definition eventKey (event : Event) : string :=
  str_or (ev_id event) (ev_text event).

Definition includes (l : list string) (k : string) : bool :=
  existsb (fun x => bool_decide (x = k)) l.

Definition weight_of (event : Event) : Q := Qor_default (ev_weight event) 1.

Definition set_weight (w : Q) (event : Event) : Event :=
  {| ev_id := ev_id event; ev_text := ev_text event;
     ev_condition := ev_condition event; copEvent := copEvent event;
     ev_weight := Some w; ev_effects := ev_effects event |}.

(** The weighted selection loop: the first event at which the remainder
    drops to [0] or below, if there is one.  The remainder is a rational
    here and a binary64 number in the code, where rounding can leave it
    just above [0] after the last event although the draw was below the
    total weight; [getRandomEvent] covers a loop that selects nothing
    with its last line. *)
Fixpoint pick_weighted (random : Q) (l : list Event) : option Event :=
  match l with
  | [] => None
  | event :: l' =>
      let random := (random - weight_of event)%Q in
      if Qle_bool random 0 then Some event else pick_weighted random l'
  end.

(** [theme.events[phase] || []], for a phase that names a pool or nothing:
    the lookup is among the event pools only, so a phase called [doubts]
    (the doubt catalog lives under [theme.events] too) or called like a
    member of [Object.prototype] is read as a phase without events. *)
Definition pool (phase : string) : list Event :=
  default [] (th_events theme !! phase).

Definition getRandomEvent : Eng (option Event) :=
  s ← get;
  phase ← lift (getCurrentPhase s);
  let eventPool := pool phase in
  let eventPool :=
    if (length eventPool =? 0)%nat
    then pool "early" ++ pool "middle" ++ pool "late"
    else eventPool in
  let availableEvents :=
    List.filter (fun event => negb (includes (usedEvents s) (eventKey event)))
      eventPool in
  let availableEvents :=
    if (length availableEvents =? 0)%nat then eventPool
    else availableEvents in
  let availableEvents := List.filter (condition_passes s) availableEvents in
  let copTargetChance :=
    Qor_default (professionModifiers s ≫= antagonistTargetChance) 0 in
  let availableEvents :=
    if Qgtb copTargetChance 0 then
      map (fun event =>
             if copEvent event
             then set_weight (weight_of event * (1 + copTargetChance)) event
             else event) availableEvents
    else availableEvents in
  if (length availableEvents =? 0)%nat then mret None
  else
    let totalWeight :=
      fold_left (fun sum e => (sum + weight_of e)%Q) availableEvents 0%Q in
    r ← random;
    let random := (r * totalWeight)%Q in
    match pick_weighted random availableEvents with
    | Some event =>
        modify (fun s => set_usedEvents (usedEvents s ++ [eventKey event]) s);;
        s ← get;
        push_history {| h_event := event; h_month := month s;
                        h_day := day s |};;
        mret (Some event)
    | None => mret (head availableEvents)
    end.

(** *** Effects *)

Definition resourceKeys : list ResKey :=
  [fuel; food; morale; currency; specialItem].

(** The body of the first loop of [applyEffects], for one [key: value]. *)
Definition apply_effect (kv : string * Z) : Eng unit :=
  let key := fst kv in
  let value := snd kv in
  if bool_decide (key = "distance") then
    modify (fun s => set_distance (distance s + value) s)
  else if bool_decide (key = "days") then
    advanceTime value
  else
    match res_of_key key with
    | Some k =>
        modify (upd_res k (fun v => add v (Int value)));;
        let resourceConfig := res_config k (th_resources theme) in
        if truthy (rc_max resourceConfig) then
          modify (upd_res k (fun v => min (of_undef (rc_max resourceConfig)) v))
        else mret tt
    | None => mret tt
    end.

(** [applyEffects(effects)]; [None] is a missing effect map, and the list
    holds the entries in [Object.keys] order. *)
Definition applyEffects (effects : option (list (string * Z))) : Eng unit :=
  match effects with
  | None => mret tt
  | Some effects =>
      forEach effects apply_effect;;
      forEach resourceKeys (fun key =>
        if bool_decide (key ≠ currency) then
          modify (upd_res key (fun v => max (Int 0) v))
        else mret tt)
  end.

(** *** Fail conditions *)

Definition time_expired (s : State) : bool :=
  match mystery theme with
  | Some my =>
      my_enabled my
      && match timeLimit my with
         | Some limit => day s >? limit
         | None => false
         end
  | None => false
  end.

Definition checkFailConditions : Eng (option FailResult) :=
  s ← get;
  let allAbandoned := forallb abandoned (party s) in
  if allAbandoned then
    modify (set_alive false);; mret (Some (Fail "allAbandoned"))
  else if leb (r_fuel (resources s)) (Int 0) then
    modify (set_alive false);; mret (Some (Fail "noFuel"))
  else if leb (r_food (resources s)) (Int (-20)) then
    modify (set_alive false);; mret (Some (Fail "starved"))
  else if time_expired s then
    modify (set_alive false);; mret (Some (Fail "timeExpired"))
  else
    let stillHere := filter_idx (fun m => negb (abandoned m)) (party s) in
    if leb (r_morale (resources s)) (Int 0)
       && (0 <? length stillHere)%nat then
      r ← random;
      match js_index stillHere (random_index r (length stillHere)) with
      | Some victim =>
          modify_member victim (set_abandoned true);;
          modify (upd_res morale (fun _ => Int 20));;
          mret (Some (MoraleAbandonment victim))
      | None => throw TypeError
      end
    else if bool_decide (rc_name (t_specialItem (th_resources theme)) = "Paranoia")
            && geb (r_specialItem (resources s)) (Int 100)
            && (0 <? length stillHere)%nat then
      r ← random;
      match js_index stillHere (random_index r (length stillHere)) with
      | Some victim =>
          modify_member victim (set_abandoned true);;
          r' ← random;
          modify_member victim (set_m_reason
            (js_index paranoiaReasons
               (random_index r' (length paranoiaReasons))));;
          modify (upd_res specialItem (fun _ => Int 80));;
          mret (Some (ParanoiaAbandonment victim))
      | None => throw TypeError
      end
    else mret None.

(** *** Forage, shop, rest *)

Definition forage : Eng ForageResult :=
  s ← get;
  let forageBonus := Qor_default (professionModifiers s ≫= forageBonus) 0 in
  let forageMoraleChange :=
    or_default (professionModifiers s ≫= forageMoraleChange) 0 in
  r ← random;
  let foodFound := Qfloor (r * 15) + 10 in
  let foodFound := Qfloor (inject_Z foodFound * (1 + forageBonus)) in
  let moralePenalty :=
    match forageCount s with
    | O => 0
    | S O => -5
    | _ => -10
    end in
  modify (upd_res food (fun v =>
    min (of_undef (rc_max (t_food (th_resources theme))))
        (add v (Int foodFound))));;
  modify (upd_res morale (fun v =>
    add v (Int (forageMoraleChange + moralePenalty))));;
  modify (fun s => set_forageCount (S (forageCount s)) s);;
  mret {| foodFound := foodFound; moralePenalty := moralePenalty;
          fr_forageMoraleChange := forageMoraleChange |}.

(** [state.items.parts || 0], as a number: the count, [1] for [true]. *)
Definition parts_owned (items : gmap string ItemVal) : Z :=
  match items !! "parts" with
  | Some (ItemCount n) => n
  | Some (ItemFlag true) => 1
  | _ => 0
  end.

(** The resource a shop item of this type refills. *)
Definition item_resource (type : string) : option ResKey :=
  if bool_decide (type = "fuel") then Some fuel
  else if bool_decide (type = "food") then Some food
  else if bool_decide (type = "specialItem") then Some specialItem
  else if bool_decide (type = "morale") then Some morale
  else None.

Definition buyItem (itemId : string) : Eng BuyResult :=
  match shop theme with
  | None => throw TypeError
  | Some onSale =>
  match List.find (fun i => bool_decide (i_id i = itemId)) onSale with
  | None => mret ItemNotFound
  | Some item =>
      s ← get;
      if ltb (r_currency (resources s)) (Int (i_cost item)) then
        mret NotEnoughCash
      else
        modify (upd_res currency (fun v => sub v (Int (i_cost item))));;
        match item_resource (i_type item) with
        | Some resourceKey =>
            let max_ := of_undef (rc_max (res_config resourceKey
                                            (th_resources theme))) in
            modify (upd_res resourceKey (fun v =>
              let newValue := add v (Int (i_amount item)) in
              max (Int 0) (min max_ newValue)))
        | None =>
            if bool_decide (i_type item = "parts") then
              modify (fun s =>
                set_items (<["parts" := ItemCount (parts_owned (items s)
                                                   + i_amount item)]>
                             (items s)) s)
            else if bool_decide (i_type item = "guitar") then
              modify (fun s =>
                set_items (<["guitar" := ItemFlag true]> (items s)) s);;
              modify (upd_res morale (fun _ =>
                min (of_undef (rc_max (t_morale (th_resources theme))))
                    (Int 100)))
            else mret tt
        end;;
        mret Bought
  end
  end.

Definition rest (days : Z) : Eng RestResult :=
  let foodCost := 10 in
  s ← get;
  if ltb (r_food (resources s)) (Int foodCost) then mret NotEnoughFood
  else
    modify (upd_res food (fun v => sub v (Int foodCost)));;
    advanceTime days;;
    s ← get;
    (if gtb (r_morale (resources s)) (Int 60) then
       forEach (seq 0 (length (party s))) (fun member =>
         modify_member member (set_doubting false);;
         modify_member member (set_doubt None))
     else mret tt);;
    mret Rested.

(** *** Loading a snapshot *)

(** [loadGame] takes the state and the event history from the snapshot as
    they are at the time of the call. *)
Definition loadGame (saveData : SaveData) : Eng unit :=
  if bool_decide (sd_themeName saveData ≠ th_name theme) then
    throw (Error "Save file is for a different theme")
  else
    fun e =>
      (Ok tt, {| state := sd_state saveData;
                 eventHistory := default [] (sd_eventHistory saveData);
                 drawn := drawn e |}).

End Engine.

(** * Specification vocabulary *)

Arguments exec {A} m e /.
Arguments result {A} m e /.

(** [inv I m]: the state predicate [I] survives [m], whether [m] returns or
    throws. *)
Definition inv {A} (I : State -> Prop) (m : Eng A) : Prop :=
  forall e, I (state e) -> I (state (snd (m e))).

(** The engine operations that act on an existing game.  The set-up
    methods ([setProfession], [initializeParty]) and [loadGame], which
    install a new roster or a whole new state, are not among them. *)
Inductive Op :=
  | OpTravel
  | OpApplyEffects (effects : option (list (string * Z)))
  | OpForage
  | OpRest (days : Z)
  | OpBuyItem (itemId : string)
  | OpCheckLocationArrival
  | OpCheckFailConditions
  | OpGetRandomEvent
  | OpUpdatePartyMorale
  | OpUpdateWeather
  | OpAdvanceTime (days : Z).

Section Runs.

Variable theme : Theme.
Variable rnd : nat -> Q.

Definition discard {A} (m : Eng A) : Eng unit := _ ← m; mret tt.

Definition run (op : Op) : Eng unit :=
  match op with
  | OpTravel => discard (travel theme rnd)
  | OpApplyEffects effects => applyEffects theme effects
  | OpForage => discard (forage theme rnd)
  | OpRest days => discard (rest days)
  | OpBuyItem itemId => discard (buyItem theme itemId)
  | OpCheckLocationArrival => discard (checkLocationArrival theme)
  | OpCheckFailConditions => discard (checkFailConditions theme rnd)
  | OpGetRandomEvent => discard (getRandomEvent theme rnd)
  | OpUpdatePartyMorale => discard (updatePartyMorale theme rnd)
  | OpUpdateWeather => updateWeather rnd
  | OpAdvanceTime days => advanceTime days
  end.

(** A caller running operations one after the other, going on after an
    exception. *)
Definition run_all (ops : list Op) (e : Engine) : Engine :=
  fold_left (fun e op => exec (run op) e) ops e.

End Runs.

(** One-way abandonment: a member who has abandoned stays so, and is not
    made doubting again. *)
Definition member_le (m m' : Member) : Prop :=
  m_name m' = m_name m
  /\ (abandoned m = true ->
      abandoned m' = true /\ (doubting m' = true -> doubting m = true)).

Definition party_le (s s' : State) : Prop :=
  Forall2 member_le (party s) (party s').

(** Journey progress never goes back: the location index grows and stays
    an index of [theme.locations]; the distance grows. *)
Definition index_le (theme : Theme) (s s' : State) : Prop :=
  (currentLocationIndex s <= currentLocationIndex s')%nat
  /\ ((currentLocationIndex s < length (locations theme))%nat ->
      (currentLocationIndex s' < length (locations theme))%nat).

Definition distance_le (s s' : State) : Prop := distance s <= distance s'.

(** The sum of the [distance] entries of an effect map. *)
Definition effect_distance (effects : list (string * Z)) : Z :=
  fold_right (fun kv acc =>
    if bool_decide (fst kv = "distance") then snd kv + acc else acc)
    0 effects.

(** Operations that do not move the distance backwards: all of them,
    except [applyEffects] with a negative [distance] entry. *)
Definition forward (op : Op) : Prop :=
  match op with
  | OpApplyEffects (Some effects) =>
      Forall (fun kv => fst kv = "distance" -> 0 <= snd kv) effects
  | _ => True
  end.

(** The engine after [this.state = s]. *)
Definition with_state (s : State) (e : Engine) : Engine :=
  {| state := s; eventHistory := eventHistory e; drawn := drawn e |}.

(** What [updateWeather], [updatePartyMorale] and [checkLocationArrival]
    leave alone: the second half of [travel] touches only the weather, the
    roster, morale, specialItem and the arrival bookkeeping. *)
Record TravelFrame := {
  f_distance : Z;
  f_month : nat;
  f_day : Z;
  f_pace : Pace;
  f_rations : Rations;
  f_fuel : num;
  f_food : num
}.

Definition travel_frame (s : State) : TravelFrame :=
  {| f_distance := distance s; f_month := month s; f_day := day s;
     f_pace := pace s; f_rations := rations s;
     f_fuel := r_fuel (resources s); f_food := r_food (resources s) |}.

(** Calendar dates, and the day number within the 214-day cycle of the
    seven-month table. *)
Definition valid_date (m : nat) (d : Z) : Prop :=
  exists len, monthDays !! m = Some len /\ 1 <= d <= len.

Definition day_of_cycle (m : nat) (d : Z) : Z :=
  fold_right Z.add 0 (take m monthDays) + d.

Definition cycle_length : Z := fold_right Z.add 0 monthDays.

(** [n] consecutive [travel()] calls. *)
Fixpoint travel_n (theme : Theme) (rnd : nat -> Q) (n : nat) (e : Engine)
    : Engine :=
  match n with
  | O => e
  | S n' => travel_n theme rnd n' (exec (travel theme rnd) e)
  end.

(** The bounds of a resource: a number in [[0, max]], or in [[0, ∞)] when
    the theme configures no [max]. *)
Definition in_bounds (cfg : ResourceConfig) (v : num) : Prop :=
  match v with
  | Int z => 0 <= z /\ (forall m, rc_max cfg = Some m -> z <= m)
  | NaN => False
  end.

Definition within_bounds (theme : Theme) (s : State) : Prop :=
  forall k, k <> currency ->
    in_bounds (res_config k (th_resources theme)) (res_get k (resources s)).

(** The upper half of the bounds, which the first loop of [applyEffects]
    maintains entry by entry. *)
Definition capped (theme : Theme) (r : Resources) : Prop :=
  forall k, k <> currency ->
    match res_get k r with
    | Int z => forall m, rc_max (res_config k (th_resources theme)) = Some m
                         -> z <= m
    | NaN => False
    end.

(** Themes whose configured maxima are positive. *)
Definition caps_positive (theme : Theme) : Prop :=
  forall k m, k <> currency ->
    rc_max (res_config k (th_resources theme)) = Some m -> 0 < m.

(** The start values of the theme lie within the bounds. *)
Definition start_in_bounds (theme : Theme) : Prop :=
  forall k, k <> currency ->
    in_bounds (res_config k (th_resources theme))
      (Int (startValue (res_config k (th_resources theme)))).

(** The operations that clamp, and what they need from the theme:
    [buyItem] reads [max] unguarded, and [checkFailConditions] resets
    morale to 20 and paranoia to 80.  [travel], [forage], the party update
    and the arrival check subtract or add without clamping. *)
Definition clamped (theme : Theme) (op : Op) : Prop :=
  match op with
  | OpApplyEffects _ | OpRest _ | OpGetRandomEvent | OpUpdateWeather
  | OpAdvanceTime _ => True
  | OpBuyItem _ =>
      forall k, k <> currency ->
        is_Some (rc_max (res_config k (th_resources theme)))
  | OpCheckFailConditions =>
      (forall m, rc_max (t_morale (th_resources theme)) = Some m -> 20 <= m)
      /\ (rc_name (t_specialItem (th_resources theme)) = "Paranoia" ->
          forall m, rc_max (t_specialItem (th_resources theme)) = Some m ->
                    80 <= m)
  | OpTravel | OpForage | OpUpdatePartyMorale | OpCheckLocationArrival =>
      False
  end.

(** * Example themes and games *)

Module Examples.

Definition resource (name : string) (start : Z) (cap : option Z)
    : ResourceConfig :=
  {| rc_name := name; startValue := start; rc_max := cap |}.

Definition event (id : string) (cond : option Condition) (cop : bool)
    (w : option Q) (effects : list (string * Z)) : Event :=
  {| ev_id := Some id; ev_text := id; ev_condition := cond; copEvent := cop;
     ev_weight := w; ev_effects := effects |}.

Definition three_phases : list Phase :=
  [ {| ph_name := "early"; startMile := 0; endMile := 300 |};
    {| ph_name := "middle"; startMile := 300; endMile := 700 |};
    {| ph_name := "late"; startMile := 700; endMile := 1000 |} ].

Definition place (name : string) (d : Z) (boost : option Z) : Location :=
  {| loc_name := name; loc_distance := d;
     hasLandmark := match boost with Some _ => true | None => false end;
     landmarkData := match boost with
                     | Some b => Some {| moraleBoost := Some b |}
                     | None => None
                     end |}.

Definition blogger : ProfessionSpec :=
  {| p_id := "blogger";
     p_modifiers := Some
       {| vibeDrainByPhase :=
            Some (<["early" := 4]> (<["middle" := 6]> (<["late" := 8]> ∅)));
          antagonistTargetChance := Some (1 # 2);
          forageBonus := Some (1 # 5);
          forageMoraleChange := Some 2 |};
     startingCurrency := 200 |}.

(** A paranoia-style theme: the food resource is the accumulating
    "Evidence", the special item is "Paranoia". *)
Definition roswell : Theme :=
  {| th_name := "Roswell Trail";
     th_version := "1.0";
     th_resources :=
       {| t_fuel := resource "Gas" 100 (Some 100);
          t_food := resource "Evidence" 10 (Some 100);
          t_morale := resource "Belief" 80 (Some 100);
          t_currency := resource "Cash" 0 None;
          t_specialItem := resource "Paranoia" 20 (Some 100) |};
     professions := [blogger];
     journey := {| j_totalDistance := 1000; phases := three_phases;
                   endLocation := "Area 51" |};
     locations := [ place "Roswell" 0 None; place "Socorro" 50 (Some 10);
                    place "Area 51" 100 None ];
     th_events :=
       <["early" :=
           [ event "radio-static" None false None [("morale", -5)];
             event "black-sedan" None true (Some (2 # 1)) [("specialItem", 10)];
             {| ev_id := Some "campfire-song"; ev_text := "campfire-song";
                ev_condition := Some (CondStr "hasGuitar");
                copEvent := false; ev_weight := None;
                ev_effects := [("morale", 10)] |} ]]>
       (<["middle" := []]> (<["late" := []]> ∅));
     doubts :=
       [ {| d_name := "homesick"; d_trigger := "lowBelief"; moraleDrain := 2;
            d_abandonReason := Some "went back home" |};
         {| d_name := "watched"; d_trigger := "highParanoia"; moraleDrain := 3;
            d_abandonReason := None |} ];
     shop := Some
       [ {| i_id := "gas-can"; i_name := "Gas can"; i_cost := 20;
            i_type := "fuel"; i_amount := 30 |};
         {| i_id := "guitar"; i_name := "Guitar"; i_cost := 50;
            i_type := "guitar"; i_amount := 0 |} ];
     mystery := Some {| my_enabled := true; timeLimit := Some 30 |} |}.

(** An ordinary theme: real food, herbs as the special item. *)
Definition norcal : Theme :=
  {| th_name := "NorCal Trail";
     th_version := "1.0";
     th_resources :=
       {| t_fuel := resource "Gas" 100 (Some 100);
          t_food := resource "Food" 60 (Some 100);
          t_morale := resource "Vibes" 80 (Some 100);
          t_currency := resource "Cash" 0 None;
          t_specialItem := resource "Herbs" 10 (Some 50) |};
     professions := [blogger];
     journey := {| j_totalDistance := 1000; phases := three_phases;
                   endLocation := "Arcata" |};
     locations := [ place "San Francisco" 0 None; place "Ukiah" 120 (Some 5);
                    place "Arcata" 280 None ];
     th_events := th_events roswell;
     doubts := doubts roswell;
     shop := shop roswell;
     mystery := None |}.

(** A stream of draws: 1/2, 1/4, 3/4, 1/2, ... *)
Definition draws (n : nat) : Q :=
  match (n mod 3)%nat with
  | O => 1 # 2
  | S O => 1 # 4
  | _ => 3 # 4
  end.

(** A game on [theme] with the blogger and a party of three. *)
Definition new_game (theme : Theme) : Engine :=
  exec (initializeParty ["Ann"; "Bob"; "Cy"])
    (exec (setProfession theme "blogger") (constructor theme)).

(** The same game after the first member has abandoned. *)
Definition game_without_ann (theme : Theme) : Engine :=
  exec (modify_member 0 (set_abandoned true)) (new_game theme).

(** A game whose morale has run out. *)
Definition low_morale_game (theme : Theme) : Engine :=
  exec (modify (upd_res morale (fun _ => Int 0))) (new_game theme).

(** The specification's scenario: 5 units of fuel left, at rush pace. *)
Definition rushed_game (theme : Theme) : Engine :=
  exec (modify (set_pace rush))
    (exec (modify (upd_res fuel (fun _ => Int 5))) (new_game theme)).

(** A game that has foraged twice at the same place, with little morale. *)
Definition overforaged_game (theme : Theme) : Engine :=
  exec (modify (set_forageCount 2))
    (exec (modify (upd_res morale (fun _ => Int 5))) (new_game theme)).

(** A game after the guitar was bought, and a stream of high draws. *)
Definition game_with_guitar (theme : Theme) : Engine :=
  exec (buyItem theme "guitar") (new_game theme).

Definition high_draws (n : nat) : Q := 9 # 10.

Definition campfire_song : Event :=
  event "campfire-song" (Some (CondStr "hasGuitar")) false None
    [("morale", 10)].

(** A game in full paranoia (100) with morale still at 74, where the first
    member doubts because she feels watched. *)
Definition panicked_game (theme : Theme) : Engine :=
  exec (modify_member 0 (set_doubt (Some "watched")))
    (exec (modify_member 0 (set_doubting true))
       (exec (modify (upd_res specialItem (fun _ => Int 100)))
          (exec (modify (upd_res morale (fun _ => Int 74)))
             (new_game theme)))).

(** Shop and event play, which clamps. *)
Definition a_shopping_trip : list Op :=
  [OpApplyEffects (Some [("morale", 50); ("fuel", -500)]);
   OpBuyItem "gas-can"; OpRest 2; OpCheckFailConditions;
   OpApplyEffects (Some [("food", 7); ("specialItem", 200)])].

(** A day of play. *)
Definition a_day : list Op :=
  [OpTravel; OpApplyEffects (Some [("distance", 40)]);
   OpCheckLocationArrival; OpForage].

End Examples.

(** ** Further engine methods and vocabulary *)

(** [getCurrentLocation()]: [theme.locations[currentLocationIndex]]. *)
Definition getCurrentLocation (theme : Theme) (s : State) : option Location :=
  locations theme !! currentLocationIndex s.

(** The keys [applyEffects] acts on. *)
Definition recognised (key : string) : bool :=
  bool_decide (key = "distance") || bool_decide (key = "days")
  || match res_of_key key with Some _ => true | None => false end.

(** The ledger after the second loop of [applyEffects]: every resource but
    the currency is raised to 0 if it was below. *)
Definition clamp_resources (r : Resources) : Resources :=
  {| r_fuel := max (Int 0) (r_fuel r);
     r_food := max (Int 0) (r_food r);
     r_morale := max (Int 0) (r_morale r);
     r_currency := r_currency r;
     r_specialItem := max (Int 0) (r_specialItem r) |}.

(** The upper-case letter of a lower-case ASCII letter. *)
Definition upper_ascii (c : ascii) : ascii :=
  let n := nat_of_ascii c in
  if ((97 <=? n) && (n <=? 122))%nat then ascii_of_nat (n - 32) else c.

Definition is_lower (c : ascii) : bool :=
  let n := nat_of_ascii c in ((97 <=? n) && (n <=? 122))%nat.

(** [returns m]: [m] never throws. *)
Definition returns {A} (m : Eng A) : Prop :=
  forall e, exists a e', m e = (Ok a, e').

(** Themes complete enough for the engine: a phase table and a doubt
    catalog that are not empty, and a shop. *)
Definition well_formed (theme : Theme) : Prop :=
  phases (journey theme) <> [] /\ doubts theme <> [] /\ shop theme <> None.

(** Streams of draws in [[0, 1)], as [Math.random] gives. *)
Definition unit_draws (rnd : nat -> Q) : Prop :=
  forall n, (0 <= rnd n < 1)%Q.

(** A theme like [Examples.roswell] whose doubt catalog is empty. *)
Definition doubtless : Theme :=
  {| th_name := "Doubtless Trail";
     th_version := th_version Examples.roswell;
     th_resources := th_resources Examples.roswell;
     professions := professions Examples.roswell;
     journey := journey Examples.roswell;
     locations := locations Examples.roswell;
     th_events := th_events Examples.roswell;
     doubts := [];
     shop := shop Examples.roswell;
     mystery := mystery Examples.roswell |}.

(** What the daily update does to a member when morale is above 75: an
    active doubter is cured, everybody else is left alone. *)
Definition cure (m : Member) : Member :=
  if negb (abandoned m) && doubting m
  then set_doubt None (set_doubting false m)
  else m.

(** Curing a doubter, as the loop body of the daily update does it through
    a reference. *)
Definition cure_doubter (m : Member) : Member :=
  if doubting m then set_doubt None (set_doubting false m) else m.


(** What a rest with morale above 60 does to every member, abandoned or
    not: the doubting flag and the doubt are cleared. *)
Definition relieve (m : Member) : Member :=
  set_doubt None (set_doubting false m).

(** A game out of fuel whose morale has run out as well. *)
Definition stranded_game (theme : Theme) : Engine :=
  exec (modify (upd_res fuel (fun _ => Int 0))) (Examples.low_morale_game theme).

(** * Reasoning about engine computations *)

Section InvRules.

Context (I : State -> Prop).

Lemma inv_ret {A} (a : A) : inv I (mret a).
Proof. intros e H; exact H. Qed.

Lemma inv_get : inv I get.
Proof. intros e H; exact H. Qed.

Lemma inv_throw {A} (x : Err) : inv I (throw (A := A) x).
Proof. intros e H; exact H. Qed.

Lemma inv_lift {A} (r : Res A) : inv I (lift r).
Proof. intros e H; exact H. Qed.

Lemma inv_random rnd : inv I (random rnd).
Proof. intros e H; exact H. Qed.

Lemma inv_push_history h : inv I (push_history h).
Proof. intros e H; exact H. Qed.

Lemma inv_modify (f : State -> State) :
  (forall s, I s -> I (f s)) -> inv I (modify f).
Proof. intros Hf e H; apply Hf, H. Qed.

Lemma inv_bind {A B} (m : Eng A) (f : A -> Eng B) :
  inv I m -> (forall a, inv I (f a)) -> inv I (m ≫= f).
Proof.
  intros Hm Hf e H. unfold mbind, Eng_bind.
  specialize (Hm e H). destruct (m e) as [[a|x] e']; simpl in *.
  - apply Hf, Hm.
  - exact Hm.
Qed.

(** The state read by [get] satisfies the invariant. *)
Lemma inv_get_bind {B} (f : State -> Eng B) :
  (forall s, I s -> inv I (f s)) -> inv I (get ≫= f).
Proof. intros Hf e H. unfold mbind, Eng_bind, get. apply Hf; exact H. Qed.

Lemma inv_forEach {A} (l : list A) (body : A -> Eng unit) :
  (forall x, In x l -> inv I (body x)) -> inv I (forEach l body).
Proof.
  induction l as [|x l IH]; intros Hb; simpl.
  - apply inv_ret.
  - apply inv_bind.
    + apply Hb; now left.
    + intros _. apply IH. intros y Hy. apply Hb; now right.
Qed.

Lemma inv_foldEach {A B} (l : list A) (acc : B) (body : A -> B -> Eng B) :
  (forall x b, In x l -> inv I (body x b)) -> inv I (foldEach l acc body).
Proof.
  revert acc. induction l as [|x l IH]; intros acc Hb; simpl.
  - apply inv_ret.
  - apply inv_bind.
    + apply Hb; now left.
    + intros acc'. apply IH. intros y b Hy. apply Hb; now right.
Qed.

End InvRules.

(** Walks through the structure of a computation, leaving one goal per
    state update. *)
Create HintDb invdb.
Create HintDb harmless.

Ltac inv_step :=
  first [ solve [ auto 2 with nocore invdb ] | idtac ];
  lazymatch goal with
  | |- inv _ (mbind _ get) => apply inv_get_bind; intros ? ?
  | |- inv _ (mbind _ _) => apply inv_bind; [ | intros ? ]
  | |- inv _ (mret _) => apply inv_ret
  | |- inv _ get => apply inv_get
  | |- inv _ (throw _) => apply inv_throw
  | |- inv _ (lift _) => apply inv_lift
  | |- inv _ (random _) => apply inv_random
  | |- inv _ (push_history _) => apply inv_push_history
  | |- inv _ (forEach _ _) => apply inv_forEach; intros ? ?
  | |- inv _ (foldEach _ _ _) => apply inv_foldEach; intros ? ? ?
  | |- inv _ (modify_member _ _) => unfold modify_member
  | |- inv _ (advanceTime _) => unfold advanceTime
  | |- inv _ (modify _) => apply inv_modify; intros ? ?
  | |- inv _ (if ?b then _ else _) => destruct b eqn:?
  | |- inv _ (match ?x with _ => _ end) => destruct x eqn:?
  | |- inv _ (let _ := _ in _) => cbv zeta
  end.

Ltac inv_walk := repeat inv_step.

(** * Abandonment is one-way *)

#[global] Instance member_le_preorder : PreOrder member_le.
Proof.
  split.
  - intros m; split; [reflexivity | tauto].
  - intros a b c [Hn1 H1] [Hn2 H2]; split; [congruence | ].
    intros Ha. destruct (H1 Ha) as [Hb Hd1]. destruct (H2 Hb) as [Hc Hd2].
    tauto.
Qed.

#[global] Instance party_le_preorder : PreOrder party_le.
Proof.
  unfold party_le; split.
  - intros s; reflexivity.
  - intros a b c H1 H2; etransitivity; eassumption.
Qed.

(** Updates of a member that respect [member_le] whatever the member. *)
Definition harmless (g : Member -> Member) : Prop :=
  forall m, member_le m (g m).

Lemma harmless_unset_doubting : harmless (set_doubting false).
Proof. intros m; split; simpl; [reflexivity | intros; split; [assumption | discriminate]]. Qed.

Lemma harmless_set_doubt d : harmless (set_doubt d).
Proof. intros m; split; simpl; [reflexivity | tauto]. Qed.

Lemma harmless_set_abandoned : harmless (set_abandoned true).
Proof. intros m; split; simpl; [reflexivity | tauto]. Qed.

Lemma harmless_set_abandonReason r : harmless (set_abandonReason r).
Proof. intros m; split; simpl; [reflexivity | tauto]. Qed.

Lemma harmless_set_m_reason r : harmless (set_m_reason r).
Proof. intros m; split; simpl; [reflexivity | tauto]. Qed.

Lemma party_le_alter s0 s g i :
  harmless g -> party_le s0 s ->
  party_le s0 (set_party (alter g i (party s)) s).
Proof.
  intros Hg H. unfold party_le in *; simpl.
  apply Forall2_alter_r; [exact H | ].
  intros x y _ _ Hxy. etransitivity; [exact Hxy | apply Hg].
Qed.

(** Making a member doubt is allowed when that member had not abandoned. *)
Lemma party_le_doubting s0 s i :
  (forall m0, party s0 !! i = Some m0 -> abandoned m0 = false) ->
  party_le s0 s ->
  party_le s0 (set_party (alter (set_doubting true) i (party s)) s).
Proof.
  intros Hi H. unfold party_le in *; simpl.
  apply Forall2_alter_r; [exact H | ].
  intros x y Hx _ [Hn Hxy]. split; [exact Hn | ].
  intros Ha. rewrite (Hi x Hx) in Ha. discriminate.
Qed.

Lemma filter_idx_spec p l i :
  In i (filter_idx p l) -> exists m, l !! i = Some m /\ p m = true.
Proof.
  unfold filter_idx. rewrite filter_In. intros [_ H].
  destruct (l !! i) as [m|]; [eauto | discriminate].
Qed.

#[local] Hint Resolve harmless_unset_doubting harmless_set_doubt
  harmless_set_abandoned harmless_set_abandonReason harmless_set_m_reason
  : harmless.

(** Closes the goal left at a state update that keeps the roster, or
    updates a member harmlessly. *)
Ltac party_leaf :=
  first [ assumption
        | apply party_le_alter; [ auto with harmless | assumption ] ].

Section PartyOneWay.

Variable theme : Theme.
Variable rnd : nat -> Q.
Variable s0 : State.

Lemma advanceTime_party days : inv (party_le s0) (advanceTime days).
Proof. unfold advanceTime. inv_walk; party_leaf. Qed.

Lemma promote_party member :
  (forall m0, party s0 !! member = Some m0 -> abandoned m0 = false) ->
  inv (party_le s0) (promote theme rnd member).
Proof.
  intros Hm. unfold promote.
  inv_step; [ inv_step; inv_step; now apply party_le_doubting | ].
  inv_walk; party_leaf.
Qed.

Lemma updatePartyMorale_party :
  inv (party_le s0) (updatePartyMorale theme rnd).
Proof.
  unfold updatePartyMorale, drain, check_abandon.
  inv_step. cbv zeta.
  inv_step; [ | inv_walk; party_leaf ].
  inv_step; [ | inv_walk ].
  inv_step. apply promote_party.
  intros m0 Hm0.
  match goal with H : In _ (take _ _) |- _ =>
    apply list_elem_of_In, elem_of_take in H; destruct H as [? [H _]];
    apply list_elem_of_lookup_2, list_elem_of_In in H;
    apply filter_In in H; destruct H as [H _];
    apply filter_idx_spec in H; destruct H as [m [Hm Hab]]
  end.
  destruct (abandoned m0) eqn:Ha0; [ | reflexivity ].
  match goal with H : party_le s0 _ |- _ =>
    destruct (Forall2_lookup_lr _ _ _ _ _ _ H Hm0 Hm) as [_ Hle] end.
  destruct (Hle Ha0) as [Ha _]. rewrite Ha in Hab. discriminate.
Qed.

#[local] Hint Resolve advanceTime_party updatePartyMorale_party : invdb.

Lemma updateWeather_party : inv (party_le s0) (updateWeather rnd).
Proof. unfold updateWeather. inv_walk; party_leaf. Qed.

Lemma checkLocationArrival_party :
  inv (party_le s0) (checkLocationArrival theme).
Proof. unfold checkLocationArrival. inv_walk; party_leaf. Qed.

#[local] Hint Resolve updateWeather_party checkLocationArrival_party : invdb.

Lemma travel_party : inv (party_le s0) (travel theme rnd).
Proof. unfold travel. inv_walk; party_leaf. Qed.

Lemma applyEffects_party effects :
  inv (party_le s0) (applyEffects theme effects).
Proof. unfold applyEffects, apply_effect. inv_walk; party_leaf. Qed.

Lemma checkFailConditions_party :
  inv (party_le s0) (checkFailConditions theme rnd).
Proof. unfold checkFailConditions. inv_walk; party_leaf. Qed.

Lemma forage_party : inv (party_le s0) (forage theme rnd).
Proof. unfold forage. inv_walk; party_leaf. Qed.

Lemma buyItem_party itemId : inv (party_le s0) (buyItem theme itemId).
Proof. unfold buyItem. inv_walk; party_leaf. Qed.

Lemma rest_party days : inv (party_le s0) (rest days).
Proof. unfold rest. inv_walk; party_leaf. Qed.

Lemma getRandomEvent_party : inv (party_le s0) (getRandomEvent theme rnd).
Proof. unfold getRandomEvent. inv_walk; party_leaf. Qed.

Lemma run_party op : inv (party_le s0) (run theme rnd op).
Proof.
  destruct op; unfold run, discard;
    try (apply inv_bind; [ | intros; apply inv_ret ]);
    auto using travel_party, applyEffects_party, forage_party, rest_party,
      buyItem_party, checkLocationArrival_party, checkFailConditions_party,
      getRandomEvent_party, updatePartyMorale_party, updateWeather_party,
      advanceTime_party.
Qed.

End PartyOneWay.

(** * Journey progress is monotone *)

Ltac frame_leaf :=
  unfold index_le, distance_le in *; simpl in *;
  first [ assumption | lia ].

Section Progress.

Variable theme : Theme.
Variable rnd : nat -> Q.
Variable s0 : State.

Lemma checkLocationArrival_index :
  inv (index_le theme s0) (checkLocationArrival theme).
Proof.
  intros e [Hle Hv]. unfold checkLocationArrival, mbind, Eng_bind, get; simpl.
  destruct (locations theme !! (currentLocationIndex (state e) + 1)%nat)
    as [nextLoc|] eqn:Hnext; [ | split; assumption ].
  apply lookup_lt_Some in Hnext.
  destruct (distance (state e) >=? loc_distance nextLoc);
    [ | split; assumption ].
  simpl.
  destruct (landmark_boost nextLoc); simpl;
    destruct (bool_decide (loc_name nextLoc = endLocation (journey theme)));
    unfold index_le; simpl; split; lia.
Qed.

Lemma advanceTime_index days : inv (index_le theme s0) (advanceTime days).
Proof. unfold advanceTime. inv_walk; frame_leaf. Qed.

Lemma promote_index member :
  inv (index_le theme s0) (promote theme rnd member).
Proof. unfold promote. inv_walk; frame_leaf. Qed.

#[local] Hint Resolve checkLocationArrival_index advanceTime_index
  promote_index : invdb.

Lemma updatePartyMorale_index :
  inv (index_le theme s0) (updatePartyMorale theme rnd).
Proof.
  unfold updatePartyMorale, drain, check_abandon. inv_walk; frame_leaf.
Qed.

Lemma updateWeather_index : inv (index_le theme s0) (updateWeather rnd).
Proof. unfold updateWeather. inv_walk; frame_leaf. Qed.

#[local] Hint Resolve updatePartyMorale_index updateWeather_index : invdb.

Lemma run_index op : inv (index_le theme s0) (run theme rnd op).
Proof.
  destruct op; unfold run, discard, travel, applyEffects, apply_effect,
    forage, rest, buyItem, checkFailConditions, getRandomEvent;
    inv_walk; frame_leaf.
Qed.

Lemma getMilesPerDay_pos s : 0 < getMilesPerDay s.
Proof. unfold getMilesPerDay; destruct (pace s); lia. Qed.

Lemma advanceTime_distance days : inv (distance_le s0) (advanceTime days).
Proof. unfold advanceTime. inv_walk; frame_leaf. Qed.

Lemma promote_distance member :
  inv (distance_le s0) (promote theme rnd member).
Proof. unfold promote. inv_walk; frame_leaf. Qed.

#[local] Hint Resolve advanceTime_distance promote_distance : invdb.

Lemma updatePartyMorale_distance :
  inv (distance_le s0) (updatePartyMorale theme rnd).
Proof.
  unfold updatePartyMorale, drain, check_abandon. inv_walk; frame_leaf.
Qed.

Lemma checkLocationArrival_distance :
  inv (distance_le s0) (checkLocationArrival theme).
Proof. unfold checkLocationArrival. inv_walk; frame_leaf. Qed.

#[local] Hint Resolve updatePartyMorale_distance
  checkLocationArrival_distance : invdb.

Lemma travel_distance : inv (distance_le s0) (travel theme rnd).
Proof.
  unfold travel, updateWeather. inv_walk; try frame_leaf.
  unfold distance_le in *; simpl.
  match goal with |- _ <= _ + getMilesPerDay ?s =>
    pose proof (getMilesPerDay_pos s) end.
  lia.
Qed.

Lemma run_distance op :
  forward op -> inv (distance_le s0) (run theme rnd op).
Proof.
  destruct op as [ | [effects|] | | | | | | | | | ]; intros Hf;
    unfold run, discard; try (apply inv_bind; [ | intros; apply inv_ret ]);
    auto using travel_distance, updatePartyMorale_distance,
      checkLocationArrival_distance, advanceTime_distance;
    try (unfold applyEffects, forage, rest, buyItem, checkFailConditions,
           getRandomEvent, updateWeather; inv_walk; frame_leaf).
  (* applyEffects with non-negative distance entries *)
  unfold applyEffects. simpl in Hf.
  inv_step; [ | inv_walk; frame_leaf ].
  apply inv_forEach. intros kv Hin.
  rewrite Forall_forall in Hf. specialize (Hf kv (proj2 (list_elem_of_In _ _) Hin)).
  unfold apply_effect.
  destruct (bool_decide (fst kv = "distance")) eqn:Hk.
  - apply bool_decide_eq_true in Hk. specialize (Hf Hk).
    inv_walk. unfold distance_le in *; simpl. lia.
  - inv_walk; frame_leaf.
Qed.

End Progress.

(** * Symbolic execution of the straight-line part of a method *)

Lemma step_modify {B} (f : State -> State) (k : unit -> Eng B) e :
  (modify f ≫= k) e = k tt (with_state (f (state e)) e).
Proof. reflexivity. Qed.

Lemma step_get {B} (k : State -> Eng B) e : (get ≫= k) e = k (state e) e.
Proof. reflexivity. Qed.

Lemma step_lift {A B} (a : A) (k : A -> Eng B) e :
  (lift (Ok a) ≫= k) e = k a e.
Proof. reflexivity. Qed.

Lemma step_ret {A B} (a : A) (k : A -> Eng B) e : (mret a ≫= k) e = k a e.
Proof. reflexivity. Qed.

Lemma step_assoc {A B C} (m : Eng A) (f : A -> Eng B) (g : B -> Eng C) e :
  ((m ≫= f) ≫= g) e = (m ≫= (fun a => f a ≫= g)) e.
Proof.
  unfold mbind, Eng_bind. destruct (m e) as [[a|x] e']; reflexivity.
Qed.

(** * The calendar *)

Lemma advance_loop_stop fuel m d len :
  monthDays !! m = Some len -> d <= len -> advance_loop fuel m d = (m, d).
Proof.
  intros Hm Hd. destruct fuel; simpl; [reflexivity | ].
  rewrite Hm. destruct (d >? len) eqn:H; [lia | reflexivity].
Qed.

Lemma monthDays_pos m len : monthDays !! m = Some len -> 30 <= len.
Proof.
  do 7 (destruct m as [|m]; [ intros [= <-]; lia | ]). discriminate.
Qed.

(** The fuel of [advance_date] is enough: at the returned date the loop
    condition [day > monthDays[month]] is false. *)
Lemma advance_loop_exit fuel m d :
  (Z.to_nat d <= fuel)%nat ->
  match monthDays !! fst (advance_loop fuel m d) with
  | Some len => snd (advance_loop fuel m d) <= len
  | None => True
  end.
Proof.
  revert m d. induction fuel as [|fuel IH]; intros m d Hf; simpl.
  - destruct (monthDays !! m) as [len|] eqn:Hm; [ | exact Logic.I ].
    apply monthDays_pos in Hm. lia.
  - destruct (monthDays !! m) as [len|] eqn:Hm; simpl; [ | now rewrite Hm ].
    destruct (d >? len) eqn:Hd.
    + apply IH. apply monthDays_pos in Hm. lia.
    + simpl. rewrite Hm. lia.
Qed.

(** One day later: the next day of the month, or the first of the next
    month, wrapping after the seventh. *)
Lemma advance_one_day m d :
  valid_date m d ->
  valid_date (fst (advance_date m (d + 1))) (snd (advance_date m (d + 1)))
  /\ day_of_cycle (fst (advance_date m (d + 1))) (snd (advance_date m (d + 1)))
       mod cycle_length
     = (day_of_cycle m d + 1) mod cycle_length.
Proof.
  intros [len [Hm Hd]]. unfold advance_date.
  destruct (Z.to_nat (d + 1)) as [|fuel] eqn:Hfuel; [lia | ].
  simpl. rewrite Hm.
  destruct (d + 1 >? len) eqn:Hlt.
  - assert (d = len) by lia. subst d.
    replace (len + 1 - len) with 1 by lia.
    do 7 (destruct m as [|m];
      [ injection Hm as <-; simpl;
        erewrite advance_loop_stop; [ | reflexivity | lia ];
        cbn [fst snd]; split; [ eexists; split; [reflexivity | lia] | reflexivity ] | ]).
    discriminate.
  - simpl. split; [ exists len; split; [assumption | lia] | ].
    unfold day_of_cycle. f_equal. lia.
Qed.

(** * One day of travel *)

Lemma inv_apply {A} (I : State -> Prop) (m : Eng A) e :
  inv I m -> I (state e) -> I (state (snd (m e))).
Proof. intros H; apply H. Qed.

Ltac travel_leaf := unfold travel_frame in *; simpl in *; assumption.

Section TravelFacts.

Variable theme : Theme.
Variable rnd : nat -> Q.

Section Tail.

Variable fr : TravelFrame.

Let I := fun s => travel_frame s = fr.

Lemma updateWeather_frame : inv I (updateWeather rnd).
Proof. unfold I, updateWeather. inv_walk; travel_leaf. Qed.

Lemma promote_frame member : inv I (promote theme rnd member).
Proof. unfold I, promote. inv_walk; travel_leaf. Qed.

#[local] Hint Resolve updateWeather_frame promote_frame : invdb.

Lemma updatePartyMorale_frame : inv I (updatePartyMorale theme rnd).
Proof.
  unfold I, updatePartyMorale, drain, check_abandon. inv_walk; travel_leaf.
Qed.

Lemma checkLocationArrival_frame : inv I (checkLocationArrival theme).
Proof. unfold I, checkLocationArrival. inv_walk; travel_leaf. Qed.

End Tail.

#[local] Hint Resolve updateWeather_frame updatePartyMorale_frame
  checkLocationArrival_frame : invdb.

(** The state after [travel], on the fields the second half of the method
    leaves alone, when the consumption rates can be computed. *)
Lemma travel_exec e c :
  getConsumptionRates theme (state e) = Ok c ->
  travel_frame (state (exec (travel theme rnd) e)) =
  {| f_distance := distance (state e) + getMilesPerDay (state e);
     f_month := fst (advance_date (month (state e)) (day (state e) + 1));
     f_day := snd (advance_date (month (state e)) (day (state e) + 1));
     f_pace := pace (state e);
     f_rations := rations (state e);
     f_fuel := sub (r_fuel (resources (state e))) (Int (c_fuel c));
     f_food :=
       if bool_decide (rc_name (t_food (th_resources theme)) ≠ "Evidence")
       then sub (r_food (resources (state e))) (Int (c_food c))
       else r_food (resources (state e)) |}.
Proof.
  intros Hc. unfold exec, travel.
  rewrite step_get. cbv zeta. rewrite Hc, step_lift, step_modify.
  unfold advanceTime. rewrite step_assoc, step_modify. cbv beta.
  rewrite !step_modify.
  destruct (bool_decide (rc_name (t_food (th_resources theme)) ≠ "Evidence"));
    [ rewrite step_modify | rewrite step_ret ];
    (apply (inv_apply (fun s => travel_frame s = _));
     [ inv_walk; travel_leaf | reflexivity ]).
Qed.

(** When the rates cannot be computed, [travel] throws before its first
    update. *)
Lemma travel_throws e x :
  getConsumptionRates theme (state e) = Throw x ->
  travel theme rnd e = (Throw x, e).
Proof. intros Hc. unfold travel. rewrite step_get. cbv zeta. now rewrite Hc. Qed.

Lemma getCurrentPhase_ok s :
  phases (journey theme) <> [] -> exists ph, getCurrentPhase theme s = Ok ph.
Proof.
  intros Hne. unfold getCurrentPhase.
  destruct (List.find _ _); [eauto | ].
  destruct (last (phases (journey theme))) eqn:Hl; [eauto | ].
  apply last_None in Hl. contradiction.
Qed.

Lemma getConsumptionRates_ok s :
  phases (journey theme) <> [] ->
  exists c, getConsumptionRates theme s = Ok c.
Proof.
  intros Hne. unfold getConsumptionRates, professionMoraleDrain.
  destruct (professionModifiers s) as [mods|]; [ | simpl; eauto ].
  destruct (vibeDrainByPhase mods); [ | simpl; eauto ].
  destruct (getCurrentPhase_ok s Hne) as [ph ->]. simpl; eauto.
Qed.

(** With no profession modifiers (or no drain table) the phase is never
    looked up, and the rates are always computed. *)
Lemma getConsumptionRates_no_modifiers s :
  professionModifiers s = None ->
  exists c, getConsumptionRates theme s = Ok c.
Proof.
  intros H. unfold getConsumptionRates, professionMoraleDrain.
  rewrite H. simpl; eauto.
Qed.

End TravelFacts.

(** * Sequences of operations *)

Lemma run_all_rel theme rnd (R : relation State) `{!PreOrder R}
    (ok : Op -> Prop) :
  (forall op s0, ok op -> inv (R s0) (run theme rnd op)) ->
  forall ops e, Forall ok ops -> R (state e) (state (run_all theme rnd ops e)).
Proof.
  intros Hop ops. induction ops as [|op ops IH]; intros e Hok; simpl.
  - reflexivity.
  - inversion Hok as [|? ? Hop1 Hops]; subst.
    transitivity (state (snd (run theme rnd op e))).
    + apply (Hop op (state e) Hop1 e). reflexivity.
    + apply (IH _ Hops).
Qed.

#[global] Instance index_le_preorder theme : PreOrder (index_le theme).
Proof.
  unfold index_le; split.
  - intros s; split; [lia | tauto].
  - intros a b c [H1 H1'] [H2 H2']; split; [lia | tauto].
Qed.

#[global] Instance distance_le_preorder : PreOrder distance_le.
Proof.
  unfold distance_le; split.
  - intros s; lia.
  - intros a b c; lia.
Qed.

(** [apply_effect] never throws, and moves the distance by its [distance]
    entry only. *)
Lemma apply_effect_run theme kv e :
  exists e', apply_effect theme kv e = (Ok tt, e')
    /\ distance (state e') =
       distance (state e)
       + (if bool_decide (fst kv = "distance") then snd kv else 0).
Proof.
  unfold apply_effect.
  destruct (bool_decide (fst kv = "distance")).
  - eexists; split; [reflexivity | reflexivity].
  - destruct (bool_decide (fst kv = "days")).
    + eexists; split; [reflexivity | simpl; lia].
    + destruct (res_of_key (fst kv)) as [k|];
        [ | eexists; split; [reflexivity | simpl; lia] ].
      destruct (truthy (rc_max (res_config k (th_resources theme))));
        eexists; (split; [reflexivity | simpl; lia]).
Qed.

Lemma forEach_apply_effect theme effects e :
  exists e', forEach effects (apply_effect theme) e = (Ok tt, e')
    /\ distance (state e') = distance (state e) + effect_distance effects.
Proof.
  revert e. induction effects as [|kv effects IH]; intros e; simpl.
  - eexists; split; [reflexivity | lia].
  - destruct (apply_effect_run theme kv e) as [e1 [H1 Hd1]].
    destruct (IH e1) as [e2 [H2 Hd2]].
    exists e2. unfold mbind, Eng_bind. rewrite H1. split; [exact H2 | ].
    rewrite Hd2, Hd1. destruct (bool_decide (fst kv = "distance")); lia.
Qed.

Lemma applyEffects_distance theme effects e :
  distance (state (exec (applyEffects theme (Some effects)) e)) =
  distance (state e) + effect_distance effects.
Proof.
  unfold exec, applyEffects.
  destruct (forEach_apply_effect theme effects e) as [e1 [H1 Hd1]].
  unfold mbind at 1, Eng_bind at 1. rewrite H1. rewrite <- Hd1.
  apply (inv_apply (fun s => distance s = distance (state e1)));
    [ | reflexivity ].
  inv_walk; simpl; assumption.
Qed.

(** * The claims *)

Import Examples.

(** C4. Once a party member's [abandoned] flag is true, no engine operation
    sets it back to false, and none sets that member's [doubting] flag to
    true again: after any sequence of operations the member is still in
    their place in the roster, still abandoned, and not doubting if they
    were not. *)
Theorem abandoned_is_one_way theme rnd (ops : list Op) e i m :
  party (state e) !! i = Some m ->
  abandoned m = true ->
  exists m', party (state (run_all theme rnd ops e)) !! i = Some m'
    /\ m_name m' = m_name m
    /\ abandoned m' = true
    /\ (doubting m = false -> doubting m' = false).
Proof.
  intros Hm Ha.
  assert (Hle : party_le (state e) (state (run_all theme rnd ops e))).
  { apply (run_all_rel theme rnd party_le (fun _ => True)).
    - intros op s0 _. apply run_party.
    - apply Forall_forall. intros; exact Logic.I. }
  destruct (Forall2_lookup_l _ _ _ _ _ Hle Hm) as [m' [Hm' [Hn Hlater]]].
  exists m'. destruct (Hlater Ha) as [Ha' Hd].
  repeat split; try assumption.
  intros Hnd. destruct (doubting m') eqn:Hd'; [ | reflexivity ].
  rewrite Hd in Hnd by reflexivity. discriminate.
Qed.

Lemma abandoned_is_one_way_witness :
  exists m',
    party (state (run_all roswell draws
                    [OpTravel; OpRest 2; OpCheckFailConditions; OpForage;
                     OpTravel]
                    (game_without_ann roswell))) !! 0%nat = Some m'
    /\ m_name m' = "Ann"
    /\ abandoned m' = true
    /\ (false = false -> doubting m' = false).
Proof.
  apply (abandoned_is_one_way roswell draws _ (game_without_ann roswell) 0
           {| m_name := "Ann"; doubting := false; doubt := None;
              abandoned := true; abandonReason := None; m_reason := None |});
    reflexivity.
Defined.

(** C3, as the code has it.  Under every engine operation the location
    index never decreases and stays an index of the theme's location list;
    the distance never decreases under operations other than
    [applyEffects] with a negative [distance] entry; and [applyEffects]
    moves the distance by exactly the sum of its [distance] entries. *)
Theorem progress_is_monotone theme rnd (ops : list Op) e :
  (currentLocationIndex (state e)
     <= currentLocationIndex (state (run_all theme rnd ops e)))%nat
  /\ ((currentLocationIndex (state e) < length (locations theme))%nat ->
      (currentLocationIndex (state (run_all theme rnd ops e))
         < length (locations theme))%nat)
  /\ (Forall forward ops ->
      distance (state e) <= distance (state (run_all theme rnd ops e)))
  /\ (forall effects,
        distance (state (exec (applyEffects theme (Some effects)) e)) =
        distance (state e) + effect_distance effects).
Proof.
  assert (Hidx : index_le theme (state e) (state (run_all theme rnd ops e))).
  { apply (run_all_rel theme rnd (index_le theme) (fun _ => True)).
    - intros op s0 _. apply run_index.
    - apply Forall_forall. intros; exact Logic.I. }
  destruct Hidx as [H1 H2]. repeat split; try assumption.
  - intros Hf. apply (run_all_rel theme rnd distance_le forward); [ | exact Hf ].
    intros op s0 Hop. now apply run_distance.
  - intros effects. apply applyEffects_distance.
Qed.

Lemma progress_is_monotone_witness :
  (0 <= currentLocationIndex
          (state (run_all roswell draws a_day (new_game roswell))))%nat
  /\ (currentLocationIndex
        (state (run_all roswell draws a_day (new_game roswell))) < 3)%nat
  /\ 0 <= distance (state (run_all roswell draws a_day (new_game roswell))).
Proof.
  pose proof (progress_is_monotone roswell draws a_day (new_game roswell))
    as [H1 [H2 [H3 _]]].
  split; [exact H1 | split].
  - apply H2. vm_compute. lia.
  - apply H3. repeat constructor. intros _. simpl. lia.
Defined.

(** C3 as stated fails: an effect map with a negative [distance] entry
    moves the distance backwards. *)
Lemma distance_can_decrease :
  distance (state (exec (run roswell draws
                           (OpApplyEffects (Some [("distance", -50)])))
                     (exec (travel roswell draws) (new_game roswell))))
  < distance (state (exec (travel roswell draws) (new_game roswell))).
Proof. vm_compute. reflexivity. Qed.

(** C6. A single arrival check advances [currentLocationIndex] by at most
    one; when it advances to a location whose name is the theme's end
    location, the result is the win signal and [alive] is set to false; a
    plain arrival is only ever reported for another location, and [null]
    only when the index did not move. *)
Theorem arrival_advances_one_and_wins theme e :
  let e' := exec (checkLocationArrival theme) e in
  let r := result (checkLocationArrival theme) e in
  (currentLocationIndex (state e) <= currentLocationIndex (state e')
     <= S (currentLocationIndex (state e)))%nat
  /\ (forall loc,
        currentLocationIndex (state e') = S (currentLocationIndex (state e)) ->
        locations theme !! currentLocationIndex (state e') = Some loc ->
        loc_name loc = endLocation (journey theme) ->
        r = Ok (Some (Win loc)) /\ alive (state e') = false)
  /\ (forall loc,
        r = Ok (Some (Arrival loc)) ->
        loc_name loc <> endLocation (journey theme)
        /\ locations theme !! currentLocationIndex (state e') = Some loc
        /\ currentLocationIndex (state e') = S (currentLocationIndex (state e)))
  /\ (r = Ok None ->
      currentLocationIndex (state e') = currentLocationIndex (state e)).
Proof.
  unfold exec, result, checkLocationArrival, mbind, Eng_bind, get; simpl.
  destruct (locations theme !! (currentLocationIndex (state e) + 1)%nat)
    as [nextLoc|] eqn:Hnext; simpl.
  2: { repeat split; try lia; intros; try discriminate; lia. }
  destruct (distance (state e) >=? loc_distance nextLoc); simpl.
  2: { repeat split; try lia; intros; try discriminate; lia. }
  replace (currentLocationIndex (state e) + 1)%nat
    with (S (currentLocationIndex (state e))) in Hnext by lia.
  destruct (landmark_boost nextLoc); simpl;
    destruct (bool_decide (loc_name nextLoc = endLocation (journey theme)))
      eqn:Hend; simpl;
    [ apply bool_decide_eq_true in Hend | apply bool_decide_eq_false in Hend
    | apply bool_decide_eq_true in Hend | apply bool_decide_eq_false in Hend ];
    (split; [ lia | split; [ | split ] ]).
  all: try (intros Hr; discriminate Hr).
  all: try (intros loc Hr; discriminate Hr).
  all: try (intros loc _ Hloc Hname; rewrite Hnext in Hloc;
            injection Hloc as <-;
            first [ split; reflexivity | contradiction ]).
  all: intros loc [= <-]; repeat split; assumption.
Qed.

(** C10. In a theme whose food resource is named "Evidence", [travel()]
    leaves the food value unchanged; with any other name, [travel()]
    takes the computed daily consumption (the rations' rate, plus 3 in hot
    weather) off the food value. *)
Theorem travel_spares_evidence theme rnd e :
  let food' := r_food (resources (state (exec (travel theme rnd) e))) in
  (rc_name (t_food (th_resources theme)) = "Evidence" ->
   food' = r_food (resources (state e)))
  /\ (rc_name (t_food (th_resources theme)) <> "Evidence" ->
      forall c, getConsumptionRates theme (state e) = Ok c ->
      food' = sub (r_food (resources (state e))) (Int (c_food c))
      /\ c_food c =
         match rations (state e) with bare => 4 | normal => 8 | feast => 15 end
         + match weather (state e) with hot => 3 | _ => 0 end).
Proof.
  simpl. split.
  - intros Hname.
    destruct (getConsumptionRates theme (state e)) as [c|x] eqn:Hc.
    + pose proof (travel_exec theme rnd e c Hc) as H.
      apply (f_equal f_food) in H. simpl in H. rewrite H.
      rewrite bool_decide_eq_false_2; [reflexivity | ]. intros Hn; auto.
    + now rewrite (travel_throws theme rnd e x Hc).
  - intros Hname c Hc. split.
    + pose proof (travel_exec theme rnd e c Hc) as H.
      apply (f_equal f_food) in H. simpl in H. rewrite H.
      now rewrite bool_decide_eq_true_2.
    + unfold getConsumptionRates in Hc.
      destruct (professionMoraleDrain theme (state e)); simpl in Hc;
        [ | discriminate ].
      injection Hc as <-. reflexivity.
Qed.

Lemma travel_spares_evidence_witness :
  r_food (resources (state (exec (travel roswell draws) (new_game roswell))))
  = r_food (resources (state (new_game roswell)))
  /\ r_food (resources (state (exec (travel norcal draws) (new_game norcal))))
     = sub (r_food (resources (state (new_game norcal)))) (Int 8).
Proof.
  split.
  - exact (proj1 (travel_spares_evidence roswell draws (new_game roswell))
             eq_refl).
  - assert (Hname : rc_name (t_food (th_resources norcal)) <> "Evidence")
      by (simpl; discriminate).
    assert (Hc : getConsumptionRates norcal (state (new_game norcal))
                 = Ok {| c_fuel := 12; c_food := 8; moraleBase := 4 |})
      by (vm_compute; reflexivity).
    exact (proj1 (proj2 (travel_spares_evidence norcal draws (new_game norcal))
                    Hname _ Hc)).
Defined.

(** C8. [n] consecutive [travel()] calls at an unchanged pace move the
    distance by exactly [n] times the pace's miles per day (30 mellow, 50
    steady, 70 rush) and the calendar by exactly [n] days, counted in the
    seven-month cycle; whatever the random draws and the party. *)
Theorem travel_n_days theme rnd n e :
  phases (journey theme) <> [] ->
  valid_date (month (state e)) (day (state e)) ->
  let e' := travel_n theme rnd n e in
  distance (state e')
    = distance (state e) + Z.of_nat n * getMilesPerDay (state e)
  /\ getMilesPerDay (state e)
     = match pace (state e) with mellow => 30 | steady => 50 | rush => 70 end
  /\ pace (state e') = pace (state e)
  /\ valid_date (month (state e')) (day (state e'))
  /\ day_of_cycle (month (state e')) (day (state e')) mod cycle_length
     = (day_of_cycle (month (state e)) (day (state e)) + Z.of_nat n)
         mod cycle_length.
Proof.
  intros Hph. revert e. induction n as [|n IH]; intros e Hdate; simpl.
  - repeat split; try assumption; try lia. f_equal; lia.
  - destruct (getConsumptionRates_ok theme (state e) Hph) as [c Hc].
    pose proof (travel_exec theme rnd e c Hc) as H.
    set (e1 := snd (travel theme rnd e)) in *.
    assert (Hd : distance (state e1)
                 = distance (state e) + getMilesPerDay (state e))
      by exact (f_equal f_distance H).
    assert (Hp : pace (state e1) = pace (state e))
      by exact (f_equal f_pace H).
    assert (Hm : month (state e1)
                 = fst (advance_date (month (state e)) (day (state e) + 1)))
      by exact (f_equal f_month H).
    assert (Hday : day (state e1)
                   = snd (advance_date (month (state e)) (day (state e) + 1)))
      by exact (f_equal f_day H).
    destruct (advance_one_day _ _ Hdate) as [Hv Hcyc].
    rewrite <- Hm, <- Hday in Hv, Hcyc.
    destruct (IH e1 Hv) as [IHd [_ [IHp [IHv IHc]]]].
    assert (Hmiles : getMilesPerDay (state e1) = getMilesPerDay (state e))
      by (unfold getMilesPerDay; now rewrite Hp).
    repeat split.
    + rewrite IHd, Hd, Hmiles. lia.
    + congruence.
    + exact IHv.
    + rewrite IHc. rewrite <- Z.add_mod_idemp_l by (vm_compute; discriminate).
      rewrite Hcyc. rewrite Z.add_mod_idemp_l by (vm_compute; discriminate).
      f_equal. lia.
Qed.

Lemma travel_n_days_witness :
  distance (state (travel_n norcal draws 4 (new_game norcal))) = 0 + 4 * 50
  /\ day_of_cycle (month (state (travel_n norcal draws 4 (new_game norcal))))
       (day (state (travel_n norcal draws 4 (new_game norcal))))
       mod cycle_length
     = (day_of_cycle 5 1 + 4) mod cycle_length.
Proof.
  pose proof (travel_n_days norcal draws 4 (new_game norcal)
                ltac:(simpl; discriminate)
                ltac:(exists 31; split; [reflexivity | simpl; lia]))
    as [Hd [_ [_ [_ Hc]]]].
  split; [exact Hd | exact Hc].
Defined.

(** * Random indices *)

Lemma step_random {B} rnd (k : Q -> Eng B) e :
  (random rnd ≫= k) e
  = k (rnd (drawn e))
      {| state := state e; eventHistory := eventHistory e;
         drawn := S (drawn e) |}.
Proof. reflexivity. Qed.

Lemma Qfloor_iff (x : Q) (j : Z) :
  Qfloor x = j <-> (inject_Z j <= x /\ x < inject_Z (j + 1))%Q.
Proof.
  split.
  - intros <-. split; [apply Qfloor_le | apply Qlt_floor].
  - intros [Hl Hu].
    assert (H1 : j <= Qfloor x).
    { rewrite <- (Qfloor_Z j). now apply Qfloor_resp_le. }
    assert (H2 : Qfloor x < j + 1).
    { rewrite Zlt_Qlt. eapply Qle_lt_trans; [apply Qfloor_le | exact Hu]. }
    lia.
Qed.

(** A draw in [[0,1)] gives an index of the array. *)
Lemma random_index_range (r : Q) (n : nat) :
  (0 <= r < 1)%Q -> (0 < n)%nat -> 0 <= random_index r n < Z.of_nat n.
Proof.
  intros [Hr0 Hr1] Hn. unfold random_index.
  assert (Hn' : (0 < inject_Z (Z.of_nat n))%Q).
  { change 0%Q with (inject_Z 0). rewrite <- Zlt_Qlt. lia. }
  split.
  - rewrite <- (Qfloor_Z 0). apply Qfloor_resp_le.
    apply Qmult_le_0_compat; [exact Hr0 | now apply Qlt_le_weak].
  - rewrite Zlt_Qlt. eapply Qle_lt_trans; [apply Qfloor_le | ].
    rewrite <- (Qmult_1_l (inject_Z (Z.of_nat n))) at 2.
    now apply Qmult_lt_compat_r.
Qed.

Lemma js_index_range {A} (l : list A) (i : Z) :
  0 <= i < Z.of_nat (length l) -> exists x, js_index l i = Some x /\ In x l.
Proof.
  intros Hi. unfold js_index.
  destruct (i <? 0) eqn:H; [lia | ].
  destruct (l !! Z.to_nat i) as [x|] eqn:Hx.
  - exists x. split; [reflexivity | ].
    apply list_elem_of_In. eapply list_elem_of_lookup_2. exact Hx.
  - apply lookup_ge_None in Hx. lia.
Qed.

Lemma filter_idx_complete p (l : list Member) i m :
  l !! i = Some m -> p m = true -> In i (filter_idx p l).
Proof.
  intros Hm Hp. unfold filter_idx. apply filter_In. split.
  - apply in_seq. apply lookup_lt_Some in Hm. lia.
  - now rewrite Hm.
Qed.

(** C5. When morale is at most 0, some member is still active and no
    earlier fail branch applies (fuel and food pass their tests, the time
    limit is not exceeded), [checkFailConditions] draws once, picks the
    active member at index [floor(r * n)] of the [n] active ones (each
    index is hit by the draws of one interval of length [1/n]), marks
    exactly that member abandoned, sets morale to 20 and returns the
    morale-abandonment result; [alive] and specialItem are untouched, so
    no other branch fired. *)
Theorem morale_abandonment theme rnd e z :
  r_morale (resources (state e)) = Int z ->
  z <= 0 ->
  (exists i m, party (state e) !! i = Some m /\ abandoned m = false) ->
  leb (r_fuel (resources (state e))) (Int 0) = false ->
  leb (r_food (resources (state e))) (Int (-20)) = false ->
  time_expired theme (state e) = false ->
  (0 <= rnd (drawn e) < 1)%Q ->
  let stillHere := filter_idx (fun m => negb (abandoned m)) (party (state e)) in
  let r := rnd (drawn e) in
  let e' := exec (checkFailConditions theme rnd) e in
  exists victim m,
    js_index stillHere (random_index r (length stillHere)) = Some victim
    /\ (forall j, random_index r (length stillHere) = j <->
                  (inject_Z j <= r * inject_Z (Z.of_nat (length stillHere))
                   /\ r * inject_Z (Z.of_nat (length stillHere))
                      < inject_Z (j + 1))%Q)
    /\ party (state e) !! victim = Some m
    /\ abandoned m = false
    /\ result (checkFailConditions theme rnd) e
       = Ok (Some (MoraleAbandonment victim))
    /\ party (state e')
       = <[victim := set_abandoned true m]> (party (state e))
    /\ r_morale (resources (state e')) = Int 20
    /\ r_specialItem (resources (state e'))
       = r_specialItem (resources (state e))
    /\ r_fuel (resources (state e')) = r_fuel (resources (state e))
    /\ r_food (resources (state e')) = r_food (resources (state e))
    /\ alive (state e') = alive (state e)
    /\ drawn e' = S (drawn e).
Proof.
  intros Hmor Hz [i [m0 [Hi Hact]]] Hfuel Hfood Htime Hr. cbv zeta.
  set (stillHere := filter_idx (fun m => negb (abandoned m)) (party (state e))).
  assert (Hall : forallb abandoned (party (state e)) = false).
  { destruct (forallb abandoned (party (state e))) eqn:Hall; [ | reflexivity ].
    rewrite forallb_forall in Hall.
    rewrite (Hall m0) in Hact; [discriminate | ].
    apply list_elem_of_In. eapply list_elem_of_lookup_2. exact Hi. }
  assert (Hlen : (0 < length stillHere)%nat).
  { assert (Hin : In i stillHere)
      by (apply (filter_idx_complete _ _ i m0 Hi); now rewrite Hact).
    destruct stillHere; [destruct Hin | simpl; lia]. }
  destruct (js_index_range stillHere _
              (random_index_range _ _ Hr Hlen)) as [victim [Hv Hvin]].
  destruct (filter_idx_spec _ _ _ Hvin) as [m [Hm Hmact]].
  exists victim, m.
  assert (Hrun : checkFailConditions theme rnd e
    = (Ok (Some (MoraleAbandonment victim)),
       {| state := upd_res morale (fun _ => Int 20)
            (set_party (alter (set_abandoned true) victim (party (state e)))
               (state e));
          eventHistory := eventHistory e; drawn := S (drawn e) |})).
  { unfold checkFailConditions. rewrite step_get. cbv zeta.
    rewrite Hall, Hfuel, Hfood, Htime, Hmor.
    fold stillHere.
    replace (leb (Int z) (Int 0)) with true
      by (symmetry; simpl; apply Z.leb_le; exact Hz).
    replace (0 <? length stillHere)%nat with true
      by (symmetry; apply Nat.ltb_lt; exact Hlen).
    cbn [andb]. rewrite step_random, Hv. reflexivity. }
  unfold exec, result. rewrite Hrun. simpl.
  split; [exact Hv | ].
  split; [intros j; apply Qfloor_iff | ].
  split; [exact Hm | ].
  split; [destruct (abandoned m); [discriminate | reflexivity] | ].
  split; [reflexivity | ].
  split; [ | repeat split ].
  apply list_eq. intros j. destruct (decide (j = victim)) as [->|Hne].
  - rewrite list_lookup_alter_eq, Hm. simpl.
    rewrite list_lookup_insert_eq; [reflexivity | ].
    eapply lookup_lt_Some; exact Hm.
  - rewrite list_lookup_alter_ne by congruence.
    rewrite list_lookup_insert_ne by congruence. reflexivity.
Qed.

Lemma morale_abandonment_witness :
  exists victim,
    result (checkFailConditions roswell draws) (low_morale_game roswell)
    = Ok (Some (MoraleAbandonment victim))
    /\ r_morale (resources (state (exec (checkFailConditions roswell draws)
                                     (low_morale_game roswell)))) = Int 20.
Proof.
  destruct (morale_abandonment roswell draws (low_morale_game roswell) 0
              eq_refl ltac:(lia)
              (ex_intro _ 1%nat (ex_intro _ _ (conj eq_refl eq_refl)))
              eq_refl eq_refl eq_refl
              ltac:(split; [vm_compute; discriminate | reflexivity]))
    as [victim [m [_ [_ [_ [_ [Hres [_ [Hmor _]]]]]]]]].
  exists victim. split; [exact Hres | exact Hmor].
Defined.

(** C9. [loadGame] on a snapshot whose theme name differs from the active
    theme's throws and leaves the engine (state and event history) as it
    was; on a snapshot with the same theme name it returns, and the state
    and the event history are the snapshot's (an absent history is the
    empty one). *)
Theorem loadGame_checks_theme theme saveData e :
  (sd_themeName saveData <> th_name theme ->
   exists x, loadGame theme saveData e = (Throw x, e))
  /\ (sd_themeName saveData = th_name theme ->
      result (loadGame theme saveData) e = Ok tt
      /\ state (exec (loadGame theme saveData) e) = sd_state saveData
      /\ eventHistory (exec (loadGame theme saveData) e)
         = default [] (sd_eventHistory saveData)).
Proof.
  assert (Hsame : forall sd, sd_themeName sd = th_name theme ->
            loadGame theme sd e
            = (Ok tt, {| state := sd_state sd;
                         eventHistory := default [] (sd_eventHistory sd);
                         drawn := drawn e |})).
  { intros sd Hn. unfold loadGame.
    rewrite bool_decide_eq_false_2; [reflexivity | ].
    intros Hne. exact (Hne Hn). }
  split.
  - intros Hne. unfold loadGame.
    rewrite bool_decide_eq_true_2 by exact Hne.
    eexists. reflexivity.
  - intros Hn. unfold exec, result. rewrite (Hsame _ Hn).
    repeat split.
Qed.

Lemma loadGame_checks_theme_witness :
  (exists x,
     loadGame norcal
       {| sd_themeName := "Roswell Trail"; sd_themeVersion := "1.0";
          sd_state := state (new_game roswell);
          sd_eventHistory := None |} (new_game norcal)
     = (Throw x, new_game norcal))
  /\ state (exec (loadGame roswell
                    {| sd_themeName := "Roswell Trail";
                       sd_themeVersion := "1.0";
                       sd_state := state (new_game roswell);
                       sd_eventHistory := None |})
              (low_morale_game roswell))
     = state (new_game roswell).
Proof.
  split.
  - apply (proj1 (loadGame_checks_theme norcal
                    {| sd_themeName := "Roswell Trail";
                       sd_themeVersion := "1.0";
                       sd_state := state (new_game roswell);
                       sd_eventHistory := None |} (new_game norcal))).
    simpl. discriminate.
  - exact (proj1 (proj2 (proj2
             (loadGame_checks_theme roswell
                {| sd_themeName := "Roswell Trail"; sd_themeVersion := "1.0";
                   sd_state := state (new_game roswell);
                   sd_eventHistory := None |} (low_morale_game roswell))
             eq_refl))).
Defined.

(** * Event selection *)

Lemma condition_passes_check s event c :
  condition_passes s event = true ->
  ev_condition event = Some c ->
  checkEventCondition s c = true.
Proof.
  unfold condition_passes. intros Hp Hc. rewrite Hc in Hp.
  destruct c as [f|str|]; simpl in *; try exact Hp.
  destruct (bool_decide (str = "")) eqn:Hs; [ | exact Hp ].
  apply bool_decide_eq_true in Hs. subst str. reflexivity.
Qed.

Lemma pick_weighted_In random l event :
  pick_weighted random l = Some event -> In event l.
Proof.
  revert random. induction l as [|ev l IH]; intros random; simpl.
  - discriminate.
  - destruct (Qle_bool (random - weight_of ev) 0).
    + intros [= <-]. now left.
    + intros H. right. eapply IH, H.
Qed.

Lemma head_In {A} (l : list A) x : head l = Some x -> In x l.
Proof. destruct l; simpl; [discriminate | intros [= <-]; now left]. Qed.

(** The antagonist boost rewrites the weight and nothing else. *)
Lemma boosted_passes s w (l : list Event) event :
  In event
    (map (fun ev => if copEvent ev then set_weight (w ev) ev else ev)
       (List.filter (condition_passes s) l)) ->
  condition_passes s event = true.
Proof.
  rewrite in_map_iff. intros [ev [<- Hin]].
  apply filter_In in Hin. destruct Hin as [_ Hp].
  destruct (copEvent ev); exact Hp.
Qed.

(** C7. Every event [getRandomEvent] returns passes the condition filter:
    if the event carries a condition (a state predicate, or a string such
    as ["hasGuitar"] resolved against the item counters), the condition
    evaluates to true in the state the selection was made in. *)
Theorem getRandomEvent_respects_conditions theme rnd e event :
  result (getRandomEvent theme rnd) e = Ok (Some event) ->
  forall c, ev_condition event = Some c ->
            checkEventCondition (state e) c = true.
Proof.
  intros H c Hc. apply (condition_passes_check _ event c); [ | exact Hc ].
  unfold result, getRandomEvent in H. rewrite step_get in H.
  destruct (getCurrentPhase theme (state e)) as [phase|x];
    [ rewrite step_lift in H | discriminate H ].
  cbv zeta in H.
  match type of H with
  | context [List.filter (condition_passes (state e)) ?l] =>
      set (candidates := l) in H
  end.
  match type of H with
  | context [if Qgtb ?cop 0 then map ?f ?l else ?l'] =>
      set (boost := f) in H;
      assert (Hall : forall ev,
                In ev (if Qgtb cop 0 then map boost l else l') ->
                condition_passes (state e) ev = true);
      [ | set (availableEvents := if Qgtb cop 0 then map boost l else l') in * ]
  end.
  { intros ev. destruct (Qgtb _ 0).
    - apply boosted_passes.
    - intros Hin. apply filter_In in Hin. tauto. }
  apply Hall.
  destruct (length availableEvents =? 0)%nat; [discriminate H | ].
  rewrite step_random in H.
  destruct (pick_weighted _ availableEvents) as [ev|] eqn:Hpick.
  - apply pick_weighted_In in Hpick.
    rewrite step_modify, step_get in H. simpl in H.
    injection H as <-. exact Hpick.
  - simpl in H. injection H as H. now apply head_In.
Qed.


Lemma getRandomEvent_respects_conditions_witness :
  checkEventCondition (state (game_with_guitar roswell)) (CondStr "hasGuitar")
  = true.
Proof.
  assert (H : result (getRandomEvent roswell high_draws)
                (game_with_guitar roswell) = Ok (Some campfire_song))
    by (vm_compute; reflexivity).
  exact (getRandomEvent_respects_conditions roswell high_draws
           (game_with_guitar roswell) campfire_song H _ eq_refl).
Defined.

(** * Resource bounds *)

Lemma res_get_set k k' v r :
  res_get k' (res_set k v r) = if decide (k = k') then v else res_get k' r.
Proof. destruct k, k'; reflexivity. Qed.

Lemma run_all_inv theme rnd (I : State -> Prop) (ok : Op -> Prop) :
  (forall op, ok op -> inv I (run theme rnd op)) ->
  forall ops e, Forall ok ops -> I (state e) ->
                I (state (run_all theme rnd ops e)).
Proof.
  intros Hop ops. induction ops as [|op ops IH]; intros e Hok HI; simpl.
  - exact HI.
  - inversion Hok as [|? ? Hop1 Hops]; subst.
    apply (IH _ Hops). now apply (Hop op Hop1).
Qed.

Section Bounds.

Variable theme : Theme.
Variable rnd : nat -> Q.
Hypothesis Hpos : caps_positive theme.

Lemma within_bounds_capped s :
  within_bounds theme s -> capped theme (resources s).
Proof.
  intros H k Hk. specialize (H k Hk). unfold in_bounds in H.
  destruct (res_get k (resources s)); tauto.
Qed.

(** One entry of the effect map keeps the values numbers below their
    maxima: a resource with a nonzero [max] is cut back to it at once. *)
Lemma apply_effect_capped kv :
  inv (fun s => capped theme (resources s)) (apply_effect theme kv).
Proof.
  intros e Hc. unfold apply_effect.
  destruct (bool_decide (fst kv = "distance")); [exact Hc | ].
  destruct (bool_decide (fst kv = "days")); [exact Hc | ].
  destruct (res_of_key (fst kv)) as [k|]; [ | exact Hc ].
  destruct (truthy (rc_max (res_config k (th_resources theme)))) eqn:Ht;
    simpl; intros k' Hk'; specialize (Hc k' Hk');
    rewrite !res_get_set; destruct (decide (k = k')) as [<-|Hne];
    try exact Hc.
  - rewrite decide_True by reflexivity.
    destruct (rc_max (res_config k (th_resources theme))) as [m|] eqn:Hm;
      [ | discriminate Ht ].
    destruct (res_get k (resources (state e))); [ | contradiction ].
    simpl. intros m' [= <-]. lia.
  - destruct (rc_max (res_config k (th_resources theme))) as [m|] eqn:Hm.
    + simpl in Ht. pose proof (Hpos k m Hk' Hm).
      destruct (m =? 0) eqn:H0; [lia | discriminate Ht].
    + destruct (res_get k (resources (state e))); [ | contradiction ].
      simpl. intros m' [=].
Qed.

(** The second loop of [applyEffects] raises every non-currency resource
    to 0 at least. *)
Lemma clamp_loop e k :
  k <> currency ->
  res_get k (resources (state (snd (forEach resourceKeys (fun key =>
     if bool_decide (key <> currency)
     then modify (upd_res key (fun v => max (Int 0) v))
     else mret tt) e))))
  = max (Int 0) (res_get k (resources (state e))).
Proof. intros Hk. destruct k; try congruence; reflexivity. Qed.

Lemma applyEffects_bounds effects :
  inv (within_bounds theme) (applyEffects theme effects).
Proof.
  intros e Hb. destruct effects as [effects|]; [ | exact Hb ].
  unfold applyEffects. apply within_bounds_capped in Hb.
  pose proof (inv_forEach (fun s => capped theme (resources s)) effects
                (apply_effect theme)
                (fun kv _ => apply_effect_capped kv) e Hb) as Hc.
  destruct (forEach_apply_effect theme effects e) as [e1 [He1 _]].
  rewrite He1 in Hc. simpl in Hc.
  unfold mbind at 1, Eng_bind at 1. rewrite He1.
  intros k Hk. rewrite (clamp_loop e1 k Hk).
  specialize (Hc k Hk). pose proof (Hpos k) as Hp.
  destruct (res_get k (resources (state e1))) as [z|]; [ | contradiction ].
  simpl. split; [lia | ].
  intros m Hm. specialize (Hc m Hm). specialize (Hp m Hk Hm). lia.
Qed.

Lemma within_bounds_upd k f s :
  within_bounds theme s ->
  (k <> currency ->
   in_bounds (res_config k (th_resources theme)) (res_get k (resources s)) ->
   in_bounds (res_config k (th_resources theme))
     (f (res_get k (resources s)))) ->
  within_bounds theme (upd_res k f s).
Proof.
  intros Hb Hf k' Hk'. unfold upd_res; simpl. rewrite res_get_set.
  destruct (decide (k = k')) as [<-|Hne]; [ | exact (Hb k' Hk') ].
  apply Hf; [exact Hk' | exact (Hb k Hk')].
Qed.

(** Closes the goal of a state update that keeps the ledger. *)
Ltac bounds_leaf :=
  first [ assumption
        | match goal with
          | H : within_bounds _ ?s |- within_bounds _ _ =>
              intros k Hk; exact (H k Hk)
          end ].

Lemma rest_bounds days : inv (within_bounds theme) (rest days).
Proof.
  intros e Hb. unfold rest. rewrite step_get. cbv zeta.
  destruct (ltb (r_food (resources (state e))) (Int 10)) eqn:Hfood;
    [exact Hb | ].
  rewrite step_modify.
  match goal with |- within_bounds theme (state (snd (?m ?e1))) =>
    apply (inv_apply (within_bounds theme) m e1)
  end.
  - inv_walk; bounds_leaf.
  - apply within_bounds_upd; [exact Hb | ]. intros _. simpl.
    destruct (r_food (resources (state e))) as [z|]; simpl;
      [ | intros [] ].
    simpl in Hfood. apply Z.ltb_ge in Hfood. intros [H0 Hm].
    split; [lia | ]. intros m Hmax. specialize (Hm m Hmax). lia.
Qed.

Lemma item_resource_not_currency type k :
  item_resource type = Some k -> k <> currency.
Proof.
  unfold item_resource. repeat case_bool_decide; congruence.
Qed.

Lemma buyItem_bounds itemId :
  clamped theme (OpBuyItem itemId) ->
  inv (within_bounds theme) (buyItem theme itemId).
Proof.
  intros Hcaps. simpl in Hcaps. unfold buyItem. inv_walk; try bounds_leaf.
  - (* the cost is taken from the currency *)
    apply within_bounds_upd; [assumption | congruence].
  - (* the bought resource is clamped to [0, max] *)
    apply within_bounds_upd; [assumption | ]. intros Hk.
    destruct (Hcaps _ Hk) as [m Hm]. pose proof (Hpos _ m Hk Hm).
    rewrite Hm.
    match goal with |- in_bounds _ ?v -> _ => destruct v as [z|] end;
      [ | contradiction ].
    simpl. intros _. split; [lia | ]. intros m' Hm'. rewrite Hm in Hm'.
    injection Hm' as <-. lia.
  - (* the guitar sets morale to min(max, 100) *)
    apply within_bounds_upd; [assumption | ]. intros Hk _.
    destruct (Hcaps _ Hk) as [m Hm]. pose proof (Hpos _ m Hk Hm).
    simpl in Hm. rewrite Hm. simpl. split; [lia | ].
    intros m' Hm'. simpl in Hm'. rewrite Hm in Hm'. injection Hm' as <-. lia.
Qed.

Lemma checkFailConditions_bounds :
  clamped theme OpCheckFailConditions ->
  inv (within_bounds theme) (checkFailConditions theme rnd).
Proof.
  intros [Hmor Hpar]. unfold checkFailConditions. inv_walk; try bounds_leaf.
  - apply within_bounds_upd; [assumption | ]. intros _ _.
    simpl. split; [lia | exact Hmor].
  - apply within_bounds_upd; [assumption | ]. intros _ _.
    simpl. split; [lia | ]. apply Hpar.
    match goal with H : (_ && _ && _) = true |- _ =>
      apply andb_prop in H; destruct H as [H _];
      apply andb_prop in H; destruct H as [H _];
      apply bool_decide_eq_true in H; exact H
    end.
Qed.

Lemma run_bounds op :
  clamped theme op -> inv (within_bounds theme) (run theme rnd op).
Proof.
  destruct op; intros Hop; try contradiction; unfold run, discard.
  - apply applyEffects_bounds.
  - apply inv_bind; [apply rest_bounds | intros; apply inv_ret].
  - apply inv_bind; [now apply buyItem_bounds | intros; apply inv_ret].
  - apply inv_bind; [now apply checkFailConditions_bounds
                    | intros; apply inv_ret].
  - unfold getRandomEvent. inv_walk; bounds_leaf.
  - unfold updateWeather. inv_walk; bounds_leaf.
  - inv_walk; bounds_leaf.
Qed.

Lemma constructor_bounds :
  start_in_bounds theme -> within_bounds theme (state (constructor theme)).
Proof. intros H k Hk. specialize (H k Hk). destruct k; exact H. Qed.

End Bounds.

(** C1, as the code has it.  In a theme whose configured maxima are
    positive, [applyEffects] and [rest] keep every non-currency resource
    within [[0, max]] (or [[0, ∞)] when uncapped) once it is there, and so
    do [buyItem] when the four maxima are configured and
    [checkFailConditions] when the morale maximum is at least 20 and a
    paranoia maximum at least 80; in particular any sequence of such
    operations from the initial state does, when the start values lie
    within the bounds. *)
Theorem resources_stay_clamped theme rnd (ops : list Op) e :
  caps_positive theme ->
  Forall (clamped theme) ops ->
  (within_bounds theme (state e) ->
   within_bounds theme (state (run_all theme rnd ops e)))
  /\ (start_in_bounds theme ->
      within_bounds theme (state (run_all theme rnd ops (constructor theme)))).
Proof.
  intros Hpos Hops.
  assert (H : forall e0, within_bounds theme (state e0) ->
                         within_bounds theme (state (run_all theme rnd ops e0))).
  { intros e0. apply (run_all_inv theme rnd _ (clamped theme)); [ | exact Hops ].
    intros op. now apply run_bounds. }
  split; [apply H | ].
  intros Hstart. apply H. now apply constructor_bounds.
Qed.

Lemma resources_stay_clamped_witness :
  within_bounds roswell
    (state (run_all roswell draws a_shopping_trip (constructor roswell))).
Proof.
  assert (Hpos : caps_positive roswell).
  { intros k m Hk; destruct k; simpl; intros [= <-]; lia || congruence. }
  assert (Hcfg : forall k, k <> currency ->
            is_Some (rc_max (res_config k (th_resources roswell)))).
  { intros k Hk; destruct k; simpl; eauto; congruence. }
  assert (Hfail : clamped roswell OpCheckFailConditions).
  { simpl. split; [ | intros _ ]; intros m [= <-]; lia. }
  assert (Hops : Forall (clamped roswell) a_shopping_trip).
  { unfold a_shopping_trip.
    repeat (apply Forall_cons; split); try apply Forall_nil;
      try exact Logic.I; assumption. }
  assert (Hstart : start_in_bounds roswell).
  { intros k Hk; destruct k; simpl; try congruence;
      (split; [lia | intros m [= <-]; lia]). }
  exact (proj2 (resources_stay_clamped roswell draws a_shopping_trip
                  (constructor roswell) Hpos Hops) Hstart).
Defined.

(** C1 as stated fails: [travel] and [forage] subtract without clamping.
    With 5 units of fuel at rush pace one day of travel leaves fuel at -13;
    a third forage at the same place with morale 5 leaves morale at -3. *)
Lemma travel_and_forage_do_not_clamp :
  within_bounds norcal (state (rushed_game norcal))
  /\ r_fuel (resources (state (exec (travel norcal draws) (rushed_game norcal))))
     = Int (-13)
  /\ ~ within_bounds norcal
         (state (exec (travel norcal draws) (rushed_game norcal)))
  /\ within_bounds norcal (state (overforaged_game norcal))
  /\ r_morale (resources (state (exec (forage norcal draws)
                                   (overforaged_game norcal))))
     = Int (-3)
  /\ ~ within_bounds norcal
         (state (exec (forage norcal draws) (overforaged_game norcal))).
Proof.
  assert (Hfuel : res_get fuel (resources (state (exec (travel norcal draws)
                                                    (rushed_game norcal))))
                  = Int (-13)) by (vm_compute; reflexivity).
  assert (Hmor : res_get morale (resources (state (exec (forage norcal draws)
                                                    (overforaged_game norcal))))
                 = Int (-3)) by (vm_compute; reflexivity).
  split; [ | split; [ | split; [ | split; [ | split ] ] ] ].
  - intros k Hk. destruct k; try (exfalso; apply Hk; reflexivity);
      vm_compute; (split; [discriminate | intros m [= <-]; discriminate]).
  - vm_compute. reflexivity.
  - intros H. specialize (H fuel ltac:(discriminate)).
    rewrite Hfuel in H. destruct H as [H _]. lia.
  - intros k Hk. destruct k; try (exfalso; apply Hk; reflexivity);
      vm_compute; (split; [discriminate | intros m [= <-]; discriminate]).
  - vm_compute. reflexivity.
  - intros H. specialize (H morale ltac:(discriminate)).
    rewrite Hmor in H. destruct H as [H _]. lia.
Qed.

(** * The recorded abandon reason *)

(** The test [paranoiaAbandonChance > abandonChance] is made after
    [abandonChance] was raised to the maximum of the two chances, so it
    never holds. *)
Lemma paranoia_test_is_dead (a p : Q) : Qgtb p (Qmax a p) = false.
Proof.
  unfold Qgtb, Qltb.
  replace (Qle_bool p (Qmax a p)) with true; [reflexivity | ].
  symmetry. apply Qle_bool_iff. apply Q.le_max_r.
Qed.

(** C2, evaluated on the code.  Whatever the chances, a member abandoned
    by the daily update is recorded with the doubt catalog's reason or the
    generic default, never with the paranoia-specific one: in a game with
    paranoia at 100 and morale at 74, where the paranoia chance (1) is
    greater than the morale chance (1/500) and than 0.1, the doubting
    member leaves with reason "gave up on the trip". *)
Theorem abandon_reason_ignores_paranoia :
  (forall theme rnd vibes member acc e acc',
     result (check_abandon theme rnd vibes member acc) e = Ok acc' ->
     acc' = acc
     \/ exists m, party (state e) !! member = Some m
          /\ acc' = acc ++ [{| ab_name := m_name m;
                               ab_reason :=
                                 str_or (find_doubt theme (doubt m)
                                           ≫= d_abandonReason)
                                   "gave up on the trip" |}])
  /\ Qgtb (paranoiaAbandonChance (Int 100)) (vibesAbandonChance (Int 74))
     = true
  /\ Qgtb (paranoiaAbandonChance (Int 100)) (1 # 10) = true
  /\ result (updatePartyMorale roswell draws) (panicked_game roswell)
     = Ok [{| ab_name := "Ann"; ab_reason := "gave up on the trip" |}].
Proof.
  split; [ | repeat split; vm_compute; reflexivity ].
  intros theme rnd vibes member acc e acc'.
  unfold result, check_abandon. rewrite step_get.
  destruct (party (state e) !! member) as [m|] eqn:Hm;
    [ | simpl; intros [= <-]; now left ].
  destruct (abandoned m || negb (doubting m));
    [ simpl; intros [= <-]; now left | ].
  cbv zeta. rewrite step_random.
  destruct (Qltb _ _); [ | simpl; intros [= <-]; now left ].
  rewrite paranoia_test_is_dead. cbn [andb].
  unfold modify_member. rewrite !step_modify. simpl.
  intros [= <-]. right. exists m. split; reflexivity.
Qed.

(** * Further properties of the engine *)

(** * More on the calendar *)

Lemma monthDays_lookup m :
  (m < 7)%nat -> exists len, monthDays !! m = Some len.
Proof.
  intros H. do 7 (destruct m as [|m]; [eexists; reflexivity | ]). lia.
Qed.

Lemma advance_loop_S fuel m d :
  advance_loop (S fuel) m d
  = match monthDays !! m with
    | Some len =>
        if d >? len
        then advance_loop fuel
               (if (length monthDays <=? S m)%nat then 0%nat else S m)
               (d - len)
        else (m, d)
    | None => (m, d)
    end.
Proof. reflexivity. Qed.

Lemma day_of_cycle_next m len d :
  monthDays !! m = Some len ->
  day_of_cycle (if (length monthDays <=? S m)%nat then 0%nat else S m)
    (d - len) mod cycle_length
  = day_of_cycle m d mod cycle_length.
Proof.
  intros Hlen.
  do 6 (destruct m as [|m];
    [ injection Hlen as <-; unfold day_of_cycle;
      cbn [length monthDays Nat.leb take fold_right]; f_equal; lia | ]).
  destruct m as [|m]; [ | discriminate Hlen ].
  injection Hlen as <-. unfold day_of_cycle, cycle_length.
  cbn [length monthDays Nat.leb take fold_right].
  replace (0 + (d - 30)) with (31 + (30 + (31 + (30 + (31 + (31 + 0))))) + d
                               + (-1) * (31 + (30 + (31 + (30 + (31 + (31 + (30 + 0))))))))
    by lia.
  apply Z.mod_add. lia.
Qed.

(** The loop of [advanceTime], from a day number that may exceed the month:
    it ends on a date of the calendar, the same day of the cycle. *)
Lemma advance_loop_valid fuel m d :
  (m < 7)%nat -> 1 <= d -> (Z.to_nat d <= fuel)%nat ->
  valid_date (fst (advance_loop fuel m d)) (snd (advance_loop fuel m d))
  /\ day_of_cycle (fst (advance_loop fuel m d)) (snd (advance_loop fuel m d))
       mod cycle_length
     = day_of_cycle m d mod cycle_length.
Proof.
  revert m d. induction fuel as [|fuel IH]; intros m d Hm Hd Hf; [lia | ].
  destruct (monthDays_lookup m Hm) as [len Hlen].
  pose proof (monthDays_pos m len Hlen) as Hpos.
  rewrite advance_loop_S, Hlen.
  destruct (Z.gtb_spec d len) as [Hgt|Hgt].
  - assert (Hnext : (match (length monthDays <=? S m)%nat with
                     | true => 0 | false => S m end < 7)%nat).
    { destruct (length monthDays <=? S m)%nat eqn:H7; [lia | ].
      apply Nat.leb_gt in H7. exact H7. }
    assert (H1 : 1 <= d - len) by lia.
    assert (H2 : (Z.to_nat (d - len) <= fuel)%nat) by lia.
    destruct (IH _ (d - len) Hnext H1 H2) as [Hv Hc].
    split; [exact Hv | ]. rewrite Hc. clear IH Hv Hc Hnext H2.
    now apply day_of_cycle_next.
  - simpl. split; [ | reflexivity ]. exists len. split; [exact Hlen | lia].
Qed.

(** X1. [advanceTime(days)] with a non-negative number of days, from a date
    of the calendar, ends on a date of the calendar exactly [days] days
    later in the seven-month cycle, and changes nothing but the month and
    the day. *)
Theorem advanceTime_adds_days days e :
  valid_date (month (state e)) (day (state e)) ->
  0 <= days ->
  let e' := exec (advanceTime days) e in
  result (advanceTime days) e = Ok tt
  /\ valid_date (month (state e')) (day (state e'))
  /\ day_of_cycle (month (state e')) (day (state e')) mod cycle_length
     = (day_of_cycle (month (state e)) (day (state e)) + days)
         mod cycle_length
  /\ e' = with_state (set_day (day (state e'))
                        (set_month (month (state e')) (state e))) e.
Proof.
  intros [len [Hlen [Hd1 Hd2]]] Hdays.
  assert (Hm : (month (state e) < 7)%nat)
    by (apply lookup_lt_Some in Hlen; exact Hlen).
  destruct (advance_loop_valid (Z.to_nat (day (state e) + days))
              (month (state e)) (day (state e) + days) Hm ltac:(lia)
              ltac:(lia)) as [Hv Hc].
  fold (advance_date (month (state e)) (day (state e) + days)) in Hv, Hc.
  assert (Hrun : advanceTime days e
    = (Ok tt,
       with_state
         (set_day (snd (advance_date (month (state e)) (day (state e) + days)))
            (set_month
               (fst (advance_date (month (state e)) (day (state e) + days)))
               (state e))) e)) by reflexivity.
  cbv zeta. unfold exec, result. rewrite Hrun.
  generalize dependent (advance_date (month (state e)) (day (state e) + days)).
  intros md Hv Hc _. simpl.
  split; [reflexivity | ]. split; [exact Hv | ]. split; [ | reflexivity ].
  rewrite Hc. unfold day_of_cycle. f_equal. lia.
Qed.

Lemma advanceTime_adds_days_witness :
  day_of_cycle (month (state (exec (advanceTime 45) (constructor norcal))))
    (day (state (exec (advanceTime 45) (constructor norcal))))
    mod cycle_length
  = (day_of_cycle (month (state (constructor norcal)))
       (day (state (constructor norcal))) + 45) mod cycle_length.
Proof.
  assert (Hdate : valid_date (month (state (constructor norcal)))
                    (day (state (constructor norcal)))).
  { exists 31. split; [reflexivity | simpl; lia]. }
  assert (Hdays : 0 <= 45) by lia.
  exact (proj1 (proj2 (proj2
    (advanceTime_adds_days 45 (constructor norcal) Hdate Hdays)))).
Defined.

(** X2. [advanceTime] never goes back a month: when the new day number
    does not exceed the month's length, in particular for a negative
    number of days, only the day counter moves, and it can reach 0 or
    below. *)
Theorem advanceTime_does_not_borrow days e len :
  monthDays !! month (state e) = Some len ->
  day (state e) + days <= len ->
  exec (advanceTime days) e
  = with_state (set_day (day (state e) + days) (state e)) e.
Proof.
  intros Hlen Hd. unfold exec, advanceTime, advance_date.
  rewrite step_modify. unfold modify. simpl.
  rewrite (advance_loop_stop _ _ _ len Hlen Hd). reflexivity.
Qed.

Lemma advanceTime_does_not_borrow_witness :
  exec (advanceTime (-3)) (constructor norcal)
  = with_state (set_day (day (state (constructor norcal)) + -3)
                  (state (constructor norcal))) (constructor norcal).
Proof.
  assert (Hd : day (state (constructor norcal)) + -3 <= 31)
    by (simpl; lia).
  exact (advanceTime_does_not_borrow (-3) (constructor norcal) 31 eq_refl Hd).
Defined.

(** * The journey phase *)

(** X3. [getCurrentPhase] throws exactly when the phase table is empty.
    Otherwise it returns the name of the first phase of the table whose
    [[startMile, endMile)] holds the distance: a phase that holds the
    distance is the one returned when no phase before it in the table
    does; and when no phase holds the distance it returns the last phase
    of the table. *)
Theorem getCurrentPhase_cases theme s :
  (phases (journey theme) = [] -> getCurrentPhase theme s = Throw TypeError)
  /\ (forall before ph after,
        phases (journey theme) = before ++ ph :: after ->
        (forall p, In p before ->
           ~ (startMile p <= distance s < endMile p)) ->
        startMile ph <= distance s < endMile ph ->
        getCurrentPhase theme s = Ok (ph_name ph))
  /\ (forall ph,
        last (phases (journey theme)) = Some ph ->
        (forall p, In p (phases (journey theme)) ->
           ~ (startMile p <= distance s < endMile p)) ->
        getCurrentPhase theme s = Ok (ph_name ph)).
Proof.
  unfold getCurrentPhase.
  assert (Hholds : forall p,
            (startMile p <=? distance s) && (distance s <? endMile p) = true
            <-> startMile p <= distance s < endMile p).
  { intros p. rewrite andb_true_iff, Z.leb_le, Z.ltb_lt. reflexivity. }
  split; [ | split ].
  - intros ->. reflexivity.
  - intros before ph after -> Hbefore Hph.
    assert (Hfind : List.find
              (fun ph => (startMile ph <=? distance s)
                         && (distance s <? endMile ph))
              (before ++ ph :: after) = Some ph).
    { induction before as [|p before IH]; cbn [app List.find].
      - apply Hholds in Hph. rewrite Hph. reflexivity.
      - destruct ((startMile p <=? distance s) && (distance s <? endMile p))
          eqn:Hp.
        + apply Hholds in Hp. destruct (Hbefore p (or_introl eq_refl) Hp).
        + apply IH. intros q Hq. apply Hbefore. now right. }
    rewrite Hfind. reflexivity.
  - intros ph Hlast Hnone.
    destruct (List.find _ (phases (journey theme))) as [p|] eqn:Hfind.
    + apply find_some in Hfind. destruct Hfind as [Hin Hp].
      apply Hholds in Hp. destruct (Hnone p Hin Hp).
    + rewrite Hlast. reflexivity.
Qed.

Lemma getCurrentPhase_cases_witness :
  getCurrentPhase roswell (state (new_game roswell)) = Ok "early".
Proof.
  assert (Htable : phases (journey roswell)
                   = [] ++ {| ph_name := "early"; startMile := 0;
                              endMile := 300 |}
                        :: [ {| ph_name := "middle"; startMile := 300;
                                endMile := 700 |};
                             {| ph_name := "late"; startMile := 700;
                                endMile := 1000 |} ]) by reflexivity.
  assert (Hhere : 0 <= distance (state (new_game roswell)) < 300)
    by (vm_compute; split; [discriminate | reflexivity]).
  exact (proj1 (proj2 (getCurrentPhase_cases roswell
                         (state (new_game roswell))))
           [] _ _ Htable (fun p (H : In p []) => match H with end) Hhere).
Defined.

(** * Effects with no recognised key *)

Lemma apply_effect_unrecognised theme kv e :
  recognised (fst kv) = false -> apply_effect theme kv e = (Ok tt, e).
Proof.
  unfold recognised, apply_effect. intros H.
  apply orb_false_iff in H. destruct H as [H Hres].
  apply orb_false_iff in H. destruct H as [Hd Hy].
  rewrite Hd, Hy. destruct (res_of_key (fst kv)); [discriminate | reflexivity].
Qed.

(** X4. [applyEffects] ignores the keys it does not know, yet it is not a
    no-op on them: with an effect map without any recognised key (the empty
    map included) it still raises every negative non-currency resource to
    0, and changes nothing else; with no map at all ([null]) it changes
    nothing. *)
Theorem applyEffects_unknown_keys_clamp theme effects e :
  Forall (fun kv => recognised (fst kv) = false) effects ->
  applyEffects theme (Some effects) e
  = (Ok tt,
     with_state (set_resources (clamp_resources (resources (state e)))
                   (state e)) e)
  /\ applyEffects theme None e = (Ok tt, e).
Proof.
  intros Hall. split; [ | reflexivity ].
  assert (Hloop : forEach effects (apply_effect theme) e = (Ok tt, e)).
  { induction Hall as [|kv effects Hkv Hrest IH]; [reflexivity | ].
    simpl. unfold mbind, Eng_bind.
    rewrite (apply_effect_unrecognised theme kv e Hkv). exact IH. }
  unfold applyEffects. unfold mbind at 1, Eng_bind at 1. rewrite Hloop.
  reflexivity.
Qed.

Lemma applyEffects_unknown_keys_clamp_witness :
  applyEffects norcal (Some [("parts", 2); ("karma", -1)])
    (exec (travel norcal draws) (rushed_game norcal))
  = (Ok tt,
     with_state
       (set_resources
          (clamp_resources
             (resources (state (exec (travel norcal draws)
                                  (rushed_game norcal)))))
          (state (exec (travel norcal draws) (rushed_game norcal))))
       (exec (travel norcal draws) (rushed_game norcal))).
Proof.
  assert (H : Forall (fun kv : string * Z => recognised (fst kv) = false)
                [("parts", 2); ("karma", -1)])
    by (repeat constructor).
  exact (proj1 (applyEffects_unknown_keys_clamp norcal _
                  (exec (travel norcal draws) (rushed_game norcal)) H)).
Defined.

(** * The shop *)

Lemma res_get_upd k k' f s :
  res_get k' (resources (upd_res k f s))
  = if decide (k = k') then f (res_get k (resources s))
    else res_get k' (resources s).
Proof. unfold upd_res; simpl. apply res_get_set. Qed.

Lemma buyItem_on_sale theme itemId item :
  List.find (fun i => bool_decide (i_id i = itemId)) (shopItems theme)
  = Some item ->
  exists onSale, shop theme = Some onSale
    /\ List.find (fun i => bool_decide (i_id i = itemId)) onSale = Some item.
Proof.
  unfold shopItems. destruct (shop theme) as [onSale|]; [eauto | discriminate].
Qed.

(** X5. In a theme without a shop [buyItem] throws a [TypeError] before it
    changes anything.  In a theme with a shop it refuses without touching
    the engine when the item id is unknown or the currency is below the
    cost; otherwise it succeeds and the currency afterwards is the
    currency before minus the cost, which is not negative: the shop never
    overdraws. *)
Theorem buyItem_never_overdraws theme itemId e c :
  r_currency (resources (state e)) = Int c ->
  (shop theme = None -> buyItem theme itemId e = (Throw TypeError, e))
  /\ (shop theme <> None ->
      List.find (fun i => bool_decide (i_id i = itemId)) (shopItems theme)
      = None ->
      buyItem theme itemId e = (Ok ItemNotFound, e))
  /\ (forall item,
        List.find (fun i => bool_decide (i_id i = itemId)) (shopItems theme)
        = Some item ->
        (c < i_cost item -> buyItem theme itemId e = (Ok NotEnoughCash, e))
        /\ (i_cost item <= c ->
            result (buyItem theme itemId) e = Ok Bought
            /\ r_currency (resources (state (exec (buyItem theme itemId) e)))
               = Int (c - i_cost item)
            /\ 0 <= c - i_cost item)).
Proof.
  intros Hc. split; [ | split ].
  - unfold buyItem. intros ->. reflexivity.
  - unfold buyItem, shopItems. destruct (shop theme); [ | contradiction ].
    intros _ Hnone. simpl in Hnone. rewrite Hnone. reflexivity.
  - intros item Hfind.
    destruct (buyItem_on_sale theme itemId item Hfind) as [onSale [Hshop Hsale]].
    clear Hfind. rename Hsale into Hfind. split.
    + intros Hlt. unfold buyItem. rewrite Hshop, Hfind, step_get, Hc.
      unfold ltb.
      destruct (Z.ltb_spec c (i_cost item)); [reflexivity | lia].
    + intros Hle.
      assert (Hrun : exists s',
                buyItem theme itemId e = (Ok Bought, with_state s' e)
                /\ res_get currency (resources s') = Int (c - i_cost item)).
      { unfold buyItem. rewrite Hshop, Hfind, step_get, Hc. unfold ltb.
        destruct (Z.ltb_spec c (i_cost item)); [lia | ]. cbv iota.
        rewrite step_modify.
        assert (Hcur : res_get currency (resources
                  (upd_res currency (fun v => sub v (Int (i_cost item)))
                     (state e))) = Int (c - i_cost item)).
        { rewrite res_get_upd, decide_True by reflexivity.
          simpl. rewrite Hc. reflexivity. }
        revert Hcur.
        generalize (upd_res currency (fun v => sub v (Int (i_cost item)))
                      (state e)).
        intros s1 Hcur.
        destruct (item_resource (i_type item)) as [k|] eqn:Hk.
        - rewrite step_modify. eexists. split; [reflexivity | ].
          pose proof (item_resource_not_currency _ _ Hk) as Hne.
          rewrite res_get_upd.
          destruct (decide (k = currency)); [contradiction | exact Hcur].
        - destruct (bool_decide (i_type item = "parts")).
          { rewrite step_modify. eexists. split; [reflexivity | exact Hcur]. }
          destruct (bool_decide (i_type item = "guitar")).
          { rewrite step_assoc, step_modify, step_modify.
            eexists. split; [reflexivity | exact Hcur]. }
          eexists. split; [reflexivity | exact Hcur]. }
      destruct Hrun as [s' [Hrun Hcur]].
      unfold exec, result. rewrite Hrun. simpl.
      split; [reflexivity | ]. split; [exact Hcur | lia].
Qed.

Lemma buyItem_never_overdraws_witness :
  r_currency (resources (state (exec (buyItem roswell "gas-can")
                                  (new_game roswell))))
  = Int (200 - 20).
Proof.
  assert (Hc : r_currency (resources (state (new_game roswell))) = Int 200)
    by (vm_compute; reflexivity).
  assert (Hle : 20 <= 200) by lia.
  exact (proj1 (proj2 (proj2 (proj2 (proj2
    (buyItem_never_overdraws roswell "gas-can" (new_game roswell) 200 Hc))
      {| i_id := "gas-can"; i_name := "Gas can"; i_cost := 20;
         i_type := "fuel"; i_amount := 30 |} eq_refl) Hle))).
Defined.

Lemma item_present_own items_ name v :
  items_ !! name = Some v -> item_present items_ name = item_truthy (Some v).
Proof. unfold item_present. intros ->. reflexivity. Qed.

(** X6. Buying a guitar-typed item makes the event condition ["hasGuitar"]
    true, and buying parts adds the amount to the [parts] counter
    ([state.items.parts || 0] before the purchase) that ["hasParts"]
    tests. *)
Theorem buying_satisfies_item_conditions theme itemId e item :
  List.find (fun i => bool_decide (i_id i = itemId)) (shopItems theme)
  = Some item ->
  ltb (r_currency (resources (state e))) (Int (i_cost item)) = false ->
  let s' := state (exec (buyItem theme itemId) e) in
  (i_type item = "guitar" ->
   checkEventCondition s' (CondStr "hasGuitar") = true)
  /\ (i_type item = "parts" ->
      items s' !! "parts"
      = Some (ItemCount (parts_owned (items (state e)) + i_amount item))
      /\ checkEventCondition s' (CondStr "hasParts")
         = item_truthy (items s' !! "parts")).
Proof.
  intros Hfind Hcash. cbv zeta. unfold exec, buyItem.
  destruct (buyItem_on_sale theme itemId item Hfind) as [onSale [Hshop Hsale]].
  rewrite Hshop, Hsale, step_get, Hcash, step_modify. split.
  - intros Ht. rewrite Ht.
    change (item_resource "guitar") with (@None ResKey). cbv iota.
    rewrite bool_decide_eq_false_2 by discriminate.
    rewrite bool_decide_eq_true_2 by reflexivity.
    rewrite step_assoc, step_modify, step_modify.
    unfold checkEventCondition.
    change (has_item_name "hasGuitar") with (Some "guitar"). cbv iota beta.
    rewrite (item_present_own _ _ (ItemFlag true));
      [reflexivity | simpl; apply lookup_insert_eq].
  - intros Ht. rewrite Ht.
    change (item_resource "parts") with (@None ResKey). cbv iota.
    rewrite bool_decide_eq_true_2 by reflexivity.
    rewrite step_modify. unfold checkEventCondition.
    change (has_item_name "hasParts") with (Some "parts"). cbv iota beta.
    match goal with
    | |- items ?s1 !! "parts" = _ /\ _ =>
        assert (Hparts : items s1 !! "parts"
                         = Some (ItemCount (parts_owned (items (state e))
                                            + i_amount item)))
    end;
      [ simpl; apply lookup_insert_eq | ].
    split; [exact Hparts | ].
    rewrite (item_present_own _ _ _ Hparts). rewrite Hparts. reflexivity.
Qed.

Lemma buying_satisfies_item_conditions_witness :
  checkEventCondition (state (exec (buyItem roswell "guitar")
                                (new_game roswell)))
    (CondStr "hasGuitar") = true.
Proof.
  assert (Hcash : ltb (r_currency (resources (state (new_game roswell))))
                    (Int 50) = false) by (vm_compute; reflexivity).
  exact (proj1 (buying_satisfies_item_conditions roswell "guitar"
                  (new_game roswell)
                  {| i_id := "guitar"; i_name := "Guitar"; i_cost := 50;
                     i_type := "guitar"; i_amount := 0 |} eq_refl Hcash)
           eq_refl).
Defined.

(** * More on the fail conditions *)

(** X7. With nobody in the party ([initializeParty] not called yet, or
    called with no names) [checkFailConditions] reports "allAbandoned":
    [every] holds of an empty roster.  The game is over ([alive] false)
    whatever the resources, and nothing else changes. *)
Theorem empty_party_fails theme rnd e :
  party (state e) = [] ->
  checkFailConditions theme rnd e
  = (Ok (Some (Fail "allAbandoned")), with_state (set_alive false (state e)) e)
  /\ checkFailConditions theme rnd (constructor theme)
     = (Ok (Some (Fail "allAbandoned")),
        with_state (set_alive false (state (constructor theme)))
          (constructor theme))
  /\ checkFailConditions theme rnd (exec (initializeParty []) e)
     = (Ok (Some (Fail "allAbandoned")),
        with_state (set_alive false (state (exec (initializeParty []) e)))
          (exec (initializeParty []) e)).
Proof.
  assert (H : forall e0, party (state e0) = [] ->
            checkFailConditions theme rnd e0
            = (Ok (Some (Fail "allAbandoned")),
               with_state (set_alive false (state e0)) e0)).
  { intros e0 Hp. unfold checkFailConditions. rewrite step_get, Hp.
    reflexivity. }
  intros Hp. split; [exact (H e Hp) | ].
  split; apply H; reflexivity.
Qed.

Lemma empty_party_fails_witness :
  checkFailConditions roswell draws (constructor roswell)
  = (Ok (Some (Fail "allAbandoned")),
     with_state (set_alive false (state (constructor roswell)))
       (constructor roswell)).
Proof.
  exact (proj1 (empty_party_fails roswell draws (constructor roswell) eq_refl)).
Defined.

(** X8. The terminal results: when [checkFailConditions] returns a [fail]
    result, the reason is one of the four terminal ones, the only change
    to the engine is [alive := false], and no random number was drawn;
    when it returns [null] the engine is unchanged. *)
Theorem fail_results_only_end_the_game theme rnd e :
  (forall reason,
     result (checkFailConditions theme rnd) e = Ok (Some (Fail reason)) ->
     In reason ["allAbandoned"; "noFuel"; "starved"; "timeExpired"]
     /\ exec (checkFailConditions theme rnd) e
        = with_state (set_alive false (state e)) e)
  /\ (result (checkFailConditions theme rnd) e = Ok None ->
      exec (checkFailConditions theme rnd) e = e).
Proof.
  unfold result, exec, checkFailConditions. rewrite step_get. cbv zeta.
  destruct (forallb abandoned (party (state e)));
    [ split; [intros reason [= <-]; split; [simpl; tauto | reflexivity]
             | discriminate ] | ].
  destruct (leb (r_fuel (resources (state e))) (Int 0));
    [ split; [intros reason [= <-]; split; [simpl; tauto | reflexivity]
             | discriminate ] | ].
  destruct (leb (r_food (resources (state e))) (Int (-20)));
    [ split; [intros reason [= <-]; split; [simpl; tauto | reflexivity]
             | discriminate ] | ].
  destruct (time_expired theme (state e));
    [ split; [intros reason [= <-]; split; [simpl; tauto | reflexivity]
             | discriminate ] | ].
  destruct (_ && _).
  { rewrite step_random. destruct (js_index _ _);
      (split; [intros reason Hr | intros Hr]; discriminate Hr). }
  destruct (_ && _).
  { rewrite step_random. destruct (js_index _ _);
      (split; [intros reason Hr | intros Hr]; discriminate Hr). }
  split; [intros reason Hr; discriminate Hr | intros _; destruct e; reflexivity].
Qed.

Lemma fail_results_only_end_the_game_witness :
  In "noFuel" ["allAbandoned"; "noFuel"; "starved"; "timeExpired"]
  /\ exec (checkFailConditions roswell draws) (stranded_game roswell)
     = with_state (set_alive false (state (stranded_game roswell)))
         (stranded_game roswell).
Proof.
  assert (Hr : result (checkFailConditions roswell draws)
                 (stranded_game roswell) = Ok (Some (Fail "noFuel")))
    by (vm_compute; reflexivity).
  exact (proj1 (fail_results_only_end_the_game roswell draws
                  (stranded_game roswell)) "noFuel" Hr).
Defined.

(** X9. The paranoia channel.  In a theme whose special item is named
    "Paranoia", when the special item is at 100 or more, some member is
    still active, no terminal branch applies and morale is above 0,
    [checkFailConditions] draws twice: the first draw picks the victim
    among the active members, the second a reason in the fixed list.  The
    victim is marked abandoned, the reason is stored in the member's
    [reason] field (the [abandonReason] field that the daily update
    writes is left as it was), the special item is set to 80, morale is
    untouched and the game goes on. *)
Theorem paranoia_abandonment theme rnd e :
  rc_name (t_specialItem (th_resources theme)) = "Paranoia" ->
  geb (r_specialItem (resources (state e))) (Int 100) = true ->
  (exists i m, party (state e) !! i = Some m /\ abandoned m = false) ->
  leb (r_fuel (resources (state e))) (Int 0) = false ->
  leb (r_food (resources (state e))) (Int (-20)) = false ->
  time_expired theme (state e) = false ->
  leb (r_morale (resources (state e))) (Int 0) = false ->
  (0 <= rnd (drawn e) < 1)%Q ->
  (0 <= rnd (S (drawn e)) < 1)%Q ->
  let stillHere := filter_idx (fun m => negb (abandoned m)) (party (state e)) in
  let e' := exec (checkFailConditions theme rnd) e in
  exists victim m reason,
    js_index stillHere (random_index (rnd (drawn e)) (length stillHere))
    = Some victim
    /\ js_index paranoiaReasons
         (random_index (rnd (S (drawn e))) (length paranoiaReasons))
       = Some reason
    /\ party (state e) !! victim = Some m
    /\ abandoned m = false
    /\ result (checkFailConditions theme rnd) e
       = Ok (Some (ParanoiaAbandonment victim))
    /\ party (state e')
       = <[victim := set_m_reason (Some reason) (set_abandoned true m)]>
           (party (state e))
    /\ r_specialItem (resources (state e')) = Int 80
    /\ r_morale (resources (state e')) = r_morale (resources (state e))
    /\ alive (state e') = alive (state e)
    /\ drawn e' = S (S (drawn e)).
Proof.
  intros Hname Hpar [i [m0 [Hi Hact]]] Hfuel Hfood Htime Hmor Hr1 Hr2.
  cbv zeta.
  set (stillHere := filter_idx (fun m => negb (abandoned m)) (party (state e))).
  assert (Hall : forallb abandoned (party (state e)) = false).
  { destruct (forallb abandoned (party (state e))) eqn:Hall; [ | reflexivity ].
    rewrite forallb_forall in Hall.
    rewrite (Hall m0) in Hact; [discriminate | ].
    apply list_elem_of_In. eapply list_elem_of_lookup_2. exact Hi. }
  assert (Hlen : (0 < length stillHere)%nat).
  { assert (Hin : In i stillHere)
      by (apply (filter_idx_complete _ _ i m0 Hi); now rewrite Hact).
    destruct stillHere; [destruct Hin | simpl; lia]. }
  destruct (js_index_range stillHere _
              (random_index_range _ _ Hr1 Hlen)) as [victim [Hv Hvin]].
  destruct (filter_idx_spec _ _ _ Hvin) as [m [Hm Hmact]].
  destruct (js_index_range paranoiaReasons _
              (random_index_range _ (length paranoiaReasons) Hr2
                 ltac:(simpl; lia))) as [reason [Hreason _]].
  exists victim, m, reason.
  assert (Hrun : checkFailConditions theme rnd e
    = (Ok (Some (ParanoiaAbandonment victim)),
       {| state := upd_res specialItem (fun _ => Int 80)
            (set_party
               (alter (set_m_reason (Some reason)) victim
                  (alter (set_abandoned true) victim (party (state e))))
               (state e));
          eventHistory := eventHistory e; drawn := S (S (drawn e)) |})).
  { unfold checkFailConditions. rewrite step_get. cbv zeta.
    rewrite Hall, Hfuel, Hfood, Htime, Hmor, Hpar.
    fold stillHere.
    rewrite bool_decide_eq_true_2 by exact Hname.
    replace (0 <? length stillHere)%nat with true
      by (symmetry; apply Nat.ltb_lt; exact Hlen).
    cbn [andb]. rewrite step_random, Hv.
    unfold modify_member. rewrite step_modify, step_random.
    cbn [drawn with_state]. rewrite Hreason. reflexivity. }
  unfold exec, result. rewrite Hrun. simpl.
  split; [exact Hv | ]. split; [exact Hreason | ].
  split; [exact Hm | ].
  split; [destruct (abandoned m); [discriminate | reflexivity] | ].
  split; [reflexivity | ].
  split; [ | repeat split ].
  apply list_eq. intros j. destruct (decide (j = victim)) as [->|Hne].
  - rewrite !list_lookup_alter_eq, Hm. simpl.
    rewrite list_lookup_insert_eq; [reflexivity | ].
    eapply lookup_lt_Some; exact Hm.
  - rewrite !list_lookup_alter_ne by congruence.
    rewrite list_lookup_insert_ne by congruence. reflexivity.
Qed.

Lemma paranoia_abandonment_witness :
  exists victim,
    result (checkFailConditions roswell draws) (panicked_game roswell)
    = Ok (Some (ParanoiaAbandonment victim))
    /\ r_specialItem (resources (state (exec (checkFailConditions roswell draws)
                                          (panicked_game roswell)))) = Int 80.
Proof.
  assert (Hpar : geb (r_specialItem (resources (state (panicked_game roswell))))
                   (Int 100) = true) by (vm_compute; reflexivity).
  assert (Hact : exists i m,
             party (state (panicked_game roswell)) !! i = Some m
             /\ abandoned m = false).
  { exists 1%nat. eexists. split; vm_compute; reflexivity. }
  assert (Hfuel : leb (r_fuel (resources (state (panicked_game roswell))))
                    (Int 0) = false) by (vm_compute; reflexivity).
  assert (Hfood : leb (r_food (resources (state (panicked_game roswell))))
                    (Int (-20)) = false) by (vm_compute; reflexivity).
  assert (Htime : time_expired roswell (state (panicked_game roswell)) = false)
    by (vm_compute; reflexivity).
  assert (Hmor : leb (r_morale (resources (state (panicked_game roswell))))
                   (Int 0) = false) by (vm_compute; reflexivity).
  assert (Hr1 : (0 <= draws (drawn (panicked_game roswell)) < 1)%Q)
    by (split; vm_compute; [discriminate | reflexivity]).
  assert (Hr2 : (0 <= draws (S (drawn (panicked_game roswell))) < 1)%Q)
    by (split; vm_compute; [discriminate | reflexivity]).
  destruct (paranoia_abandonment roswell draws (panicked_game roswell)
              eq_refl Hpar Hact Hfuel Hfood Htime Hmor Hr1 Hr2)
    as [victim [m [reason [_ [_ [_ [_ [Hres [_ [Hsp _]]]]]]]]]].
  exists victim. split; [exact Hres | exact Hsp].
Defined.

(** * Arriving *)

(** X10. When [checkLocationArrival] reports an arrival or a win, the
    reported location is the one [getCurrentLocation()] returns from then
    on, the forage counter is back to 0, and morale is
    [Math.min(morale.max, morale + boost)] at a landmark with a boost (so at
    most the configured maximum; [NaN] in a theme that configures no
    morale maximum), and unchanged elsewhere. *)
Theorem arrival_bookkeeping theme e r :
  result (checkLocationArrival theme) e = Ok (Some r) ->
  let e' := exec (checkLocationArrival theme) e in
  let loc := match r with Win l => l | Arrival l => l end in
  getCurrentLocation theme (state e') = Some loc
  /\ distance (state e) >= loc_distance loc
  /\ forageCount (state e') = 0%nat
  /\ r_morale (resources (state e'))
     = match landmark_boost loc with
       | Some boost =>
           min (of_undef (rc_max (t_morale (th_resources theme))))
             (add (r_morale (resources (state e))) (Int boost))
       | None => r_morale (resources (state e))
       end
  /\ (forall boost z cap,
        landmark_boost loc = Some boost ->
        r_morale (resources (state e)) = Int z ->
        rc_max (t_morale (th_resources theme)) = Some cap ->
        r_morale (resources (state e')) = Int (Z.min cap (z + boost)))
  /\ (forall boost,
        landmark_boost loc = Some boost ->
        rc_max (t_morale (th_resources theme)) = None ->
        r_morale (resources (state e')) = NaN).
Proof.
  unfold result, exec, checkLocationArrival, getCurrentLocation.
  rewrite step_get.
  destruct (locations theme !! (currentLocationIndex (state e) + 1)%nat)
    as [nextLoc|] eqn:Hnext; [ | discriminate ].
  replace (currentLocationIndex (state e) + 1)%nat
    with (S (currentLocationIndex (state e))) in Hnext by lia.
  destruct (Z.geb_spec (distance (state e)) (loc_distance nextLoc))
    as [Hd|Hd]; [ | discriminate ].
  rewrite !step_modify.
  assert (Hloc : forall r0 : ArrivalResult,
             Some r0 = Some r -> (r0 = Win nextLoc \/ r0 = Arrival nextLoc) ->
             match r with Win l => l | Arrival l => l end = nextLoc).
  { intros r0 [= <-] [->| ->]; reflexivity. }
  destruct (landmark_boost nextLoc) as [boost|] eqn:Hboost;
    [ rewrite step_modify | rewrite step_ret ];
    destruct (bool_decide (loc_name nextLoc = endLocation (journey theme)));
    try rewrite step_modify; cbn [fst snd mret Eng_ret];
    intros [= Hr]; cbv zeta;
    (rewrite (Hloc _ (f_equal Some Hr)) by tauto); rewrite Hboost; simpl;
    (split; [exact Hnext | ]); (split; [lia | ]); (split; [reflexivity | ]);
    (split; [reflexivity | ]); split.
  all: try (intros b z cap [= <-] Hz Hcap; rewrite Hz, Hcap; reflexivity).
  all: try (intros b [= <-] Hcap; rewrite Hcap;
            destruct (r_morale (resources (state e))); reflexivity).
  all: try (intros; discriminate).
Qed.

Lemma arrival_bookkeeping_witness :
  getCurrentLocation roswell
    (state (exec (checkLocationArrival roswell)
              (exec (applyEffects roswell (Some [("distance", 60)]))
                 (new_game roswell))))
  = Some (place "Socorro" 50 (Some 10)).
Proof.
  assert (H : result (checkLocationArrival roswell)
                (exec (applyEffects roswell (Some [("distance", 60)]))
                   (new_game roswell))
              = Ok (Some (Arrival (place "Socorro" 50 (Some 10)))))
    by (vm_compute; reflexivity).
  exact (proj1 (arrival_bookkeeping roswell
                  (exec (applyEffects roswell (Some [("distance", 60)]))
                     (new_game roswell)) _ H)).
Defined.

(** * Item conditions *)

Lemma lower_upper_ascii c :
  is_lower c = true -> lower_ascii (upper_ascii c) = c.
Proof.
  destruct c as [[] [] [] [] [] [] [] []]; vm_compute;
    intros H; first [reflexivity | discriminate H].
Qed.

(** X11. Item conditions are resolved by name: for an item name that
    starts with a lower-case ASCII letter and holds no line terminator,
    the condition string "has" followed by the capitalised name is
    decided by the entry of that name in [state.items]: true exactly when
    the entry is truthy (a nonzero count, or [true]).  When [state.items]
    has no entry of that name the condition is still true for the names
    that every object inherits ([constructor], [toString], [valueOf] and
    the like), and false for every other name. *)
Theorem item_condition_lookup s c rest :
  is_lower c = true ->
  has_line_terminator (String c rest) = false ->
  checkEventCondition s
    (CondStr (String "h" (String "a" (String "s"
                (String (upper_ascii c) rest)))))
  = match items s !! String c rest with
    | Some v => item_truthy (Some v)
    | None => bool_decide (String c rest ∈ objectPrototype)
    end.
Proof.
  intros Hc Hlt. unfold checkEventCondition, has_item_name.
  assert (Hlt' : has_line_terminator (String (upper_ascii c) rest) = false).
  { cbn [has_line_terminator] in *.
    apply orb_false_iff in Hlt. destruct Hlt as [_ Hrest].
    rewrite Hrest, orb_false_r. clear - Hc.
    destruct rest as [|b [|d r]];
      destruct c as [[] [] [] [] [] [] [] []]; vm_compute in Hc;
      first [discriminate Hc | reflexivity]. }
  rewrite Hlt', (lower_upper_ascii c Hc). reflexivity.
Qed.

Lemma item_condition_lookup_witness :
  checkEventCondition (state (game_with_guitar roswell))
    (CondStr (String "h" (String "a" (String "s"
                (String (upper_ascii "g") "uitar")))))
  = match items (state (game_with_guitar roswell)) !! "guitar" with
    | Some v => item_truthy (Some v)
    | None => bool_decide ("guitar" ∈ objectPrototype)
    end.
Proof.
  exact (item_condition_lookup (state (game_with_guitar roswell)) "g" "uitar"
           eq_refl eq_refl).
Defined.

(** * Operations that return *)

Section ReturnRules.

Lemma returns_ret {A} (a : A) : returns (mret a).
Proof. intros e; eexists _, _; reflexivity. Qed.

Lemma returns_get : returns get.
Proof. intros e; eexists _, _; reflexivity. Qed.

Lemma returns_modify f : returns (modify f).
Proof. intros e; eexists _, _; reflexivity. Qed.

Lemma returns_push_history h : returns (push_history h).
Proof. intros e; eexists _, _; reflexivity. Qed.

Lemma returns_lift {A} (a : A) : returns (lift (Ok a)).
Proof. intros e; eexists _, _; reflexivity. Qed.

Lemma returns_bind {A B} (m : Eng A) (f : A -> Eng B) :
  returns m -> (forall a, returns (f a)) -> returns (m ≫= f).
Proof.
  intros Hm Hf e. destruct (Hm e) as [a [e' He]].
  unfold mbind, Eng_bind. rewrite He. apply Hf.
Qed.

(** What is drawn is an element of the stream. *)
Lemma returns_random_bind {B} rnd (f : Q -> Eng B) :
  (forall n, returns (f (rnd n))) -> returns (random rnd ≫= f).
Proof. intros Hf e. rewrite step_random. apply Hf. Qed.

Lemma returns_forEach {A} (l : list A) (body : A -> Eng unit) :
  (forall x, In x l -> returns (body x)) -> returns (forEach l body).
Proof.
  induction l as [|x l IH]; intros Hb; simpl.
  - apply returns_ret.
  - apply returns_bind; [apply Hb; now left | ].
    intros _. apply IH. intros y Hy. apply Hb; now right.
Qed.

Lemma returns_foldEach {A B} (l : list A) (acc : B) (body : A -> B -> Eng B) :
  (forall x b, In x l -> returns (body x b)) -> returns (foldEach l acc body).
Proof.
  revert acc. induction l as [|x l IH]; intros acc Hb; simpl.
  - apply returns_ret.
  - apply returns_bind; [apply Hb; now left | ].
    intros acc'. apply IH. intros y b Hy. apply Hb; now right.
Qed.

End ReturnRules.

Create HintDb retdb.

Ltac ret_step :=
  first [ solve [ auto 2 with nocore retdb ] | idtac ];
  lazymatch goal with
  | |- returns (mbind _ (random _)) => apply returns_random_bind; intros ?
  | |- returns (mbind _ _) => apply returns_bind; [ | intros ? ]
  | |- returns (mret _) => apply returns_ret
  | |- returns get => apply returns_get
  | |- returns (lift (Ok _)) => apply returns_lift
  | |- returns (push_history _) => apply returns_push_history
  | |- returns (forEach _ _) => apply returns_forEach; intros ? ?
  | |- returns (foldEach _ _ _) => apply returns_foldEach; intros ? ? ?
  | |- returns (modify_member _ _) => unfold modify_member
  | |- returns (modify _) => apply returns_modify
  | |- returns (advanceTime _) => unfold advanceTime
  | |- returns (if ?b then _ else _) => destruct b eqn:?
  | |- returns (match ?x with _ => _ end) => destruct x eqn:?
  | |- returns (let _ := _ in _) => cbv zeta
  end.

Ltac ret_walk := repeat ret_step.

Lemma fallback_nonempty {A} (X D : list A) :
  D <> [] -> (if (length X =? 0)%nat then D else X) <> [].
Proof.
  intros HD. destruct (length X =? 0)%nat eqn:H; [exact HD | ].
  intros ->. discriminate H.
Qed.

Lemma js_index_drawn {A} (l : list A) r :
  (0 <= r < 1)%Q -> l <> [] -> js_index l (random_index r (length l)) <> None.
Proof.
  intros Hr Hl.
  assert (Hlen : (0 < length l)%nat) by (destruct l; [contradiction | simpl; lia]).
  destruct (js_index_range l _ (random_index_range r _ Hr Hlen)) as [x [Hx _]].
  rewrite Hx. discriminate.
Qed.

Section Returns.

Variable theme : Theme.
Variable rnd : nat -> Q.
Hypothesis Hwf : well_formed theme.
Hypothesis Hrnd : unit_draws rnd.

Lemma lift_phase_returns s : returns (lift (getCurrentPhase theme s)).
Proof.
  destruct (getCurrentPhase_ok theme s (proj1 Hwf)) as [ph ->].
  apply returns_lift.
Qed.

Lemma lift_rates_returns s : returns (lift (getConsumptionRates theme s)).
Proof.
  destruct (getConsumptionRates_ok theme s (proj1 Hwf)) as [c ->].
  apply returns_lift.
Qed.

Lemma lift_base_returns s : returns (lift (getProfessionBaseDrain theme s)).
Proof.
  unfold getProfessionBaseDrain.
  destruct (profession s) as [id|]; [ | apply returns_lift ].
  destruct (bool_decide (id = "")); [apply returns_lift | ].
  destruct (getCurrentPhase_ok theme s (proj1 Hwf)) as [ph ->].
  apply returns_lift.
Qed.

#[local] Hint Resolve lift_phase_returns lift_rates_returns lift_base_returns
  : retdb.

Lemma promote_returns member : returns (promote theme rnd member).
Proof.
  unfold promote. ret_walk.
  all: match goal with
       | H : js_index ?l (random_index (rnd ?n) (length ?l)) = None |- _ =>
           exfalso; revert H; apply js_index_drawn; [apply Hrnd | ];
           apply fallback_nonempty; exact (proj1 (proj2 Hwf))
       end.
Qed.

#[local] Hint Resolve promote_returns : retdb.

Lemma updatePartyMorale_returns : returns (updatePartyMorale theme rnd).
Proof. unfold updatePartyMorale, drain, check_abandon. ret_walk. Qed.

Lemma updateWeather_returns : returns (updateWeather rnd).
Proof. unfold updateWeather. ret_walk. Qed.

Lemma checkLocationArrival_returns : returns (checkLocationArrival theme).
Proof. unfold checkLocationArrival. ret_walk. Qed.

#[local] Hint Resolve updatePartyMorale_returns updateWeather_returns
  checkLocationArrival_returns : retdb.

Lemma travel_returns : returns (travel theme rnd).
Proof. unfold travel. ret_walk. Qed.

Lemma applyEffects_returns effects : returns (applyEffects theme effects).
Proof. unfold applyEffects, apply_effect. ret_walk. Qed.

Lemma checkFailConditions_returns : returns (checkFailConditions theme rnd).
Proof.
  unfold checkFailConditions. ret_walk.
  all: match goal with
       | H : js_index ?l (random_index (rnd ?n) (length ?l)) = None,
         Hc : (_ && (0 <? length ?l)%nat) = true |- _ =>
           exfalso; revert H; apply js_index_drawn; [apply Hrnd | ];
           apply andb_prop in Hc; destruct Hc as [_ Hc];
           apply Nat.ltb_lt in Hc; intros Hl; rewrite Hl in Hc;
           simpl in Hc; lia
       end.
Qed.

Lemma buyItem_returns itemId : returns (buyItem theme itemId).
Proof.
  unfold buyItem.
  destruct (shop theme) as [onSale|] eqn:Hshop;
    [ | destruct (proj2 (proj2 Hwf) Hshop) ].
  ret_walk.
Qed.

Lemma run_returns op :
  op <> OpGetRandomEvent -> returns (run theme rnd op).
Proof.
  intros Hop.
  destruct op; try contradiction; unfold run, discard;
    try (apply returns_bind; [ | intros; apply returns_ret ]);
    auto using travel_returns, applyEffects_returns,
      checkFailConditions_returns, updatePartyMorale_returns,
      updateWeather_returns, checkLocationArrival_returns, buyItem_returns.
  - unfold forage. ret_walk.
  - unfold rest. ret_walk.
  - ret_walk.
Qed.

End Returns.

(** X12. On a theme with a shop and with a phase table and a doubt catalog
    that are not empty, and with draws in [[0, 1)], the engine's own
    operations do not throw: every one of [travel], [applyEffects],
    [forage], [rest], [buyItem], [checkLocationArrival],
    [checkFailConditions], [updatePartyMorale], [updateWeather] and
    [advanceTime] returns, from every state.  [getRandomEvent] is left
    out: it runs the condition functions of the theme's events and reads
    the pool under the name of the phase, and either can throw. *)
Theorem operations_return theme rnd op e :
  well_formed theme ->
  unit_draws rnd ->
  op <> OpGetRandomEvent ->
  exists e', run theme rnd op e = (Ok tt, e').
Proof.
  intros Hwf Hrnd Hop.
  destruct (run_returns theme rnd Hwf Hrnd op Hop e) as [[] [e' H]].
  exists e'. exact H.
Qed.

Lemma draws_in_unit : unit_draws draws.
Proof.
  intros n. unfold draws. destruct (n mod 3)%nat as [|[|k]];
    split; vm_compute; first [discriminate | reflexivity].
Qed.

Lemma operations_return_witness :
  exists e', run roswell draws OpTravel (new_game roswell) = (Ok tt, e').
Proof.
  assert (Hwf : well_formed roswell)
    by (repeat split; simpl; discriminate).
  assert (Hop : OpTravel <> OpGetRandomEvent) by discriminate.
  exact (operations_return roswell draws OpTravel (new_game roswell) Hwf
           draws_in_unit Hop).
Defined.

(** * A theme without doubts *)

Lemma step_throw {A B} (m : Eng A) (k : A -> Eng B) e x e1 :
  m e = (Throw x, e1) -> (m ≫= k) e = (Throw x, e1).
Proof. intros H. unfold mbind, Eng_bind. rewrite H. reflexivity. Qed.

Lemma js_index_nil {A} (i : Z) : js_index (@nil A) i = None.
Proof. unfold js_index. destruct (i <? 0); reflexivity. Qed.

Lemma promote_throws theme rnd member e :
  doubts theme = [] ->
  exists n,
    promote theme rnd member e
    = (Throw TypeError,
       {| state := set_party (alter (set_doubting true) member
                                (party (state e))) (state e);
          eventHistory := eventHistory e;
          drawn := n |}).
Proof.
  intros Hd. unfold promote, modify_member, doubts_by_trigger.
  rewrite step_modify, step_get. cbv zeta. rewrite Hd. simpl List.filter.
  destruct (_ && _); [ rewrite step_ret | ].
  { simpl. rewrite step_random, js_index_nil. eexists. reflexivity. }
  destruct (_ && _); [ rewrite step_ret | ].
  { simpl. rewrite step_random, js_index_nil. eexists. reflexivity. }
  destruct (_ && _).
  { rewrite step_assoc, step_random, step_ret. simpl.
    rewrite step_random, js_index_nil. eexists. reflexivity. }
  rewrite step_ret. simpl. rewrite step_random, js_index_nil.
  eexists. reflexivity.
Qed.

(** X13. The doubt catalog is needed: in a theme whose catalog is empty,
    as soon as the daily update has to make a member doubt (fewer active
    doubters than the morale level asks for, and an active member who does
    not doubt yet), [updatePartyMorale] throws a [TypeError], after it has
    marked that member as doubting; nothing is rolled back. *)
Theorem updatePartyMorale_needs_doubts theme rnd e member others :
  doubts theme = [] ->
  (length (filter_idx (fun m => negb (abandoned m) && doubting m)
             (party (state e)))
   < targetDoubters (r_morale (resources (state e))))%nat ->
  List.filter (fun i => match party (state e) !! i with
                        | Some m => negb (doubting m)
                        | None => false
                        end)
    (filter_idx (fun m => negb (abandoned m)) (party (state e)))
  = member :: others ->
  result (updatePartyMorale theme rnd) e = Throw TypeError
  /\ state (exec (updatePartyMorale theme rnd) e)
     = set_party (alter (set_doubting true) member (party (state e)))
         (state e).
Proof.
  intros Hd Hlt Hnd.
  destruct (promote_throws theme rnd member e Hd) as [n Hp].
  assert (Hrun : updatePartyMorale theme rnd e
    = (Throw TypeError,
       {| state := set_party (alter (set_doubting true) member
                                (party (state e))) (state e);
          eventHistory := eventHistory e; drawn := n |})).
  { unfold updatePartyMorale. rewrite step_get. cbv zeta.
    rewrite (proj2 (Nat.ltb_lt _ _) Hlt), Hnd.
    apply step_throw.
    destruct (targetDoubters (r_morale (resources (state e)))
              - length (filter_idx (fun m => negb (abandoned m) && doubting m)
                          (party (state e))))%nat as [|k] eqn:Hk; [lia | ].
    simpl. apply step_throw. exact Hp. }
  unfold result, exec. rewrite Hrun. split; reflexivity.
Qed.

Lemma updatePartyMorale_needs_doubts_witness :
  result (updatePartyMorale doubtless draws) (low_morale_game doubtless)
  = Throw TypeError.
Proof.
  assert (Hlt : (length (filter_idx (fun m => negb (abandoned m) && doubting m)
                           (party (state (low_morale_game doubtless))))
                 < targetDoubters
                     (r_morale (resources (state (low_morale_game doubtless)))))%nat)
    by (vm_compute; lia).
  assert (Hnd : List.filter
                  (fun i => match party (state (low_morale_game doubtless)) !! i
                            with
                            | Some m => negb (doubting m)
                            | None => false
                            end)
                  (filter_idx (fun m => negb (abandoned m))
                     (party (state (low_morale_game doubtless))))
                = 0%nat :: [1%nat; 2%nat]) by (vm_compute; reflexivity).
  exact (proj1 (updatePartyMorale_needs_doubts doubtless draws
                  (low_morale_game doubtless) 0%nat [1%nat; 2%nat]
                  eq_refl Hlt Hnd)).
Defined.

(** * The daily update in good spirits *)

Lemma forEach_noop {A} (l : list A) (body : A -> Eng unit) e :
  (forall x, In x l -> body x e = (Ok tt, e)) -> forEach l body e = (Ok tt, e).
Proof.
  induction l as [|x l IH]; intros Hb; simpl; [reflexivity | ].
  unfold mbind, Eng_bind. rewrite (Hb x) by now left.
  apply IH. intros y Hy. apply Hb. now right.
Qed.

Lemma foldEach_noop {A B} (l : list A) (acc : B) (body : A -> B -> Eng B) e :
  (forall x, In x l -> body x acc e = (Ok acc, e)) ->
  foldEach l acc body e = (Ok acc, e).
Proof.
  induction l as [|x l IH]; intros Hb; simpl; [reflexivity | ].
  unfold mbind, Eng_bind. rewrite (Hb x) by now left.
  apply IH. intros y Hy. apply Hb. now right.
Qed.

Lemma set_party_same s : set_party (party s) s = s.
Proof. destruct s; reflexivity. Qed.

Lemma with_state_same e : with_state (state e) e = e.
Proof. destruct e; reflexivity. Qed.

Lemma cure_body member e :
  (s ← get;
   match party s !! member with
   | Some m =>
       if doubting m then
         modify_member member (set_doubting false);;
         modify_member member (set_doubt None)
       else mret tt
   | None => mret tt
   end) e
  = (Ok tt,
     with_state (set_party (alter cure_doubter member (party (state e)))
                   (state e)) e).
Proof.
  rewrite step_get.
  assert (Hsame : alter cure_doubter member (party (state e)) = party (state e)
                  -> (Ok tt, e)
                     = (Ok tt,
                        with_state
                          (set_party (alter cure_doubter member (party (state e)))
                             (state e)) e)).
  { intros ->. now rewrite set_party_same, with_state_same. }
  destruct (party (state e) !! member) as [m|] eqn:Hm.
  - destruct (doubting m) eqn:Hd.
    + assert (HP : alter (set_doubt None) member
                     (alter (set_doubting false) member (party (state e)))
                   = alter cure_doubter member (party (state e))).
      { apply list_eq. intros j. destruct (decide (j = member)) as [->|Hne].
        - rewrite !list_lookup_alter_eq, Hm. simpl.
          unfold cure_doubter. rewrite Hd. reflexivity.
        - rewrite !list_lookup_alter_ne by congruence. reflexivity. }
      unfold modify_member. rewrite step_modify. unfold modify. simpl.
      unfold with_state. simpl. rewrite HP. reflexivity.
    + apply Hsame. apply list_eq. intros j.
      destruct (decide (j = member)) as [->|Hne].
      * rewrite list_lookup_alter_eq, Hm. simpl.
        unfold cure_doubter. rewrite Hd. reflexivity.
      * rewrite list_lookup_alter_ne by congruence. reflexivity.
  - apply Hsame. apply list_eq. intros j.
    destruct (decide (j = member)) as [->|Hne].
    + rewrite list_lookup_alter_eq, Hm. reflexivity.
    + rewrite list_lookup_alter_ne by congruence. reflexivity.
Qed.

Lemma cure_loop l e :
  forEach l (fun member =>
    s ← get;
    match party s !! member with
    | Some m =>
        if doubting m then
          modify_member member (set_doubting false);;
          modify_member member (set_doubt None)
        else mret tt
    | None => mret tt
    end) e
  = (Ok tt,
     with_state
       (set_party (foldl (fun p i => alter cure_doubter i p)
                     (party (state e)) l) (state e)) e).
Proof.
  revert e. induction l as [|i l IH]; intros e; simpl.
  - now rewrite set_party_same, with_state_same.
  - unfold mbind at 1, Eng_bind at 1. rewrite cure_body, IH. reflexivity.
Qed.

Lemma cure_doubter_idem m : cure_doubter (cure_doubter m) = cure_doubter m.
Proof. unfold cure_doubter. destruct (doubting m) eqn:H; simpl; now rewrite ?H. Qed.

Lemma foldl_alter_lookup (l : list nat) (p : list Member) j :
  foldl (fun p i => alter cure_doubter i p) p l !! j
  = (if bool_decide (j ∈ l) then cure_doubter else id) <$> (p !! j).
Proof.
  revert p. induction l as [|i l IH]; intros p; cbn [foldl].
  - rewrite bool_decide_eq_false_2 by apply not_elem_of_nil.
    now destruct (p !! j).
  - rewrite IH. destruct (decide (i = j)) as [->|Hne].
    + rewrite list_lookup_alter_eq.
      rewrite (bool_decide_eq_true_2 (j ∈ j :: l)) by apply list_elem_of_here.
      destruct (p !! j) as [m|]; simpl; [ | reflexivity ].
      destruct (bool_decide (j ∈ l)); simpl; [ | reflexivity ].
      now rewrite cure_doubter_idem.
    + rewrite list_lookup_alter_ne by exact Hne.
      destruct (bool_decide (j ∈ l)) eqn:Hin.
      * apply bool_decide_eq_true in Hin.
        rewrite bool_decide_eq_true_2 by now apply list_elem_of_further.
        reflexivity.
      * apply bool_decide_eq_false in Hin.
        rewrite bool_decide_eq_false_2; [reflexivity | ].
        intros H. apply elem_of_cons in H. destruct H; congruence.
Qed.

Lemma cure_all (p : list Member) :
  foldl (fun q i => alter cure_doubter i q) p
    (filter_idx (fun m => negb (abandoned m)) p)
  = map cure p.
Proof.
  apply list_eq. intros j. rewrite foldl_alter_lookup, list_lookup_fmap.
  destruct (p !! j) as [m|] eqn:Hm; simpl; [ | reflexivity ].
  f_equal. unfold cure, cure_doubter.
  destruct (abandoned m) eqn:Ha; simpl.
  - rewrite bool_decide_eq_false_2; [reflexivity | ].
    intros Hin. apply list_elem_of_In, filter_idx_spec in Hin.
    destruct Hin as [m' [Hm' H]].
    rewrite Hm in Hm'. injection Hm' as <-. rewrite Ha in H. discriminate.
  - rewrite bool_decide_eq_true_2; [reflexivity | ].
    apply list_elem_of_In.
    apply (filter_idx_complete _ _ _ m Hm). now rewrite Ha.
Qed.

(** When no active member doubts, curing changes nobody. *)
Lemma cure_nobody (p : list Member) :
  length (filter_idx (fun m => negb (abandoned m) && doubting m) p) = 0%nat ->
  map cure p = p.
Proof.
  intros Hlen. apply list_eq. intros j. rewrite list_lookup_fmap.
  destruct (p !! j) as [m|] eqn:Hm; simpl; [ | reflexivity ].
  f_equal. unfold cure.
  destruct (negb (abandoned m) && doubting m) eqn:H; [ | reflexivity ].
  pose proof (filter_idx_complete
                (fun m => negb (abandoned m) && doubting m) _ _ m Hm H) as Hin.
  destruct (filter_idx _ p); [destruct Hin | discriminate Hlen].
Qed.

Lemma cured_quiet (p : list Member) i m :
  map cure p !! i = Some m -> abandoned m || negb (doubting m) = true.
Proof.
  rewrite list_lookup_fmap. destruct (p !! i) as [m0|]; [ | discriminate ].
  simpl. intros [= <-]. unfold cure.
  destruct (abandoned m0) eqn:Ha, (doubting m0) eqn:Hd; simpl;
    rewrite ?Ha, ?Hd; reflexivity.
Qed.

(** X14. With morale above 75 the daily party update is benign: it draws
    no random number, touches no resource, abandons nobody (the returned
    list is empty) and cures every active doubter (doubting flag cleared,
    doubt removed); abandoned members and members without doubts are left
    exactly as they were. *)
Theorem updatePartyMorale_in_good_spirits theme rnd e z :
  r_morale (resources (state e)) = Int z ->
  75 < z ->
  updatePartyMorale theme rnd e
  = (Ok [], with_state (set_party (map cure (party (state e))) (state e)) e).
Proof.
  intros Hz Hgt. unfold updatePartyMorale. rewrite step_get. cbv zeta.
  rewrite Hz.
  assert (Ht : targetDoubters (Int z) = 0%nat).
  { unfold targetDoubters, ltb.
    destruct (Z.ltb_spec z 75); [lia | ].
    destruct (Z.ltb_spec z 50); [lia | ].
    destruct (Z.ltb_spec z 30); [lia | reflexivity]. }
  rewrite Ht. cbn [Nat.ltb Nat.leb]. rewrite step_ret.
  assert (Hg : gtb (Int z) (Int 75) = true)
    by (unfold gtb, ltb; apply Z.ltb_lt; exact Hgt).
  rewrite Hg. cbn [andb].
  set (current := length (filter_idx (fun m => negb (abandoned m) && doubting m)
                            (party (state e)))).
  assert (Hcured : forall k : unit -> Eng (list Abandonment),
    ((if (0 <? current)%nat
      then forEach (filter_idx (fun m => negb (abandoned m)) (party (state e)))
             (fun member =>
                s ← get;
                match party s !! member with
                | Some m =>
                    if doubting m then
                      modify_member member (set_doubting false);;
                      modify_member member (set_doubt None)
                    else mret tt
                | None => mret tt
                end)
      else mret tt) ≫= k) e
    = k tt (with_state (set_party (map cure (party (state e))) (state e)) e)).
  { intros k. destruct (0 <? current)%nat eqn:Hc.
    - unfold mbind at 1, Eng_bind at 1. rewrite cure_loop, cure_all.
      reflexivity.
    - rewrite step_ret. apply Nat.ltb_ge in Hc.
      rewrite cure_nobody by (fold current; lia).
      now rewrite set_party_same, with_state_same. }
  rewrite Hcured. rewrite step_get.
  cbn [state with_state party set_party].
  unfold mbind at 1, Eng_bind at 1.
  rewrite forEach_noop.
  - apply foldEach_noop. intros i _. unfold check_abandon.
    rewrite step_get. cbn [state with_state party set_party].
    destruct (map cure (party (state e)) !! i) as [m|] eqn:Hm;
      [ | reflexivity ].
    rewrite (cured_quiet _ _ _ Hm). reflexivity.
  - intros i _. unfold drain. rewrite step_get.
    cbn [state with_state party set_party].
    destruct (map cure (party (state e)) !! i) as [m|] eqn:Hm;
      [ | reflexivity ].
    rewrite (cured_quiet _ _ _ Hm). reflexivity.
Qed.

Lemma updatePartyMorale_in_good_spirits_witness :
  updatePartyMorale roswell draws
    (exec (modify_member 0 (set_doubting true)) (new_game roswell))
  = (Ok [],
     with_state
       (set_party
          (map cure (party (state (exec (modify_member 0 (set_doubting true))
                                     (new_game roswell)))))
          (state (exec (modify_member 0 (set_doubting true))
                    (new_game roswell))))
       (exec (modify_member 0 (set_doubting true)) (new_game roswell))).
Proof.
  assert (Hz : r_morale (resources (state (exec (modify_member 0
                                                   (set_doubting true))
                                             (new_game roswell)))) = Int 80)
    by (vm_compute; reflexivity).
  assert (Hgt : 75 < 80) by lia.
  exact (updatePartyMorale_in_good_spirits roswell draws _ 80 Hz Hgt).
Defined.

(** * More on event selection *)




(** * Resting *)

Lemma foldl_alter_all (f : Member -> Member) (p : list Member) :
  (forall m, f (f m) = f m) ->
  foldl (fun q i => alter f i q) p (seq 0 (length p)) = map f p.
Proof.
  intros Hidem.
  assert (Hlk : forall (l : list nat) (q : list Member) j,
            foldl (fun q i => alter f i q) q l !! j
            = (if bool_decide (j ∈ l) then f else id) <$> (q !! j)).
  { induction l as [|i l IH]; intros q j; cbn [foldl].
    - rewrite bool_decide_eq_false_2 by apply not_elem_of_nil.
      now destruct (q !! j).
    - rewrite IH. destruct (decide (i = j)) as [->|Hne].
      + rewrite list_lookup_alter_eq.
        rewrite (bool_decide_eq_true_2 (j ∈ j :: l))
          by apply list_elem_of_here.
        destruct (q !! j) as [m|]; simpl; [ | reflexivity ].
        destruct (bool_decide (j ∈ l)); simpl; [ | reflexivity ].
        now rewrite Hidem.
      + rewrite list_lookup_alter_ne by exact Hne.
        destruct (bool_decide (j ∈ l)) eqn:Hin.
        * apply bool_decide_eq_true in Hin.
          rewrite bool_decide_eq_true_2 by now apply list_elem_of_further.
          reflexivity.
        * apply bool_decide_eq_false in Hin.
          rewrite bool_decide_eq_false_2; [reflexivity | ].
          intros H. apply elem_of_cons in H. destruct H; congruence. }
  apply list_eq. intros j. rewrite Hlk, list_lookup_fmap.
  destruct (p !! j) as [m|] eqn:Hm; simpl; [ | reflexivity ].
  rewrite bool_decide_eq_true_2; [reflexivity | ].
  apply list_elem_of_In, in_seq. apply lookup_lt_Some in Hm. lia.
Qed.

Lemma relieve_loop l e :
  forEach l (fun member =>
    modify_member member (set_doubting false);;
    modify_member member (set_doubt None)) e
  = (Ok tt,
     with_state (set_party (foldl (fun p i => alter relieve i p)
                              (party (state e)) l) (state e)) e).
Proof.
  unfold modify_member.
  revert e. induction l as [|i l IH]; intros e; cbn [forEach foldl].
  - now rewrite set_party_same, with_state_same.
  - rewrite step_assoc, step_modify. cbv beta.
    rewrite step_modify. cbv beta.
    rewrite IH. unfold with_state. simpl.
    assert (HP : alter (set_doubt None) i
                   (alter (set_doubting false) i (party (state e)))
                 = alter relieve i (party (state e))).
    { apply list_eq. intros j. destruct (decide (j = i)) as [->|Hne].
      - rewrite !list_lookup_alter_eq.
        destruct (party (state e) !! i); reflexivity.
      - rewrite !list_lookup_alter_ne by congruence. reflexivity. }
    rewrite HP. reflexivity.
Qed.

(** X17. [rest(days)] refuses, and changes nothing, when food is below 10.
    Otherwise it takes 10 food, advances the calendar by [days] and, when
    morale is above 60, clears the doubting flag and the doubt of every
    member of the roster (the abandoned ones included); with morale at 60
    or below the roster is left as it is. *)
Theorem rest_outcomes days e :
  (ltb (r_food (resources (state e))) (Int 10) = true ->
   rest days e = (Ok NotEnoughFood, e))
  /\ (ltb (r_food (resources (state e))) (Int 10) = false ->
      let e1 := exec (advanceTime days)
                  (with_state (upd_res food (fun v => sub v (Int 10)) (state e))
                     e) in
      rest days e
      = (Ok Rested,
         if gtb (r_morale (resources (state e))) (Int 60)
         then with_state (set_party (map relieve (party (state e1)))
                            (state e1)) e1
         else e1)).
Proof.
  unfold rest. rewrite step_get. cbv zeta. split; intros ->; [reflexivity | ].
  rewrite step_modify. unfold advanceTime at 1.
  rewrite step_assoc, step_modify. cbv beta. rewrite step_modify, step_get.
  unfold exec, advanceTime. rewrite step_modify. unfold modify at 2.
  cbn [snd fst state with_state].
  match goal with
  | |- context [gtb (r_morale (resources ?s)) (Int 60)] =>
      change (r_morale (resources s)) with (r_morale (resources (state e)))
  end.
  destruct (gtb (r_morale (resources (state e))) (Int 60)).
  - unfold mbind at 1, Eng_bind at 1. rewrite relieve_loop.
    cbn [state with_state party set_party set_day set_month upd_res
         set_resources].
    rewrite foldl_alter_all by reflexivity. reflexivity.
  - reflexivity.
Qed.

Lemma rest_outcomes_witness :
  rest 2 (low_morale_game roswell)
  = (Ok Rested,
     if gtb (r_morale (resources (state (low_morale_game roswell)))) (Int 60)
     then with_state
            (set_party
               (map relieve
                  (party (state (exec (advanceTime 2)
                     (with_state (upd_res food (fun v => sub v (Int 10))
                                    (state (low_morale_game roswell)))
                        (low_morale_game roswell))))))
               (state (exec (advanceTime 2)
                  (with_state (upd_res food (fun v => sub v (Int 10))
                                 (state (low_morale_game roswell)))
                     (low_morale_game roswell)))))
            (exec (advanceTime 2)
               (with_state (upd_res food (fun v => sub v (Int 10))
                              (state (low_morale_game roswell)))
                  (low_morale_game roswell)))
     else exec (advanceTime 2)
            (with_state (upd_res food (fun v => sub v (Int 10))
                           (state (low_morale_game roswell)))
               (low_morale_game roswell))).
Proof.
  assert (H : ltb (r_food (resources (state (low_morale_game roswell))))
                (Int 10) = false) by (vm_compute; reflexivity).
  exact (proj2 (rest_outcomes 2 (low_morale_game roswell)) H).
Defined.

Lemma Qfloor_draw (r : Q) : (0 <= r < 1)%Q -> 0 <= Qfloor (r * 15) <= 14.
Proof.
  intros [Hlo Hhi]. split.
  - change 0 with (Qfloor 0). apply Qfloor_resp_le. nra.
  - assert (H : (inject_Z (Qfloor (r * 15)) < inject_Z 15)%Q).
    { apply Qle_lt_trans with (r * 15)%Q; [apply Qfloor_le | ].
      change (inject_Z 15) with 15%Q. nra. }
    rewrite <- Zlt_Qlt in H. lia.
Qed.

(** X19. [forage()], on a draw in [[0, 1)], returns; it finds at least 10
    food when the profession's forage bonus is not negative and at most 24
    when there is none; the morale penalty is 0 on the first forage at a
    location, -5 on the second and -10 afterwards; the food is capped at
    its maximum, the morale changes by the profession's forage change plus
    the penalty without being clamped, the forage count goes up by one and
    one draw is used. *)
Theorem forage_outcome theme rnd e :
  (0 <= rnd (drawn e) < 1)%Q ->
  let s := state e in
  let bonus := Qor_default (professionModifiers s ≫= forageBonus) 0 in
  let change := or_default (professionModifiers s ≫= forageMoraleChange) 0 in
  let penalty := match forageCount s with O => 0 | S O => -5 | _ => -10 end in
  exists found,
    forage theme rnd e
    = (Ok {| foodFound := found; moralePenalty := penalty;
             fr_forageMoraleChange := change |},
       {| state :=
            set_forageCount (S (forageCount s))
              (upd_res morale (fun v => add v (Int (change + penalty)))
                 (upd_res food
                    (fun v => min (of_undef (rc_max (t_food (th_resources theme))))
                                  (add v (Int found))) s));
          eventHistory := eventHistory e;
          drawn := S (drawn e) |})
    /\ ((0 <= bonus)%Q -> 10 <= found)
    /\ ((bonus == 0)%Q -> found <= 24).
Proof.
  intros Hr s bonus change penalty.
  exists (Qfloor (inject_Z (Qfloor (rnd (drawn e) * 15) + 10) * (1 + bonus))).
  pose proof (Qfloor_draw _ Hr) as Hf.
  split; [ | split ].
  - unfold forage. rewrite step_get. cbv zeta. rewrite step_random.
    rewrite !step_modify. reflexivity.
  - intros Hb.
    change 10 with (Qfloor (inject_Z 10)) at 1. apply Qfloor_resp_le.
    assert (H : (inject_Z 10 <= inject_Z (Qfloor (rnd (drawn e) * 15) + 10))%Q)
      by (rewrite <- Zle_Qle; lia).
    change (inject_Z 10) with 10%Q in *. nra.
  - intros Hb.
    assert (H : (inject_Z (Qfloor (rnd (drawn e) * 15) + 10) * (1 + bonus)
                 == inject_Z (Qfloor (rnd (drawn e) * 15) + 10))%Q)
      by (rewrite Hb; ring).
    rewrite H, Qfloor_Z. lia.
Qed.

Lemma forage_outcome_witness :
  exists found,
    forage roswell draws (overforaged_game roswell)
    = (Ok {| foodFound := found; moralePenalty := -10;
             fr_forageMoraleChange := 2 |},
       {| state :=
            set_forageCount 3
              (upd_res morale (fun v => add v (Int (2 + -10)))
                 (upd_res food (fun v => min (Int 100) (add v (Int found)))
                    (state (overforaged_game roswell))));
          eventHistory := [];
          drawn := 1 |})
    /\ 10 <= found.
Proof.
  assert (Hr : (0 <= draws (drawn (overforaged_game roswell)) < 1)%Q)
    by (split; vm_compute; [discriminate | reflexivity]).
  destruct (forage_outcome roswell draws (overforaged_game roswell) Hr)
    as [found [Hrun [Hlo _]]].
  exists found. split.
  - exact Hrun.
  - apply Hlo. vm_compute. discriminate.
Defined.

Lemma find_unique_id (l : list ProfessionSpec) (p : ProfessionSpec) :
  NoDup (map p_id l) -> In p l ->
  List.find (fun q => bool_decide (p_id q = p_id p)) l = Some p.
Proof.
  induction l as [|q l IH]; intros Hnd Hin; [destruct Hin | ].
  cbn [map] in Hnd. apply NoDup_cons in Hnd as [Hq Hnd].
  cbn [List.find]. destruct Hin as [-> | Hin].
  - now rewrite bool_decide_eq_true_2.
  - rewrite bool_decide_eq_false_2; [now apply IH | ].
    intros Heq. apply Hq. rewrite Heq.
    apply list_elem_of_In, in_map, Hin.
Qed.

(** X20. [setProfession(id)] with an id no profession of the theme has
    throws the error "Profession <id> not found" and leaves the engine as
    it was; with the id of a profession of the theme (ids being unique),
    it returns, records the id and that profession's modifiers, and
    replaces the currency by the profession's starting currency, whatever
    it was, leaving the other four resources, the party, the distance and
    the date alone.  (The display name and the score multiplier that the
    method also stores are read by no engine method and are not part of
    the state modelled here.) *)
Theorem setProfession_outcomes theme professionId e :
  ((forall p, In p (professions theme) -> p_id p <> professionId) ->
   setProfession theme professionId e
   = (Throw (Error ("Profession " +:+ professionId +:+ " not found")), e))
  /\ (forall p,
        NoDup (map p_id (professions theme)) ->
        In p (professions theme) ->
        p_id p = professionId ->
        let e' := exec (setProfession theme professionId) e in
        result (setProfession theme professionId) e = Ok tt
        /\ profession (state e') = Some professionId
        /\ professionModifiers (state e') = p_modifiers p
        /\ r_currency (resources (state e')) = Int (startingCurrency p)
        /\ (forall k, k <> currency ->
              res_get k (resources (state e'))
              = res_get k (resources (state e)))
        /\ party (state e') = party (state e)
        /\ distance (state e') = distance (state e)
        /\ (month (state e'), day (state e'))
           = (month (state e), day (state e))
        /\ eventHistory e' = eventHistory e /\ drawn e' = drawn e).
Proof.
  split.
  - intros Hnone. unfold setProfession.
    destruct (List.find _ (professions theme)) as [p|] eqn:Hfind;
      [ | reflexivity ].
    apply find_some in Hfind as [Hin Hid].
    apply bool_decide_eq_true in Hid.
    destruct (Hnone p Hin Hid).
  - intros p Hnd Hin <-. cbv zeta. unfold exec, result, setProfession.
    rewrite (find_unique_id _ p Hnd Hin).
    rewrite !step_modify. unfold modify. cbn [fst snd state eventHistory drawn].
    repeat split.
    intros [] Hk; try reflexivity. now destruct Hk.
Qed.

Lemma setProfession_outcomes_witness :
  setProfession roswell "dealer" (constructor roswell)
  = (Throw (Error "Profession dealer not found"), constructor roswell)
  /\ r_currency (resources (state (exec (setProfession roswell "blogger")
                                     (constructor roswell))))
     = Int 200.
Proof.
  split.
  - apply (proj1 (setProfession_outcomes roswell "dealer"
                    (constructor roswell))).
    intros p [<- | []]. discriminate.
  - assert (Hnd : NoDup (map p_id (professions roswell))).
    { apply NoDup_cons. split; [ | apply NoDup_nil_2 ].
      intros H. inversion H. }
    assert (Hin : In blogger (professions roswell)) by (now left).
    assert (Hid : p_id blogger = "blogger") by reflexivity.
    exact (proj1 (proj2 (proj2 (proj2
             (proj2 (setProfession_outcomes roswell "blogger"
                       (constructor roswell)) blogger Hnd Hin Hid))))).
Defined.

Ltac special_leaf := simpl in *; assumption.

Section SpecialItemTail.

Variable theme : Theme.
Variable rnd : nat -> Q.
Variable v : num.

Let I := fun s => r_specialItem (resources s) = v.

Lemma updateWeather_special : inv I (updateWeather rnd).
Proof. unfold I, updateWeather. inv_walk; special_leaf. Qed.

Lemma promote_special member : inv I (promote theme rnd member).
Proof. unfold I, promote. inv_walk; special_leaf. Qed.

#[local] Hint Resolve updateWeather_special promote_special : invdb.

Lemma updatePartyMorale_special : inv I (updatePartyMorale theme rnd).
Proof.
  unfold I, updatePartyMorale, drain, check_abandon. inv_walk; special_leaf.
Qed.

Lemma checkLocationArrival_special : inv I (checkLocationArrival theme).
Proof. unfold I, checkLocationArrival. inv_walk; special_leaf. Qed.

End SpecialItemTail.

#[local] Hint Resolve updateWeather_special updatePartyMorale_special
  checkLocationArrival_special : invdb.

(** X21. One day of [travel()], on a theme with a phase table, takes the
    pace's fuel cost (8 mellow, 12 steady, 18 rush) off the fuel without
    clamping it, whatever the draws and the party; a positive special
    item loses 2 and stops at 0, one that is 0 or negative is left as it
    is; pace and rations are not changed. *)
Theorem travel_daily_depletion theme rnd e z :
  phases (journey theme) <> [] ->
  r_specialItem (resources (state e)) = Int z ->
  let s' := state (exec (travel theme rnd) e) in
  r_fuel (resources s')
  = sub (r_fuel (resources (state e)))
        (Int match pace (state e) with
             | mellow => 8 | steady => 12 | rush => 18
             end)
  /\ r_specialItem (resources s')
     = Int (if 0 <? z then Z.max 0 (z - 2) else z)
  /\ pace s' = pace (state e)
  /\ rations s' = rations (state e).
Proof.
  intros Hne Hz.
  destruct (getConsumptionRates_ok theme (state e) Hne) as [c Hc].
  pose proof (travel_exec theme rnd e c Hc) as Hframe.
  cbv zeta. unfold exec in *. split; [ | split; [ | split ] ].
  - apply (f_equal f_fuel) in Hframe. cbn [f_fuel travel_frame] in Hframe.
    rewrite Hframe.
    unfold getConsumptionRates in Hc.
    destruct (professionMoraleDrain theme (state e)); simpl in Hc;
      [ | discriminate ].
    injection Hc as <-. reflexivity.
  - clear Hframe. unfold travel.
    rewrite step_get. cbv zeta. rewrite Hc, step_lift, step_modify.
    unfold advanceTime. rewrite step_assoc, step_modify. cbv beta.
    rewrite !step_modify.
    destruct (bool_decide (rc_name (t_food (th_resources theme)) ≠ "Evidence"));
      [ rewrite step_modify | rewrite step_ret ]; rewrite step_get.
    all: match goal with
         | |- context [with_state ?s ?x] => set (e1 := with_state s x)
         end.
    all: assert (He1 : r_specialItem (resources (state e1)) = Int z)
           by (subst e1; simpl; exact Hz).
    all: clearbody e1; cbv beta; rewrite He1.
    all: change (gtb (Int z) (Int 0)) with (0 <? z).
    all: destruct (Z.ltb_spec 0 z) as [Hpos | Hpos].
    all: try (apply (inv_apply (fun s => r_specialItem (resources s) = Int z));
              [ inv_walk; special_leaf | exact He1 ]).
    all: rewrite step_assoc, step_modify; cbv beta.
    all: rewrite step_assoc, step_get; cbn [state with_state].
    all: assert (H2 : r_specialItem
                        (resources (upd_res specialItem
                                      (fun v => sub v (Int 2)) (state e1)))
                      = Int (z - 2))
           by (simpl; rewrite He1; reflexivity).
    all: rewrite H2; change (ltb (Int (z - 2)) (Int 0)) with (z - 2 <? 0).
    all: destruct (Z.ltb_spec (z - 2) 0) as [Hneg | Hneg];
           [ rewrite Z.max_l by lia | rewrite Z.max_r by lia ].
    all: rewrite step_assoc; first [ rewrite step_modify | rewrite step_ret ].
    all: first
           [ apply (inv_apply (fun s => r_specialItem (resources s) = Int 0));
             [ inv_walk; special_leaf | reflexivity ]
           | apply (inv_apply (fun s => r_specialItem (resources s)
                                        = Int (z - 2)));
             [ inv_walk; special_leaf | exact H2 ] ].
  - apply (f_equal f_pace) in Hframe. exact Hframe.
  - apply (f_equal f_rations) in Hframe. exact Hframe.
Qed.

Lemma travel_daily_depletion_witness :
  r_fuel (resources (state (exec (travel norcal draws) (rushed_game norcal))))
  = sub (r_fuel (resources (state (rushed_game norcal)))) (Int 18)
  /\ r_specialItem
       (resources (state (exec (travel norcal draws) (rushed_game norcal))))
     = Int 8.
Proof.
  assert (Hne : phases (journey norcal) <> []) by discriminate.
  assert (Hz : r_specialItem (resources (state (rushed_game norcal)))
               = Int 10) by (vm_compute; reflexivity).
  split.
  - exact (proj1 (travel_daily_depletion norcal draws (rushed_game norcal) 10
                    Hne Hz)).
  - exact (proj1 (proj2 (travel_daily_depletion norcal draws
                           (rushed_game norcal) 10 Hne Hz))).
Defined.

(** X22. Running out of fuel ends the game.  On a theme with a phase
    table, when the fuel does not exceed the pace's daily cost (8 mellow,
    12 steady, 18 rush), the [checkFailConditions()] that follows a day of
    [travel()] returns a terminal failure and sets [alive := false]
    without drawing a random number: "noFuel", unless every member has
    abandoned by then, which is reported first as "allAbandoned".  This
    holds whatever the draws, the morale and the party. *)
Theorem out_of_fuel_ends_the_game theme rnd e f :
  phases (journey theme) <> [] ->
  r_fuel (resources (state e)) = Int f ->
  f <= match pace (state e) with mellow => 8 | steady => 12 | rush => 18 end ->
  let e1 := exec (travel theme rnd) e in
  exists reason,
    checkFailConditions theme rnd e1
    = (Ok (Some (Fail reason)), with_state (set_alive false (state e1)) e1)
    /\ reason = (if forallb abandoned (party (state e1))
                 then "allAbandoned" else "noFuel").
Proof.
  intros Hne Hf Hle e1.
  destruct (getConsumptionRates_ok theme (state e) Hne) as [c Hc].
  pose proof (travel_exec theme rnd e c Hc) as Hframe.
  apply (f_equal f_fuel) in Hframe. cbn [f_fuel travel_frame] in Hframe.
  fold e1 in Hframe.
  assert (Hcost : c_fuel c = match pace (state e) with
                             | mellow => 8 | steady => 12 | rush => 18
                             end).
  { unfold getConsumptionRates in Hc.
    destruct (professionMoraleDrain theme (state e)); simpl in Hc;
      [ | discriminate ].
    injection Hc as <-. reflexivity. }
  rewrite Hf, Hcost in Hframe.
  assert (Hout : leb (r_fuel (resources (state e1))) (Int 0) = true).
  { rewrite Hframe. cbn [sub leb]. apply Z.leb_le. lia. }
  clearbody e1.
  unfold checkFailConditions. rewrite step_get. cbv zeta.
  destruct (forallb abandoned (party (state e1))).
  - eexists. split; reflexivity.
  - rewrite Hout. eexists. split; reflexivity.
Qed.

Lemma out_of_fuel_ends_the_game_witness :
  exists reason,
    checkFailConditions roswell draws
      (exec (travel roswell draws) (rushed_game roswell))
    = (Ok (Some (Fail reason)),
       with_state
         (set_alive false
            (state (exec (travel roswell draws) (rushed_game roswell))))
         (exec (travel roswell draws) (rushed_game roswell)))
    /\ reason = (if forallb abandoned
                      (party (state (exec (travel roswell draws)
                                       (rushed_game roswell))))
                 then "allAbandoned" else "noFuel").
Proof.
  assert (Hne : phases (journey roswell) <> []) by discriminate.
  assert (Hf : r_fuel (resources (state (rushed_game roswell))) = Int 5)
    by (vm_compute; reflexivity).
  assert (Hle : 5 <= match pace (state (rushed_game roswell)) with
                     | mellow => 8 | steady => 12 | rush => 18
                     end) by (vm_compute; discriminate).
  exact (out_of_fuel_ends_the_game roswell draws (rushed_game roswell) 5
           Hne Hf Hle).
Defined.
